(** * A shallow embedding of [autoclicker.py]

    The development follows the three classes of the source file:
    [HotkeyManager] (chord normalisation and rebinding), [AutoClicker]
    (the run/idle state machine and the timed click loop) and the parts of
    [AutoClickerApp] that produce and mutate [ClickSettings] objects.

    Conventions of the model.
    - Python [float] seconds are rationals ([Q]); rounding, [nan] and
      the infinities are not modelled: [float] either rejects a string or
      reads it as a rational number.
    - Python [str] is [string]; chords are taken over ASCII, the four symbol
      aliases of [SPECIAL_KEY_ALIASES] being keyed by their UTF-8 bytes.
    - A [dict] is a [gmap]; assignment [d[k] = v] is [<[k:=v]> d].
    - Exceptions are the [Raise] outcome, carrying the state reached when
      the exception left the function.
    - The run thread is sequential code over the state of the whole
      program; what the user does on the UI thread meanwhile is a list of
      timed actions, carried out at the points where the run thread sleeps.
      That is one run thread by itself. [Threads] runs several threads and
      the commands of the buttons against one clock, for the histories in
      which Start is pressed while the thread of an earlier run is alive.
    - Only [time.sleep] and [join] take time: two readings of the clock
      with no sleep between them give the same value.
    - Loops that need not end take a step budget ([fuel]); that a loop
      ends is stated as: every budget above some bound gives the result. *)

From Stdlib Require Import QArith Qround Lqa ZArith List Ascii String Bool.
From stdpp Require Import gmap strings list fin_maps sorting.

Open Scope string_scope.

(** ** Outcomes of effectful code *)

Inductive Exn : Type :=
| ValueError (msg : string)
| HotkeyError (msg : string).

(** Result of running a method on a state of type [S]. [OutOfFuel] only
    arises in the loops of the scheduler, which are cut off by a step
    budget. *)
Inductive Outcome (S A : Type) : Type :=
| Return (a : A) (s : S)
| Raise (e : Exn) (s : S)
| OutOfFuel.

Arguments Return {S A} a s.
Arguments Raise {S A} e s.
Arguments OutOfFuel {S A}.

Definition final_state {S A} (o : Outcome S A) : option S :=
  match o with
  | Return _ s => Some s
  | Raise _ s => Some s
  | OutOfFuel => None
  end.

(** ** Python string primitives used by [_format_combo] *)

Module PyStr.

Definition is_space (c : ascii) : bool :=
  let n := nat_of_ascii c in
  ((9 <=? n)%nat && (n <=? 13)%nat) || ((28 <=? n)%nat && (n <=? 32)%nat).

Definition lower_char (c : ascii) : ascii :=
  let n := nat_of_ascii c in
  if ((65 <=? n)%nat && (n <=? 90)%nat)%bool then ascii_of_nat (n + 32) else c.

Fixpoint lower (s : string) : string :=
  match s with
  | EmptyString => EmptyString
  | String c s' => String (lower_char c) (lower s')
  end.

Fixpoint lstrip (s : string) : string :=
  match s with
  | EmptyString => EmptyString
  | String c s' => if is_space c then lstrip s' else s
  end.

(** [rstrip] drops the trailing run of whitespace: a character is kept
    when something is kept after it or when it is not a space. *)
Fixpoint rstrip (s : string) : string :=
  match s with
  | EmptyString => EmptyString
  | String c s' =>
      match rstrip s' with
      | EmptyString => if is_space c then EmptyString else String c EmptyString
      | r => String c r
      end
  end.

Definition strip (s : string) : string := rstrip (lstrip s).

(** [s.replace(a, b)] for single characters. *)
Fixpoint replace (a b : ascii) (s : string) : string :=
  match s with
  | EmptyString => EmptyString
  | String c s' => String (if Ascii.eqb c a then b else c) (replace a b s')
  end.

(** [s.split(sep)] for a single-character separator: the pieces between
    separators, empty pieces included. *)
Fixpoint split (sep : ascii) (s : string) : list string :=
  match s with
  | EmptyString => [EmptyString]
  | String c s' =>
      if Ascii.eqb c sep then EmptyString :: split sep s'
      else match split sep s' with
           | [] => [String c EmptyString]
           | p :: ps => String c p :: ps
           end
  end.

(** [sep.join(parts)]. *)
Fixpoint join (sep : string) (parts : list string) : string :=
  match parts with
  | [] => EmptyString
  | [p] => p
  | p :: ps => p ++ sep ++ join sep ps
  end.

Definition nonempty (s : string) : bool :=
  match s with EmptyString => false | _ => true end.

End PyStr.

(** ** Hotkeys *)

Module Hotkeys.

Definition SPECIAL_KEY_ALIASES : gmap string string :=
  list_to_map
    [ ("cmd", "<cmd>"); ("command", "<cmd>"); ("⌘", "<cmd>");
      ("ctrl", "<ctrl>"); ("control", "<ctrl>"); ("⌃", "<ctrl>");
      ("alt", "<alt>"); ("option", "<alt>"); ("⌥", "<alt>");
      ("shift", "<shift>"); ("⇧", "<shift>");
      ("enter", "<enter>"); ("return", "<enter>");
      ("space", "<space>"); ("spacebar", "<space>");
      ("tab", "<tab>"); ("capslock", "<caps_lock>");
      ("esc", "<esc>"); ("escape", "<esc>");
      ("f1", "<f1>"); ("f2", "<f2>"); ("f3", "<f3>"); ("f4", "<f4>");
      ("f5", "<f5>"); ("f6", "<f6>"); ("f7", "<f7>"); ("f8", "<f8>");
      ("f9", "<f9>"); ("f10", "<f10>"); ("f11", "<f11>"); ("f12", "<f12>") ].

(** The three callables a chord can be bound to. *)
Inductive Action : Type := start_action | stop_action | toggle_action.

#[global] Instance Action_eq_dec : EqDecision Action.
Proof. solve_decision. Defined.

(** [listener] is the running [GlobalHotKeys] object, identified with the
    bindings it was built from; [None] when there is none. *)
Record HotkeyManager : Type := {
    current_bindings : gmap string Action;
    listener : option (gmap string Action)
  }.

Section WithPlatformHook.

(** The platform hook: whether [keyboard.GlobalHotKeys({chord: ...})]
    can be built for a formatted chord. *)
Variable hook_accepts : string -> bool.

Definition parse_part (part : string) : string :=
  match SPECIAL_KEY_ALIASES !! part with
  | Some canonical => canonical
  | None =>
      if (String.length part =? 1)%nat then part
      else "<" ++ part ++ ">"
  end.

Definition combo_parts (combo : string) : list string :=
  map (fun part => PyStr.lower (PyStr.strip part))
      (filter (fun part => PyStr.nonempty (PyStr.strip part) = true)
              (PyStr.split "+" (PyStr.replace "-" "+" combo))).

Definition _format_combo (combo : string) : Exn + string :=
  let parts := combo_parts combo in
  match parts with
  | [] => inl (HotkeyError "Hotkey cannot be empty")
  | _ =>
      let formatted := PyStr.join "+" (map parse_part parts) in
      if hook_accepts formatted then inr formatted
      else inl (HotkeyError ("Invalid hotkey '" ++ combo ++ "'"))
  end.

Definition _restart_listener (hm : HotkeyManager) : HotkeyManager :=
  {| current_bindings := current_bindings hm;
     listener := Some (current_bindings hm) |}.

(** [HotkeyManager.__init__]: the default chords, and a listener on them. *)
Definition init : HotkeyManager :=
  _restart_listener
    {| current_bindings :=
         <["<cmd>+<alt>+z" := toggle_action]>
           (<["<cmd>+<alt>+x" := stop_action]>
              (<["<cmd>+<alt>+s" := start_action]> ∅));
       listener := None |}.

(** The loop of [update]: the local dict [bindings] grows by one
    assignment per (combo, action) pair; the first failing
    [_format_combo] leaves the loop with its exception. *)
Fixpoint build_bindings (pairs : list (string * Action))
         (bindings : gmap string Action) : Exn + gmap string Action :=
  match pairs with
  | [] => inr bindings
  | (combo, action) :: rest =>
      match _format_combo combo with
      | inl e => inl e
      | inr formatted => build_bindings rest (<[formatted := action]> bindings)
      end
  end.

Definition update (start_combo stop_combo toggle_combo : string)
           (hm : HotkeyManager) : Outcome HotkeyManager unit :=
  match build_bindings [ (start_combo, start_action);
                         (stop_combo, stop_action);
                         (toggle_combo, toggle_action) ] ∅ with
  | inl e => Raise e hm
  | inr bindings =>
      Return tt (_restart_listener
                   {| current_bindings := bindings; listener := listener hm |})
  end.

Definition shutdown (hm : HotkeyManager) : HotkeyManager :=
  {| current_bindings := current_bindings hm; listener := None |}.

End WithPlatformHook.

End Hotkeys.

(** ** Rational helpers for Python float code *)

Module PyNum.

Open Scope Q_scope.

(** [a < b] and [a <= b] on floats, as booleans. *)
Definition ltb (a b : Q) : bool := negb (Qle_bool b a).
Definition leb (a b : Q) : bool := Qle_bool a b.

(** Python's two-argument [max]: the second argument is returned only
    when it is strictly greater than the first. *)
Definition max (a b : Q) : Q := if ltb a b then b else a.

(** [int(x)]: truncation toward zero. *)
Definition int (x : Q) : Z := Z.quot (Qnum x) (Zpos (Qden x)).

(** [random.uniform(a, b)] given the value [u] returned by the
    underlying [random.random()] call. *)
Definition uniform (a b u : Q) : Q := a + (b - a) * u.

End PyNum.

(** ** The scheduler *)

Module Clicker.

Open Scope Q_scope.

(** *** Data *)

Record ClickSettings : Type := {
    interval : Q;
    randomize : bool;
    random_range : Q;
    button : string;
    click_type : string;
    start_delay : Q;
    run_duration : Q;
    burst_count : Z;
    hold_duration : Q;
    follow_cursor : bool;
    fixed_position : Z * Z
  }.

(** [ClickSettings()] with the dataclass defaults. *)
Definition default_settings : ClickSettings :=
  {| interval := 0.1; randomize := false; random_range := 0;
     button := "left"; click_type := "single";
     start_delay := 0; run_duration := 0; burst_count := 0%Z;
     hold_duration := 0; follow_cursor := true;
     fixed_position := (0%Z, 0%Z) |}.

Definition set_fixed_position (p : Z * Z) (s : ClickSettings) : ClickSettings :=
  {| interval := interval s; randomize := randomize s;
     random_range := random_range s; button := button s;
     click_type := click_type s; start_delay := start_delay s;
     run_duration := run_duration s; burst_count := burst_count s;
     hold_duration := hold_duration s; follow_cursor := follow_cursor s;
     fixed_position := p |}.

Inductive CGEventType : Type :=
  | kCGEventLeftMouseDown | kCGEventLeftMouseUp
  | kCGEventRightMouseDown | kCGEventRightMouseUp
  | kCGEventOtherMouseDown | kCGEventOtherMouseUp.

Definition BUTTON_EVENT_MAP : gmap string (CGEventType * CGEventType * Z) :=
  list_to_map
    [ ("left", (kCGEventLeftMouseDown, kCGEventLeftMouseUp, 0%Z));
      ("right", (kCGEventRightMouseDown, kCGEventRightMouseUp, 1%Z));
      ("middle", (kCGEventOtherMouseDown, kCGEventOtherMouseUp, 2%Z)) ].

Definition CLICK_MULTIPLIER : gmap string nat :=
  list_to_map [ ("single", 1%nat); ("double", 2%nat); ("triple", 3%nat) ].

(** A [ClickSettings] object lives in the heap and is passed around by
    reference; [loc] is its address. *)
Abbreviation loc := nat (only parsing).

(** A [threading.Thread] with target [_run], by its identity and the
    settings object it was given. *)
Record Thread : Type := { tid : nat; args : loc }.

(** A registered callable, by identity. *)
Definition Callback : Type := nat.

Record AutoClicker : Type := {
    _is_running : bool;
    _stop_event : bool;
    _thread : option Thread;
    _start_callback : option Callback;
    _stop_callback : option Callback
  }.

(** The entry widgets and Tk variables read by [_collect_settings]. *)
Record Form : Type := {
    interval_entry : string;
    random_range_entry : string;
    delay_entry : string;
    duration_entry : string;
    burst_entry : string;
    hold_entry : string;
    randomize_var : bool;
    button_var : string;
    click_type_var : string;
    follow_var : bool
  }.

(** What a settings provider can touch: the heap of settings objects,
    the application's [self.settings] reference and form, and the
    error dialogs shown so far. *)
Record Store : Type := {
    heap : list ClickSettings;
    settings : loc;
    form : Form;
    dialogs : list string
  }.

(** Observable effects, oldest first. *)
Inductive Event : Type :=
  | MouseEvent (type : CGEventType) (position : Z * Z) (button_code : Z) (click_state : Z)
  | WarpCursor (position : Z * Z)
  | StartCallback (c : Callback)
  | StopCallback (c : Callback).

(** What the user does on the UI thread while a run is active. Start and
    Toggle, which can put a second run thread beside the first, are
    inputs of the machine in [Threads]. *)
Inductive UiAction : Type :=
  | PressStop
  | CaptureCursor
  | MoveMouse (x y : Q)
  | EditForm (f : Form).

(** The state of the whole program: the scheduler object, the store of
    the application, the monotonic clock, the pointer (in AppKit
    coordinates) and the height of the main screen, the effects so far,
    the UI actions still to come with their times, the threads that are
    alive, the number of threads started, and the number of
    [random.random()] draws made. *)
Record World : Type := {
    clicker : AutoClicker;
    store : Store;
    now : Q;
    mouse_location : Q * Q;
    display_height : Q;
    trace : list Event;
    pending : list (Q * UiAction);
    alive : gset nat;
    spawned : nat;
    rng : nat
  }.

(** *** Field updates *)

Definition set_is_running (b : bool) (c : AutoClicker) : AutoClicker :=
  {| _is_running := b; _stop_event := _stop_event c; _thread := _thread c;
     _start_callback := _start_callback c; _stop_callback := _stop_callback c |}.

Definition set_stop_event (b : bool) (c : AutoClicker) : AutoClicker :=
  {| _is_running := _is_running c; _stop_event := b; _thread := _thread c;
     _start_callback := _start_callback c; _stop_callback := _stop_callback c |}.

Definition set_thread (t : option Thread) (c : AutoClicker) : AutoClicker :=
  {| _is_running := _is_running c; _stop_event := _stop_event c; _thread := t;
     _start_callback := _start_callback c; _stop_callback := _stop_callback c |}.

Definition on_start (cb : Callback) (c : AutoClicker) : AutoClicker :=
  {| _is_running := _is_running c; _stop_event := _stop_event c;
     _thread := _thread c;
     _start_callback := Some cb; _stop_callback := _stop_callback c |}.

Definition on_stop (cb : Callback) (c : AutoClicker) : AutoClicker :=
  {| _is_running := _is_running c; _stop_event := _stop_event c;
     _thread := _thread c;
     _start_callback := _start_callback c; _stop_callback := Some cb |}.

Definition with_clicker (f : AutoClicker -> AutoClicker) (w : World) : World :=
  {| clicker := f (clicker w); store := store w; now := now w;
     mouse_location := mouse_location w; display_height := display_height w;
     trace := trace w; pending := pending w; alive := alive w;
     spawned := spawned w; rng := rng w |}.

Definition with_store (f : Store -> Store) (w : World) : World :=
  {| clicker := clicker w; store := f (store w); now := now w;
     mouse_location := mouse_location w; display_height := display_height w;
     trace := trace w; pending := pending w; alive := alive w;
     spawned := spawned w; rng := rng w |}.

Definition set_now (t : Q) (w : World) : World :=
  {| clicker := clicker w; store := store w; now := t;
     mouse_location := mouse_location w; display_height := display_height w;
     trace := trace w; pending := pending w; alive := alive w;
     spawned := spawned w; rng := rng w |}.

Definition set_mouse_location (m : Q * Q) (w : World) : World :=
  {| clicker := clicker w; store := store w; now := now w;
     mouse_location := m; display_height := display_height w;
     trace := trace w; pending := pending w; alive := alive w;
     spawned := spawned w; rng := rng w |}.

Definition set_pending (p : list (Q * UiAction)) (w : World) : World :=
  {| clicker := clicker w; store := store w; now := now w;
     mouse_location := mouse_location w; display_height := display_height w;
     trace := trace w; pending := p; alive := alive w;
     spawned := spawned w; rng := rng w |}.

Definition set_threads (a : gset nat) (n : nat) (w : World) : World :=
  {| clicker := clicker w; store := store w; now := now w;
     mouse_location := mouse_location w; display_height := display_height w;
     trace := trace w; pending := pending w; alive := a;
     spawned := n; rng := rng w |}.

Definition set_rng (n : nat) (w : World) : World :=
  {| clicker := clicker w; store := store w; now := now w;
     mouse_location := mouse_location w; display_height := display_height w;
     trace := trace w; pending := pending w; alive := alive w;
     spawned := spawned w; rng := n |}.

(** [post e]: one more observable effect ([CGEventPost], a cursor warp
    or a callback invocation). *)
Definition post (e : Event) (w : World) : World :=
  {| clicker := clicker w; store := store w; now := now w;
     mouse_location := mouse_location w; display_height := display_height w;
     trace := trace w ++ [e]; pending := pending w; alive := alive w;
     spawned := spawned w; rng := rng w |}.

Definition is_running (w : World) : bool := _is_running (clicker w).
Definition stop_event_is_set (w : World) : bool := _stop_event (clicker w).

(** Reading an attribute of the settings object at [l]. *)
Definition deref_store (st : Store) (l : loc) : ClickSettings :=
  default default_settings (heap st !! l).
Definition deref (w : World) (l : loc) : ClickSettings := deref_store (store w) l.

(** *** Time and the UI thread

    Only [time.sleep] takes time: [sleep d] moves the monotonic clock
    forward by [d]. The UI thread runs while the run thread sleeps: the
    actions of [pending] whose time has come are carried out, in order,
    when the sleeper wakes up. *)

(** [AutoClicker.stop], called from the UI thread. [Thread.join] only
    blocks the caller and changes no attribute. *)
Definition stop (w : World) : World :=
  if negb (is_running w) then w
  else
    let w := with_clicker (set_is_running false) w in
    let w := with_clicker (set_stop_event true) w in
    match _thread (clicker w) with
    | Some t =>
        if bool_decide (tid t ∈ alive w) then w
        else with_clicker (set_thread None) w
    | None => with_clicker (set_thread None) w
    end.

(** The cursor in Quartz coordinates, as both [_capture_cursor] and
    [_get_target_position] compute it. *)
Definition cursor_position (w : World) : Z * Z :=
  (PyNum.int (fst (mouse_location w)),
   PyNum.int (display_height w - snd (mouse_location w))).

Definition assign_fixed_position (p : Z * Z) (st : Store) : Store :=
  {| heap := alter (set_fixed_position p) (settings st) (heap st);
     settings := settings st; form := form st; dialogs := dialogs st |}.

(** [AutoClickerApp._capture_cursor]: an attribute assignment on the
    object [self.settings] refers to. *)
Definition _capture_cursor (w : World) : World :=
  with_store (assign_fixed_position (cursor_position w)) w.

Definition set_form (f : Form) (st : Store) : Store :=
  {| heap := heap st; settings := settings st; form := f; dialogs := dialogs st |}.

(** One action of the user, carried out by the UI thread. *)
Definition ui_step (a : UiAction) (w : World) : World :=
  match a with
  | PressStop => stop w
  | CaptureCursor => _capture_cursor w
  | MoveMouse x y => set_mouse_location (x, y) w
  | EditForm f => with_store (set_form f) w
  end.

Definition due (t : Q) (a : Q * UiAction) : bool := PyNum.leb (fst a) t.

(** The UI thread catches up with the clock: the pending actions that
    are due are carried out in the order of the list, the others stay. *)
Definition deliver (w : World) : World :=
  fold_left (fun w a => ui_step (snd a) w)
            (List.filter (due (now w)) (pending w))
            (set_pending (List.filter (fun a => negb (due (now w) a)) (pending w)) w).

(** [time.sleep(d)]. The clock value is kept in lowest terms. *)
Definition sleep (d : Q) (w : World) : World :=
  deliver (set_now (Qred (now w + d)) w).

Definition bind {A B} (o : Outcome World A) (k : A -> World -> Outcome World B)
  : Outcome World B :=
  match o with
  | Return a w => k a w
  | Raise e w => Raise e w
  | OutOfFuel => OutOfFuel
  end.

(** *** The run thread *)

Section RunThread.

(** [random k] is the value of the [k]-th call of [random.random()]. *)
Variable random : nat -> Q.

(** [while not self._stop_event.is_set() and time.monotonic() < end_time:
       time.sleep(0.001)] *)
Fixpoint wait_until (fuel : nat) (end_time : Q) (w : World) : Outcome World unit :=
  if negb (stop_event_is_set w) && PyNum.ltb (now w) end_time then
    match fuel with
    | O => OutOfFuel
    | S fuel' => wait_until fuel' end_time (sleep 0.001 w)
    end
  else Return tt w.

(** [CGWarpMouseCursorPosition] is an effect of its own and puts the
    pointer at the fixed position. *)
Definition _get_target_position (l : loc) (w : World) : (Z * Z) * World :=
  if follow_cursor (deref w l) then (cursor_position w, w)
  else
    let p := fixed_position (deref w l) in
    let w := post (WarpCursor p) w in
    let w := set_mouse_location
               (inject_Z (fst p), display_height w - inject_Z (snd p)) w in
    (fixed_position (deref w l), w).

(** The body of [for click_index in range(total_clicks)], over the
    indices still to do. *)
Fixpoint click_loop (fuel : nat) (l : loc) (position : Z * Z)
         (down_event up_event : CGEventType) (button_code : Z)
         (indices : list nat) (w : World) : Outcome World unit :=
  match indices with
  | [] => Return tt w
  | click_index :: rest =>
      let w := post (MouseEvent down_event position button_code
                                (Z.of_nat click_index + 1)) w in
      let hold_duration := hold_duration (deref w l) in
      bind (if PyNum.ltb 0 hold_duration
            then wait_until fuel (now w + hold_duration) w
            else Return tt w)
           (fun _ w =>
              let w := post (MouseEvent up_event position button_code
                                        (Z.of_nat click_index + 1)) w in
              let w := sleep 0.01 w in
              click_loop fuel l position down_event up_event button_code rest w)
  end.

Definition _perform_click (fuel : nat) (position : Z * Z) (l : loc) (w : World)
  : Outcome World unit :=
  let button := button (deref w l) in
  match BUTTON_EVENT_MAP !! button with
  | None => Raise (ValueError ("Unsupported button '" ++ button ++ "'")) w
  | Some (down_event, up_event, button_code) =>
      let total_clicks := default 1%nat (CLICK_MULTIPLIER !! click_type (deref w l)) in
      click_loop fuel l position down_event up_event button_code
                 (seq 0 total_clicks) w
  end.

(** The wait computed after a tick, with the random draw it may use. *)
Definition tick_interval (s : ClickSettings) (u : Q) : Q :=
  if randomize s && PyNum.ltb 0 (random_range s) then
    let offset := PyNum.uniform (- random_range s) (random_range s) u in
    PyNum.max 0.005 (interval s + offset)
  else interval s.

Definition next_interval (l : loc) (w : World) : Q * World :=
  let s := deref w l in
  (tick_interval s (random (rng w)),
   if randomize s && PyNum.ltb 0 (random_range s) then set_rng (S (rng w)) w else w).

(** The [while not self._stop_event.is_set()] loop of [_run]; the
    result is [clicks_performed] when the loop is left. *)
Fixpoint run_loop (fuel : nat) (l : loc) (start_time : Q) (clicks_performed : Z)
         (w : World) : Outcome World Z :=
  if stop_event_is_set w then Return clicks_performed w
  else
    match fuel with
    | O => OutOfFuel
    | S fuel' =>
        if PyNum.ltb 0 (run_duration (deref w l))
           && PyNum.leb (run_duration (deref w l)) (now w - start_time)
        then Return clicks_performed w
        else
          let '(position, w) := _get_target_position l w in
          bind (_perform_click fuel' position l w)
               (fun _ w =>
                  let clicks_performed := (clicks_performed + 1)%Z in
                  if (0 <? burst_count (deref w l))%Z
                     && (burst_count (deref w l) <=? clicks_performed)%Z
                  then Return clicks_performed w
                  else
                    let '(interval, w) := next_interval l w in
                    let end_time := now w + interval in
                    bind (wait_until fuel' end_time w)
                         (fun _ w => run_loop fuel' l start_time clicks_performed w))
    end.

Definition thread_exit (t : Thread) (w : World) : World :=
  set_threads (alive w ∖ {[tid t]}) (spawned w) w.

(** The code after the loop ("finished"). The closing [thread.join] is
    skipped when [self._thread] is the running thread and only blocks
    otherwise. *)
Definition finish (w : World) : World :=
  let w := with_clicker (set_stop_event true) w in
  let w := with_clicker (set_is_running false) w in
  let callback := _stop_callback (clicker w) in
  let w := with_clicker (set_thread None) w in
  match callback with
  | Some cb => post (StopCallback cb) w
  | None => w
  end.

(** [AutoClicker._run] as the body of thread [t]. An exception that
    leaves [_run] ends the thread without running the code after the
    loop. *)
Definition _run (fuel : nat) (t : Thread) (w : World) : Outcome World unit :=
  let l := args t in
  let w := if PyNum.ltb 0 (start_delay (deref w l))
           then sleep (start_delay (deref w l)) w else w in
  let start_time := now w in
  match run_loop fuel l start_time 0%Z w with
  | Return _ w => Return tt (thread_exit t (finish w))
  | Raise e w => Raise e (thread_exit t w)
  | OutOfFuel => OutOfFuel
  end.

End RunThread.

(** *** Control entry points *)

Definition Provider : Type := Store -> (Exn + loc) * Store.

Definition spawn (l : loc) (w : World) : Thread * World :=
  let t := {| tid := S (spawned w); args := l |} in
  (t, with_clicker (set_thread (Some t))
        (set_threads ({[tid t]} ∪ alive w) (S (spawned w)) w)).

(** [AutoClicker.start]; the second component is the thread that was
    started, if any. *)
Definition start (provider : Provider) (w : World) : World * option Thread :=
  if is_running w then (w, None)
  else
    let w := with_clicker (set_is_running true) w in
    let w := with_clicker (set_stop_event false) w in
    match provider (store w) with
    | (inl _, st) =>
        let w := with_store (fun _ => st) w in
        (with_clicker (set_is_running false) w, None)
    | (inr l, st) =>
        let w := with_store (fun _ => st) w in
        let '(t, w) := spawn l w in
        match _start_callback (clicker w) with
        | Some cb => (post (StartCallback cb) w, Some t)
        | None => (w, Some t)
        end
    end.

Definition toggle (provider : Provider) (w : World) : World * option Thread :=
  if is_running w then (stop w, None) else start provider w.

(** *** The settings provider of the application *)

Section Application.

(** Python's [float(s)]; [None] stands for [ValueError]. *)
Variable parse_float : string -> option Q.

(** [float(entry.get() or 0)] *)
Definition float_or_zero (s : string) : option Q :=
  if PyStr.nonempty s then parse_float s else Some 0.

Definition show_error (msg : string) (st : Store) : Store :=
  {| heap := heap st; settings := settings st; form := form st;
     dialogs := dialogs st ++ [msg] |}.

(** The [try] block and the [ClickSettings(...)] call: [None] when one
    of the numeric fields does not parse. *)
Definition read_form (f : Form) (fixed : Z * Z) : option ClickSettings :=
  interval ← parse_float (interval_entry f);
  random_range ← float_or_zero (random_range_entry f);
  start_delay ← float_or_zero (delay_entry f);
  run_duration ← float_or_zero (duration_entry f);
  burst ← float_or_zero (burst_entry f);
  hold_duration ← float_or_zero (hold_entry f);
  Some {| interval := PyNum.max 0.001 interval;
          randomize := randomize_var f;
          random_range := PyNum.max 0 random_range;
          button := button_var f;
          click_type := click_type_var f;
          start_delay := PyNum.max 0 start_delay;
          run_duration := PyNum.max 0 run_duration;
          burst_count := Z.max 0 (PyNum.int burst);
          hold_duration := PyNum.max 0 hold_duration;
          follow_cursor := follow_var f;
          fixed_position := fixed |}.

(** [AutoClickerApp._collect_settings]: a fresh [ClickSettings] object
    whose [fixed_position] is that of the current [self.settings], and
    which becomes [self.settings]. *)
Definition _collect_settings : Provider := fun st =>
  match read_form (form st) (fixed_position (deref_store st (settings st))) with
  | None => (inl (ValueError "could not convert string to float"),
             show_error "Invalid input" st)
  | Some s =>
      let l := length (heap st) in
      (inr l, {| heap := heap st ++ [s]; settings := l;
                 form := form st; dialogs := dialogs st |})
  end.

End Application.

End Clicker.

(** ** Several threads at once

    Pressing Stop while a run thread sleeps through its start delay
    leaves that thread alive, and the next Start puts a second run thread
    beside it, on the same [AutoClicker] object. This module runs the run
    threads and the commands of the buttons against one clock.

    A thread is cut at its [time.sleep] and [join] calls. What it does
    between two of them takes no time and is carried out in one piece;
    the rest of the thread is kept as a function [k] of the world the
    thread finds when it goes on. The functions of the run thread are
    those of [Clicker], line for line, with [k] passed along. *)

Module Threads.

Import Clicker.
Open Scope Q_scope.

(** What a thread has done when it stops running, for a while or for
    good: the world it leaves and, in [Sleep] and [Join], the rest of the
    thread. [Exit] is a return from the thread's function, [Die] an
    exception that leaves it. *)
Inductive Step : Type :=
  | Exit (w : World)
  | Die (e : Exn) (w : World)
  | Sleep (d : Q) (w : World) (k : World -> Step)
  | Join (target : nat) (timeout : Q) (w : World) (k : World -> Step)
  | Starve.

Section RunThread.

Variable random : nat -> Q.

(** [while not self._stop_event.is_set() and time.monotonic() < end_time:
       time.sleep(0.001)] *)
Fixpoint wait_until (fuel : nat) (end_time : Q) (w : World) (k : World -> Step) : Step :=
  if negb (stop_event_is_set w) && PyNum.ltb (now w) end_time then
    match fuel with
    | O => Starve
    | S fuel' => Sleep 0.001 w (fun w => wait_until fuel' end_time w k)
    end
  else k w.

(** The body of [for click_index in range(total_clicks)]. *)
Fixpoint click_loop (fuel : nat) (l : loc) (position : Z * Z)
         (down_event up_event : CGEventType) (button_code : Z)
         (indices : list nat) (w : World) (k : World -> Step) : Step :=
  match indices with
  | [] => k w
  | click_index :: rest =>
      let w := post (MouseEvent down_event position button_code
                                (Z.of_nat click_index + 1)) w in
      let hold_duration := hold_duration (deref w l) in
      let release := fun w =>
        let w := post (MouseEvent up_event position button_code
                                  (Z.of_nat click_index + 1)) w in
        Sleep 0.01 w
              (fun w => click_loop fuel l position down_event up_event button_code
                                   rest w k) in
      if PyNum.ltb 0 hold_duration
      then wait_until fuel (now w + hold_duration) w release
      else release w
  end.

Definition _perform_click (fuel : nat) (position : Z * Z) (l : loc) (w : World)
           (k : World -> Step) : Step :=
  let button := button (deref w l) in
  match BUTTON_EVENT_MAP !! button with
  | None => Die (ValueError ("Unsupported button '" ++ button ++ "'")) w
  | Some (down_event, up_event, button_code) =>
      let total_clicks := default 1%nat (CLICK_MULTIPLIER !! click_type (deref w l)) in
      click_loop fuel l position down_event up_event button_code
                 (seq 0 total_clicks) w k
  end.

(** The [while not self._stop_event.is_set()] loop of [_run]. *)
Fixpoint run_loop (fuel : nat) (l : loc) (start_time : Q) (clicks_performed : Z)
         (w : World) (k : World -> Step) : Step :=
  if stop_event_is_set w then k w
  else
    match fuel with
    | O => Starve
    | S fuel' =>
        if PyNum.ltb 0 (run_duration (deref w l))
           && PyNum.leb (run_duration (deref w l)) (now w - start_time)
        then k w
        else
          let '(position, w) := _get_target_position l w in
          _perform_click fuel' position l w
            (fun w =>
               let clicks_performed := (clicks_performed + 1)%Z in
               if (0 <? burst_count (deref w l))%Z
                  && (burst_count (deref w l) <=? clicks_performed)%Z
               then k w
               else
                 let '(interval, w) := next_interval random l w in
                 let end_time := now w + interval in
                 wait_until fuel' end_time w
                   (fun w => run_loop fuel' l start_time clicks_performed w k))
    end.

(** The code after the loop, in thread [t]: [thread = self._thread] is
    read before the reference is cleared, and joined for at most 0.1 s
    when it is another thread than [t]. *)
Definition finished (t : Thread) (w : World) : Step :=
  let thread := _thread (clicker w) in
  let w := finish w in
  match thread with
  | Some other =>
      if bool_decide (tid other = tid t) then Exit w
      else Join (tid other) 0.1 w Exit
  | None => Exit w
  end.

(** [AutoClicker._run] as the body of thread [t]. *)
Definition _run (fuel : nat) (t : Thread) (w : World) : Step :=
  let l := args t in
  let body := fun w => run_loop fuel l (now w) 0%Z w (finished t) in
  if PyNum.ltb 0 (start_delay (deref w l))
  then Sleep (start_delay (deref w l)) w body
  else body w.

End RunThread.

(** A thread with no other beside it: it sleeps as in [Clicker], where
    the UI actions that are due are carried out at wake-up, and a [join]
    returns at once. *)
Fixpoint alone (s : Step) : Outcome World unit :=
  match s with
  | Exit w => Return tt w
  | Die e w => Raise e w
  | Sleep d w k => alone (k (sleep d w))
  | Join _ _ w k => alone (k w)
  | Starve => OutOfFuel
  end.

(** The main thread, on which Tk runs the commands of the buttons and
    the hotkey actions (posted with [self.after]). It is not a run
    thread: those are numbered from 1. *)
Definition main_thread : nat := 0%nat.

(** [AutoClicker.stop] called on thread [me]: the [join] blocks the
    caller for at most 1 s, and whether the thread is alive is looked at
    again after it. *)
Definition stop (me : nat) (w : World) : Step :=
  if negb (is_running w) then Exit w
  else
    let w := with_clicker (set_is_running false) w in
    let w := with_clicker (set_stop_event true) w in
    let after := fun w =>
      match _thread (clicker w) with
      | Some t =>
          if bool_decide (tid t ∈ alive w) then Exit w
          else Exit (with_clicker (set_thread None) w)
      | None => Exit (with_clicker (set_thread None) w)
      end in
    match _thread (clicker w) with
    | Some t =>
        if bool_decide (tid t ∈ alive w) && negb (bool_decide (me = tid t))
        then Join (tid t) 1 w after
        else after w
    | None => after w
    end.

(** What the user can do: press Start or Toggle, or one of the actions
    of [UiAction] (Stop among them). *)
Inductive Input : Type :=
  | PressStart
  | PressToggle
  | Ui (a : UiAction).

(** A thread that is not running: asleep until [until], or in a [join]
    on thread [joining] that times out at [until]. *)
Record Parked : Type := {
    who : nat;
    until : Q;
    joining : option nat;
    resume : World -> Step
  }.

(** The program with its threads: the shared state, the threads that are
    parked, and what the user will do, with the times, in order. *)
Record Machine : Type := {
    world : World;
    parked : list Parked;
    script : list (Q * Input)
  }.

(** What can happen next: a parked thread goes on, or the main thread
    runs the command of the user's next input. *)
Inductive Agent : Type :=
  | Wake (p : Parked)
  | Press (i : Input).

(** How a history ends: no thread is left and the user has nothing more
    to do; or two things are due at the same time, and the clock does
    not tell which comes first; or the step budget is used up. *)
Inductive Verdict : Type :=
  | Halted (w : World)
  | Race (time : Q)
  | Starved.

(** When a parked thread goes on: at its wake-up time; from a [join], as
    soon as the joined thread is over, and at the timeout otherwise. *)
Definition ready_at (w : World) (p : Parked) : Q :=
  match joining p with
  | Some target => if bool_decide (target ∈ alive w) then until p else now w
  | None => until p
  end.

(** The next input is taken at its time, or when the main thread is
    free again if that is later; it waits while the main thread is
    parked. *)
Definition agents (m : Machine) : list (Q * Agent) :=
  (map (fun p => (ready_at (world m) p, Wake p)) (parked m)
   ++ match script m with
      | (time, i) :: _ =>
          if existsb (fun p => (who p =? main_thread)%nat) (parked m) then []
          else [(PyNum.max (now (world m)) time, Press i)]
      | [] => []
      end)%list.

(** The agents that are due first. *)
Definition first_of (l : list (Q * Agent)) : list (Q * Agent) :=
  List.filter (fun a => forallb (fun b => PyNum.leb (fst a) (fst b)) l) l.

Definition ended (me : nat) (w : World) : World :=
  set_threads (alive w ∖ {[me]}) (spawned w) w.

(** Thread [me] has run up to [s]: it is over, or parked again. *)
Definition settle (me : nat) (s : Step) (others : list Parked)
  : option (World * list Parked) :=
  match s with
  | Exit w => Some (ended me w, others)
  | Die _ w => Some (ended me w, others)
  | Sleep d w k =>
      Some (w, (others ++ [{| who := me; until := Qred (now w + d);
                              joining := None; resume := k |}])%list)
  | Join target timeout w k =>
      Some (w, (others ++ [{| who := me; until := Qred (now w + timeout);
                              joining := Some target; resume := k |}])%list)
  | Starve => None
  end.

Section Scheduler.

Variable random : nat -> Q.
Variable provider : Provider.

(** The step budget of the loops of each run thread. *)
Variable fuel : nat.

(** The command behind an input, run on the main thread, and the thread
    it has started, if any. *)
Definition command (i : Input) (w : World) : Step * option Thread :=
  match i with
  | PressStart => let '(w, t) := start provider w in (Exit w, t)
  | PressToggle =>
      if is_running w then (stop main_thread w, None)
      else let '(w, t) := start provider w in (Exit w, t)
  | Ui PressStop => (stop main_thread w, None)
  | Ui a => (Exit (ui_step a w), None)
  end.

(** A thread that has just been started is due at once. *)
Definition begin (w : World) (t : Thread) : Parked :=
  {| who := tid t; until := now w; joining := None;
     resume := fun w => _run random fuel t w |}.

(** The clock moves to [time] and agent [a] runs up to its next
    [time.sleep] or [join], or to its end. *)
Definition advance (time : Q) (a : Agent) (m : Machine) : option Machine :=
  let w := set_now (Qred time) (world m) in
  match a with
  | Wake p =>
      let others := List.filter (fun q => negb (who q =? who p)%nat) (parked m) in
      '(w, ps) ← settle (who p) (resume p w) others;
      Some {| world := w; parked := ps; script := script m |}
  | Press i =>
      let '(s, started) := command i w in
      '(w, ps) ← settle main_thread s (parked m);
      Some {| world := w;
              parked := (ps ++ match started with
                               | Some t => [begin w t]
                               | None => []
                               end)%list;
              script := tail (script m) |}
  end.

Fixpoint run (steps : nat) (m : Machine) : Verdict :=
  match first_of (agents m) with
  | [] => Halted (world m)
  | [(time, a)] =>
      match steps with
      | O => Starved
      | S steps' =>
          match advance time a m with
          | Some m' => run steps' m'
          | None => Starved
          end
      end
  | (time, _) :: _ => Race time
  end.

End Scheduler.

End Threads.

(** ** Reading a run off the world *)

Module Observe.

Import Clicker.

Definition is_down (ty : CGEventType) : bool :=
  match ty with
  | kCGEventLeftMouseDown | kCGEventRightMouseDown | kCGEventOtherMouseDown => true
  | _ => false
  end.

(** A button press, the first half of an occurrence. *)
Definition is_press (e : Event) : bool :=
  match e with
  | MouseEvent ty _ _ _ => is_down ty
  | _ => false
  end.

(** The press that opens a tick: the one tagged as occurrence 1. *)
Definition is_tick (e : Event) : bool :=
  match e with
  | MouseEvent ty _ _ click_state => is_down ty && (click_state =? 1)%Z
  | _ => false
  end.

Definition is_stop_call (e : Event) : bool :=
  match e with
  | StopCallback _ => true
  | _ => false
  end.

Definition is_start_call (e : Event) : bool :=
  match e with
  | StartCallback _ => true
  | _ => false
  end.

Definition count (p : Event -> bool) (tr : list Event) : nat :=
  length (List.filter p tr).

Definition ticks : list Event -> nat := count is_tick.
Definition presses : list Event -> nat := count is_press.
Definition stop_calls : list Event -> nat := count is_stop_call.
Definition start_calls : list Event -> nat := count is_start_call.

(** The events of one tick at [position]: press and release for each
    occurrence index. *)
Definition occurrences (position : Z * Z) (down_event up_event : CGEventType)
           (button_code : Z) (indices : list nat) : list Event :=
  flat_map (fun click_index =>
              [ MouseEvent down_event position button_code (Z.of_nat click_index + 1);
                MouseEvent up_event position button_code (Z.of_nat click_index + 1) ])
           indices.

(** Two settings objects that agree on everything but [fixed_position],
    the one attribute the application assigns after construction. *)
Definition same_config (s s' : ClickSettings) : Prop :=
  set_fixed_position (0%Z, 0%Z) s = set_fixed_position (0%Z, 0%Z) s'.

(** No press of Stop is waiting on the UI thread. *)
Definition quiet (w : World) : Prop :=
  Forall (fun a => snd a <> PressStop) (pending w).

(** What the run thread and the UI actions leave alone or only move one
    way while a run is active. *)
Record Frame (w w' : World) : Prop := {
  frame_now : (now w <= now w')%Q;
  frame_config : forall l, same_config (deref w l) (deref w' l);
  frame_stop_callback : _stop_callback (clicker w') = _stop_callback (clicker w);
  frame_stop_calls : stop_calls (trace w') = stop_calls (trace w);
  frame_stop_event : stop_event_is_set w = true -> stop_event_is_set w' = true;
  frame_alive : alive w' = alive w;
  frame_spawned : spawned w' = spawned w
}.

(** Pressing Stop would set the stop event: the scheduler is running, or
    the event is set already. *)
Definition armed (w : World) : Prop :=
  stop_event_is_set w = true \/ is_running w = true.

(** Stop is pressed at time [ts]: the press is waiting on the UI thread
    of a running scheduler, or the stop event is set. *)
Definition stop_pending (ts : Q) (w : World) : Prop :=
  stop_event_is_set w = true \/
  (is_running w = true /\ In (ts, PressStop) (pending w)).

(** ... and the press has been carried out if its time has come. *)
Definition stop_served (ts : Q) (w : World) : Prop :=
  stop_pending ts w /\ ((ts <= now w)%Q -> stop_event_is_set w = true).

End Observe.

(** ** More to read off a trace *)

Module Tally.

Import Clicker Observe.

(** A button release, the second half of an occurrence. *)
Definition is_release (e : Event) : bool :=
  match e with
  | MouseEvent ty _ _ _ => negb (is_down ty)
  | _ => false
  end.

Definition is_warp (e : Event) : bool :=
  match e with
  | WarpCursor _ => true
  | _ => false
  end.

Definition releases : list Event -> nat := count is_release.
Definition warps : list Event -> nat := count is_warp.

(** [total_clicks] as [_perform_click] computes it. *)
Definition total_clicks (s : ClickSettings) : nat :=
  default 1%nat (CLICK_MULTIPLIER !! click_type s).

End Tally.

(** ** The rest of the application window *)

Module App.

Import Clicker Hotkeys.

(** [AutoClickerApp._toggle_fixed_position], the command of the "Fixed
    position" radio button. *)
Definition _toggle_fixed_position (w : World) : World :=
  if negb (follow_var (form (store w))) then _capture_cursor w else w.

Inductive MessageBox : Type :=
| showinfo (title message : string)
| showerror (title message : string).

(** The hotkey part of the window: the three Tk variables behind the
    entries, the manager, and the message boxes shown so far. *)
Record HotkeyPanel : Type := {
  _hotkey_start : string;
  _hotkey_stop : string;
  _hotkey_toggle : string;
  hotkeys : HotkeyManager;
  boxes : list MessageBox
}.

Definition with_hotkeys (hm : HotkeyManager) (box : MessageBox) (p : HotkeyPanel)
  : HotkeyPanel :=
  {| _hotkey_start := _hotkey_start p; _hotkey_stop := _hotkey_stop p;
     _hotkey_toggle := _hotkey_toggle p; hotkeys := hm;
     boxes := boxes p ++ [box] |}.

(** [AutoClickerApp._apply_hotkeys]. Only [HotkeyError] is caught; any
    other exception leaves the method. *)
Definition _apply_hotkeys (hook_accepts : string -> bool) (p : HotkeyPanel)
  : Outcome HotkeyPanel unit :=
  match update hook_accepts (_hotkey_start p) (_hotkey_stop p) (_hotkey_toggle p)
               (hotkeys p) with
  | Return _ hm =>
      Return tt (with_hotkeys hm (showinfo "Hotkeys" "Hotkeys updated successfully.") p)
  | Raise (HotkeyError msg) hm =>
      Return tt (with_hotkeys hm (showerror "Hotkey error" msg) p)
  | Raise e hm =>
      Raise e {| _hotkey_start := _hotkey_start p; _hotkey_stop := _hotkey_stop p;
                 _hotkey_toggle := _hotkey_toggle p; hotkeys := hm;
                 boxes := boxes p |}
  | OutOfFuel => OutOfFuel
  end.

End App.

(** ** Histories of the hotkey manager *)

Module HotkeyHistory.

Import Hotkeys.

(** The characters a chord may consist of without naming any key. *)
Definition blank (c : ascii) : bool :=
  PyStr.is_space c || Ascii.eqb c "+" || Ascii.eqb c "-".

(** The states a manager can be in: as constructed, and after any
    sequence of [update] calls (successful or not) and [shutdown] calls. *)
Inductive reachable (hook_accepts : string -> bool) : HotkeyManager -> Prop :=
| reach_init : reachable hook_accepts init
| reach_update start_combo stop_combo toggle_combo hm hm' :
    reachable hook_accepts hm ->
    final_state (update hook_accepts start_combo stop_combo toggle_combo hm) = Some hm' ->
    reachable hook_accepts hm'
| reach_shutdown hm :
    reachable hook_accepts hm -> reachable hook_accepts (shutdown hm).

End HotkeyHistory.

(** ** The word generator ([Word_app_vol2.py]) *)

Module WordApp.

(** [itertools.permutations(iterable, r)]: the [r]-length arrangements of
    the elements, told apart by position, in the order of the positions.
    [selections] lists each element with the elements left over. *)
Fixpoint selections {A} (pool : list A) : list (A * list A) :=
  match pool with
  | [] => []
  | x :: pool' =>
      (x, pool') :: map (fun '(y, rest) => (y, x :: rest)) (selections pool')
  end.

Fixpoint itertools_permutations {A} (r : nat) (pool : list A) : list (list A) :=
  match r with
  | O => [[]]
  | S r' =>
      flat_map (fun '(x, rest) => map (cons x) (itertools_permutations r' rest))
               (selections pool)
  end.

(** [range(lo, hi + 1)] *)
Definition range_incl (lo hi : Z) : list Z :=
  map (fun k => (lo + Z.of_nat k)%Z) (seq 0 (Z.to_nat (hi + 1 - lo))).

(** [letter in word] for a one-character [letter]. *)
Definition contains (word : string) (letter : ascii) : bool :=
  existsb (Ascii.eqb letter) (list_ascii_of_string word).

(** One step of [sorted(..., key=len, reverse=True)], a stable sort:
    [w], which came before everything in [sorted], goes in front of the
    first word that is not longer than it. *)
Fixpoint insert_by_len (w : string) (sorted : list string) : list string :=
  match sorted with
  | [] => [w]
  | y :: ys =>
      if (String.length w <? String.length y)%nat then y :: insert_by_len w ys
      else w :: sorted
  end.

Definition sorted_longest_first (ws : list string) : list string :=
  foldr insert_by_len [] ws.

(** The order of a list sorted by length, longest first. *)
Definition not_shorter (a b : string) : Prop :=
  (String.length b <= String.length a)%nat.

Section Dictionary.

(** The module-level set read from the word list file. *)
Variable sowpods_words : gset string.

(** The condition under which a word is appended. *)
Definition accepted (include_letters exclude_letters word : string) : bool :=
  bool_decide (word ∈ sowpods_words)
  && forallb (contains word) (list_ascii_of_string include_letters)
  && negb (existsb (contains word) (list_ascii_of_string exclude_letters)).

(** The words appended for one length [i]. *)
Definition words_of_length (letters include_letters exclude_letters : string) (i : nat)
  : list string :=
  List.filter (accepted include_letters exclude_letters)
              (map string_of_list_ascii
                   (itertools_permutations i (list_ascii_of_string (PyStr.lower letters)))).

(** The outer loop over the lengths still to do; [permutations] raises
    [ValueError] for a negative length. *)
Fixpoint generate (letters include_letters exclude_letters : string)
         (lengths : list Z) (generated_words : list string) : Exn + list string :=
  match lengths with
  | [] => inr generated_words
  | i :: rest =>
      if (i <? 0)%Z then inl (ValueError "r must be non-negative")
      else generate letters include_letters exclude_letters rest
                    (generated_words
                       ++ words_of_length letters include_letters exclude_letters
                                          (Z.to_nat i))
  end.

(** [max_length or len(letters)] *)
Definition effective_max (letters : string) (max_length : option Z) : Z :=
  match max_length with
  | Some m => if (m =? 0)%Z then Z.of_nat (String.length letters) else m
  | None => Z.of_nat (String.length letters)
  end.

Definition all_words (letters include_letters exclude_letters : string)
           (min_length : Z) (max_length : option Z) : Exn + list string :=
  let max_length := effective_max letters max_length in
  match generate letters include_letters exclude_letters
                 (range_incl min_length max_length) [] with
  | inl e => inl e
  | inr generated_words => inr (sorted_longest_first generated_words)
  end.

End Dictionary.

End WordApp.

(** ** Sample data for the examples *)

Module Sample.

Import Clicker.
Open Scope Q_scope.

Definition digit (c : ascii) : option Z :=
  let n := nat_of_ascii c in
  if ((48 <=? n)%nat && (n <=? 57)%nat)%bool then Some (Z.of_nat (n - 48)) else None.

(** Digits of a decimal numeral, accumulated as numerator and
    denominator; [frac] tells whether the point has been passed. *)
Fixpoint digits (s : string) (frac seen : bool) (num : Z) (den : positive) : option Q :=
  match s with
  | EmptyString => if seen then Some (num # den) else None
  | String c s' =>
      if Ascii.eqb c "." then
        if frac then None else digits s' true seen num den
      else
        match digit c with
        | Some d =>
            digits s' frac true (10 * num + d)%Z (if frac then (10 * den)%positive else den)
        | None => None
        end
  end.

(** [float] on plain decimal numerals such as [12], [0.25] or [-3.5]. *)
Definition parse_decimal (s : string) : option Q :=
  match s with
  | String "-" s' => q ← digits s' false false 0%Z 1%positive; Some (- q)
  | _ => digits s false false 0%Z 1%positive
  end.

(** The form as [_build_interface] fills it from [ClickSettings()]. *)
Definition default_form : Form :=
  {| interval_entry := "0.1"; random_range_entry := "0.0"; delay_entry := "0.0";
     duration_entry := "0.0"; burst_entry := "0"; hold_entry := "0.0";
     randomize_var := false; button_var := "left"; click_type_var := "single";
     follow_var := true |}.

(** The application right after [AutoClickerApp.__init__], with the
    pointer at [(x, y)] on a display of the given height. *)
Definition fresh_world (f : Form) (m : Q * Q) (h : Q) (acts : list (Q * UiAction))
  : World :=
  {| clicker := {| _is_running := false; _stop_event := false; _thread := None;
                   _start_callback := Some 1%nat; _stop_callback := Some 2%nat |};
     store := {| heap := [default_settings]; settings := 0%nat; form := f;
                 dialogs := [] |};
     now := 0; mouse_location := m; display_height := h;
     trace := []; pending := acts; alive := ∅; spawned := 0; rng := 0 |}.

(** Press Start, then let the run thread go for [fuel] steps. *)
Definition start_and_run (random : nat -> Q) (provider : Provider) (fuel : nat)
           (w : World) : Outcome World unit :=
  match start provider w with
  | (w, Some t) => _run random fuel t w
  | (w, None) => Return tt w
  end.

Definition burst_form (n : string) : Form :=
  {| interval_entry := "0.1"; random_range_entry := "0.0"; delay_entry := "0.0";
     duration_entry := "0.0"; burst_entry := n; hold_entry := "0.0";
     randomize_var := false; button_var := "left"; click_type_var := "single";
     follow_var := true |}.

(** A form with the smallest interval and jitter switched on. *)
Definition jitter_form : Form :=
  {| interval_entry := "0.001"; random_range_entry := "0.002"; delay_entry := "";
     duration_entry := ""; burst_entry := ""; hold_entry := "";
     randomize_var := true; button_var := "left"; click_type_var := "single";
     follow_var := true |}.

Definition jitter_settings : ClickSettings :=
  {| interval := 0.001; randomize := true; random_range := 0.002;
     button := "left"; click_type := "single";
     start_delay := 0; run_duration := 0; burst_count := 0%Z;
     hold_duration := 0; follow_cursor := true;
     fixed_position := (0%Z, 0%Z) |}.

(** An application in the middle of a run of thread 1 over the settings
    object [s], the only one in the heap. *)
Definition running_world (s : ClickSettings) (m : Q * Q) (h : Q)
           (acts : list (Q * UiAction)) : World :=
  {| clicker := {| _is_running := true; _stop_event := false;
                   _thread := Some {| tid := 1; args := 0 |};
                   _start_callback := Some 1%nat; _stop_callback := Some 2%nat |};
     store := {| heap := [s]; settings := 0%nat; form := default_form;
                 dialogs := [] |};
     now := 0; mouse_location := m; display_height := h;
     trace := []; pending := acts; alive := {[ 1%nat ]}; spawned := 1; rng := 0 |}.

Definition with_button (b : string) (s : ClickSettings) : ClickSettings :=
  {| interval := interval s; randomize := randomize s;
     random_range := random_range s; button := b;
     click_type := click_type s; start_delay := start_delay s;
     run_duration := run_duration s; burst_count := burst_count s;
     hold_duration := hold_duration s; follow_cursor := follow_cursor s;
     fixed_position := fixed_position s |}.

Definition with_click_type (ct : string) (s : ClickSettings) : ClickSettings :=
  {| interval := interval s; randomize := randomize s;
     random_range := random_range s; button := button s;
     click_type := ct; start_delay := start_delay s;
     run_duration := run_duration s; burst_count := burst_count s;
     hold_duration := hold_duration s; follow_cursor := follow_cursor s;
     fixed_position := fixed_position s |}.

Definition with_start_delay (d : Q) (s : ClickSettings) : ClickSettings :=
  {| interval := interval s; randomize := randomize s;
     random_range := random_range s; button := button s;
     click_type := click_type s; start_delay := d;
     run_duration := run_duration s; burst_count := burst_count s;
     hold_duration := hold_duration s; follow_cursor := follow_cursor s;
     fixed_position := fixed_position s |}.

(** Two ticks at a fixed position, 0.1 s apart. *)
Definition fixed_form : Form :=
  {| interval_entry := "0.1"; random_range_entry := "0.0"; delay_entry := "0.0";
     duration_entry := "0.0"; burst_entry := "2"; hold_entry := "0.0";
     randomize_var := false; button_var := "left"; click_type_var := "single";
     follow_var := false |}.

(** No random draw is ever needed when jitter is off. *)
Definition no_random : nat -> Q := fun _ => 0.

(** Double clicks at a fixed position, held for 50 ms, at most two
    ticks. *)
Definition held_settings : ClickSettings :=
  {| interval := 0.1; randomize := false; random_range := 0;
     button := "right"; click_type := "double";
     start_delay := 0; run_duration := 0; burst_count := 2%Z;
     hold_duration := 0.05; follow_cursor := false;
     fixed_position := (3%Z, 4%Z) |}.

(** A form full of values that are out of range. *)
Definition careless_form : Form :=
  {| interval_entry := "-5"; random_range_entry := "-1"; delay_entry := "-2";
     duration_entry := "-0.5"; burst_entry := "-3.7"; hold_entry := "-1";
     randomize_var := true; button_var := "middle"; click_type_var := "triple";
     follow_var := true |}.

(** A form with nothing but the interval filled in. *)
Definition sparse_form : Form :=
  {| interval_entry := "0.25"; random_range_entry := ""; delay_entry := "";
     duration_entry := ""; burst_entry := ""; hold_entry := "";
     randomize_var := false; button_var := "left"; click_type_var := "single";
     follow_var := true |}.

(** A form with a word in the burst field. *)
Definition misspelt_form : Form :=
  {| interval_entry := "0.1"; random_range_entry := "0.0"; delay_entry := "0.0";
     duration_entry := "0.0"; burst_entry := "ten"; hold_entry := "0.0";
     randomize_var := false; button_var := "left"; click_type_var := "single";
     follow_var := true |}.

(** One left click after a start delay of 5 s. *)
Definition delayed_form : Form :=
  {| interval_entry := "0.1"; random_range_entry := "0.0"; delay_entry := "5";
     duration_entry := "0.0"; burst_entry := "1"; hold_entry := "0.0";
     randomize_var := false; button_var := "left"; click_type_var := "single";
     follow_var := true |}.

(** Three right clicks, 2 s apart, with no start delay. *)
Definition slow_form : Form :=
  {| interval_entry := "2"; random_range_entry := "0.0"; delay_entry := "0.0";
     duration_entry := "0.0"; burst_entry := "3"; hold_entry := "0.0";
     randomize_var := false; button_var := "right"; click_type_var := "single";
     follow_var := true |}.

(** Start with [delayed_form], Stop during the start delay, then Start
    again with [slow_form]. *)
Definition restart : Threads.Machine :=
  {| Threads.world := fresh_world delayed_form (10, 20) 100 [];
     Threads.parked := [];
     Threads.script :=
       [ (0, Threads.PressStart);
         (1, Threads.Ui PressStop);
         (2.5, Threads.Ui (EditForm slow_form));
         (3.0005, Threads.PressStart) ] |}.

Definition small_dictionary : gset string :=
  {[ "a"; "ab"; "ba"; "cab"; "b"; "abba" ]}.

(** A stand-in for the platform hook, after pynput's chord parser: the
    chord is a [+]-separated list of distinct keys, each a single
    character or a known key name in angle brackets. *)
Definition known_keys : list string :=
  [ "alt"; "backspace"; "caps_lock"; "cmd"; "ctrl"; "delete"; "down"; "end";
    "enter"; "esc"; "f1"; "f2"; "f3"; "f4"; "f5"; "f6"; "f7"; "f8"; "f9";
    "f10"; "f11"; "f12"; "home"; "left"; "page_down"; "page_up"; "right";
    "shift"; "space"; "tab"; "up" ].

Definition key_ok (k : string) : bool :=
  if (String.length k =? 1)%nat then true
  else existsb (fun n => String.eqb k ("<" ++ n ++ ">")) known_keys.

Fixpoint distinct (ks : list string) : bool :=
  match ks with
  | [] => true
  | k :: ks' => negb (existsb (String.eqb k) ks') && distinct ks'
  end.

Definition hook_accepts (chord : string) : bool :=
  let ks := PyStr.split "+" chord in
  forallb key_ok ks && distinct ks.

End Sample.


(** * Properties *)

(** ** Float comparisons *)

Module PyNumFacts.

Import PyNum.
Open Scope Q_scope.

Lemma ltb_lt a b : ltb a b = true <-> a < b.
Proof.
  unfold ltb. rewrite negb_true_iff, <- not_true_iff_false, Qle_bool_iff.
  split; [apply Qnot_le_lt | apply Qlt_not_le].
Qed.

Lemma ltb_ge a b : ltb a b = false <-> b <= a.
Proof.
  unfold ltb. rewrite negb_false_iff. apply Qle_bool_iff.
Qed.

Lemma leb_le a b : leb a b = true <-> a <= b.
Proof. apply Qle_bool_iff. Qed.

Lemma leb_gt a b : leb a b = false <-> b < a.
Proof.
  unfold leb. rewrite <- not_true_iff_false, Qle_bool_iff.
  split; [apply Qnot_le_lt | apply Qlt_not_le].
Qed.

Lemma max_ge_l a b : a <= max a b.
Proof.
  unfold max. destruct (ltb a b) eqn:E; [apply ltb_lt in E; lra | lra].
Qed.

Lemma max_ge_r a b : b <= max a b.
Proof.
  unfold max. destruct (ltb a b) eqn:E; [lra | apply ltb_ge in E; lra].
Qed.

End PyNumFacts.

(** ** Hotkey rebinding *)

Section HotkeyFacts.

Import Hotkeys.

Variable hook : string -> bool.

Lemma format_combo_error combo e :
  _format_combo hook combo = inl e -> exists msg, e = HotkeyError msg.
Proof.
  unfold _format_combo.
  destruct (combo_parts combo); [intros [= <-]; eauto |].
  destruct (hook _); [discriminate | intros [= <-]; eauto].
Qed.

Lemma build_bindings_error pairs acc :
  Exists (fun p => exists e, _format_combo hook (fst p) = inl e) pairs ->
  exists msg, build_bindings hook pairs acc = inl (HotkeyError msg).
Proof.
  revert acc. induction pairs as [| [combo action] rest IH]; intros acc Hex.
  - inversion Hex.
  - simpl. destruct (_format_combo hook combo) as [e | formatted] eqn:E.
    + destruct (format_combo_error _ _ E) as [msg ->]. eauto.
    + apply IH. inversion Hex as [? ? [e He] | ? ? Hrest]; subst; [| exact Hrest].
      simpl in He. congruence.
Qed.

Lemma build_bindings_ok a b c fa fb fc :
  _format_combo hook a = inr fa ->
  _format_combo hook b = inr fb ->
  _format_combo hook c = inr fc ->
  build_bindings hook [(a, start_action); (b, stop_action); (c, toggle_action)] ∅
  = inr (<[fc := toggle_action]> (<[fb := stop_action]> (<[fa := start_action]> ∅))).
Proof. intros Ha Hb Hc. simpl. rewrite Ha, Hb, Hc. reflexivity. Qed.

(** C6. If any one of the three chords fails to parse, [update] raises
    [HotkeyError] and leaves the manager exactly as it was: neither
    [current_bindings] nor the listener is touched. *)
Theorem update_all_or_nothing start_combo stop_combo toggle_combo hm :
  (exists e, _format_combo hook start_combo = inl e) \/
  (exists e, _format_combo hook stop_combo = inl e) \/
  (exists e, _format_combo hook toggle_combo = inl e) ->
  exists msg,
    update hook start_combo stop_combo toggle_combo hm = Raise (HotkeyError msg) hm.
Proof.
  intros H. unfold update.
  destruct (build_bindings_error
              [(start_combo, start_action); (stop_combo, stop_action);
               (toggle_combo, toggle_action)] ∅) as [msg ->]; [| eauto].
  destruct H as [H | [H | H]].
  - apply Exists_cons_hd. exact H.
  - apply Exists_cons_tl, Exists_cons_hd. exact H.
  - apply Exists_cons_tl, Exists_cons_tl, Exists_cons_hd. exact H.
Qed.

(** C3, as the code has it. When the three chords parse and two of them
    normalise to the same key, [update] succeeds: the new set replaces the
    old one, the listener is rebuilt from it, and under a shared key the
    role assigned last (start, then stop, then toggle) is the one kept, so
    fewer than three bindings are installed. *)
Theorem update_duplicate_shadows start_combo stop_combo toggle_combo hm fa fb fc :
  _format_combo hook start_combo = inr fa ->
  _format_combo hook stop_combo = inr fb ->
  _format_combo hook toggle_combo = inr fc ->
  fa = fb \/ fa = fc \/ fb = fc ->
  exists hm',
    update hook start_combo stop_combo toggle_combo hm = Return tt hm' /\
    listener hm' = Some (current_bindings hm') /\
    current_bindings hm' !! fc = Some toggle_action /\
    current_bindings hm' !! fb
      = Some (if decide (fb = fc) then toggle_action else stop_action) /\
    current_bindings hm' !! fa
      = Some (if decide (fa = fc) then toggle_action
              else if decide (fa = fb) then stop_action else start_action) /\
    (size (current_bindings hm') < 3)%nat.
Proof.
  intros Ha Hb Hc Hdup. unfold update.
  rewrite (build_bindings_ok _ _ _ _ _ _ Ha Hb Hc).
  eexists. split; [reflexivity |]. simpl.
  split; [reflexivity |].
  split; [apply lookup_insert_eq |].
  split.
  { destruct (decide (fb = fc)) as [-> | Hne].
    - apply lookup_insert_eq.
    - rewrite lookup_insert_ne by congruence. apply lookup_insert_eq. }
  split.
  { destruct (decide (fa = fc)) as [-> | Hne].
    - apply lookup_insert_eq.
    - rewrite lookup_insert_ne by congruence.
      destruct (decide (fa = fb)) as [-> | Hne'].
      + apply lookup_insert_eq.
      + rewrite lookup_insert_ne by congruence. apply lookup_insert_eq. }
  assert (Hsz : forall (k1 k2 : string) (x y : Action) (m : gmap string Action),
             (size (<[k2 := y]> (<[k1 := x]> m)) <= S (S (size m)))%nat).
  { intros k1 k2 x y m.
    pose proof (map_size_insert k2 y (<[k1 := x]> m)) as H2.
    pose proof (map_size_insert k1 x m) as H1.
    destruct (<[k1:=x]> m !! k2), (m !! k1); unfold id in *; lia. }
  destruct Hdup as [-> | [-> | ->]].
  - rewrite insert_insert_eq.
    pose proof (Hsz fb fc stop_action toggle_action ∅) as H.
    rewrite map_size_empty in H. lia.
  - destruct (decide (fb = fc)) as [-> | Hne].
    + rewrite insert_insert_eq.
      pose proof (Hsz fc fc start_action toggle_action ∅) as H.
      rewrite map_size_empty in H. lia.
    + rewrite (insert_insert_ne _ fc fb) by congruence.
      rewrite insert_insert_eq.
      pose proof (Hsz fc fb toggle_action stop_action ∅) as H.
      rewrite map_size_empty in H. lia.
  - rewrite insert_insert_eq.
    pose proof (Hsz fa fc start_action toggle_action ∅) as H.
    rewrite map_size_empty in H. lia.
Qed.

(** When the three chords parse to three different keys, [update]
    installs exactly these three bindings, each with its own role, in
    place of whatever was bound before, and the listener runs on them. *)
Theorem update_installs start_combo stop_combo toggle_combo hm fa fb fc :
  _format_combo hook start_combo = inr fa ->
  _format_combo hook stop_combo = inr fb ->
  _format_combo hook toggle_combo = inr fc ->
  fa <> fb -> fa <> fc -> fb <> fc ->
  exists hm',
    update hook start_combo stop_combo toggle_combo hm = Return tt hm' /\
    listener hm' = Some (current_bindings hm') /\
    current_bindings hm' !! fa = Some start_action /\
    current_bindings hm' !! fb = Some stop_action /\
    current_bindings hm' !! fc = Some toggle_action /\
    (forall k, k <> fa -> k <> fb -> k <> fc -> current_bindings hm' !! k = None) /\
    size (current_bindings hm') = 3%nat.
Proof.
  intros Ha Hb Hc Hab Hac Hbc. unfold update.
  rewrite (build_bindings_ok _ _ _ _ _ _ Ha Hb Hc).
  eexists. split; [reflexivity |]. simpl.
  split; [reflexivity |].
  split; [rewrite !lookup_insert_ne by congruence; apply lookup_insert_eq |].
  split; [rewrite lookup_insert_ne by congruence; apply lookup_insert_eq |].
  split; [apply lookup_insert_eq |].
  split.
  - intros k H1 H2 H3. rewrite !lookup_insert_ne by congruence. apply lookup_empty.
  - rewrite !map_size_insert_None, map_size_empty; [reflexivity | ..].
    + apply lookup_empty.
    + rewrite lookup_insert_ne by congruence. apply lookup_empty.
    + rewrite !lookup_insert_ne by congruence. apply lookup_empty.
Qed.

(** [shutdown] leaves no listener and can be repeated. *)
Theorem shutdown_idempotent hm :
  listener (shutdown hm) = None /\
  shutdown (shutdown hm) = shutdown hm /\
  current_bindings (shutdown hm) = current_bindings hm.
Proof. repeat split. Qed.

End HotkeyFacts.

Lemma update_all_or_nothing_witness :
  exists msg,
    Hotkeys.update Sample.hook_accepts "cmd+alt+s" " + " "f5+f5" (Hotkeys.init)
    = Raise (HotkeyError msg) Hotkeys.init.
Proof.
  apply (update_all_or_nothing Sample.hook_accepts).
  right; left. eexists. vm_compute. reflexivity.
Defined.

Lemma update_duplicate_shadows_witness :
  exists hm',
    Hotkeys.update Sample.hook_accepts "a" "A" "b" Hotkeys.init = Return tt hm' /\
    Hotkeys.listener hm' = Some (Hotkeys.current_bindings hm') /\
    Hotkeys.current_bindings hm' !! "b" = Some Hotkeys.toggle_action /\
    Hotkeys.current_bindings hm' !! "a"
      = Some (if decide ("a" = "b") then Hotkeys.toggle_action else Hotkeys.stop_action) /\
    Hotkeys.current_bindings hm' !! "a"
      = Some (if decide ("a" = "b") then Hotkeys.toggle_action
              else if decide ("a" = "a") then Hotkeys.stop_action
                   else Hotkeys.start_action) /\
    (size (Hotkeys.current_bindings hm') < 3)%nat.
Proof.
  apply (update_duplicate_shadows Sample.hook_accepts "a" "A" "b" Hotkeys.init "a" "a" "b");
    [vm_compute; reflexivity .. | left; reflexivity].
Defined.

(** C3 as the specification states it fails: [Configure("a", "a", "b")] is
    not rejected; it returns normally, the start binding is gone and the
    previous bindings are no longer installed. *)
Lemma update_duplicate_not_rejected :
  ~ (exists msg,
        Hotkeys.update Sample.hook_accepts "a" "a" "b" Hotkeys.init
        = Raise (HotkeyError msg) Hotkeys.init) /\
  (exists hm',
      Hotkeys.update Sample.hook_accepts "a" "a" "b" Hotkeys.init = Return tt hm' /\
      Hotkeys.current_bindings hm' <> Hotkeys.current_bindings Hotkeys.init /\
      Hotkeys.current_bindings hm' !! "a" = Some Hotkeys.stop_action /\
      map_to_list (Hotkeys.current_bindings hm')
      = [("a", Hotkeys.stop_action); ("b", Hotkeys.toggle_action)]).
Proof.
  split.
  - intros [msg H]. vm_compute in H. discriminate H.
  - eexists. split; [vm_compute; reflexivity |].
    split; [| split; vm_compute; reflexivity].
    intros H. apply (f_equal (fun m => m !! "a")) in H. vm_compute in H. discriminate H.
Qed.

(** ** Start, stop and toggle *)

Section ControlFacts.

Import Clicker.

Variable provider : Provider.

Lemma stop_not_running w : is_running (stop w) = false.
Proof.
  unfold stop. destruct (is_running w) eqn:E; simpl; [| exact E].
  destruct (_thread (clicker w)) as [t |]; simpl; [| reflexivity].
  destruct (bool_decide _); reflexivity.
Qed.

Lemma start_running w l st :
  is_running w = false ->
  provider (store w) = (inr l, st) ->
  is_running (fst (start provider w)) = true.
Proof.
  intros Hidle Hp. unfold start. rewrite Hidle. simpl. rewrite Hp. simpl.
  destruct (_start_callback (clicker w)); reflexivity.
Qed.

(** C2. When [start] is called on an idle scheduler and the settings
    provider raises, [start] returns with the scheduler idle, no thread
    started or recorded, and no callback invoked; only the provider's own
    effects on its store remain. *)
Theorem start_provider_failure_rolls_back w e st :
  is_running w = false ->
  provider (store w) = (inl e, st) ->
  is_running (fst (start provider w)) = false /\
  snd (start provider w) = None /\
  _thread (clicker (fst (start provider w))) = _thread (clicker w) /\
  alive (fst (start provider w)) = alive w /\
  spawned (fst (start provider w)) = spawned w /\
  trace (fst (start provider w)) = trace w /\
  store (fst (start provider w)) = st.
Proof.
  intros Hidle Hp. unfold start. rewrite Hidle. simpl. rewrite Hp. simpl.
  repeat split; reflexivity.
Qed.

Lemma stop_store w : store (stop w) = store w.
Proof.
  unfold stop. destruct (is_running w); simpl; [| reflexivity].
  destruct (_thread (clicker w)) as [t |]; simpl; [| reflexivity].
  destruct (bool_decide _); reflexivity.
Qed.

(** C8. [toggle] is [stop] on a running scheduler and [start] on an idle
    one. When the provider succeeds on the store at hand, the first
    [toggle] flips the running flag and the second flips it back, so a
    running scheduler is never idle after both. *)
Theorem toggle_twice_restores w l st :
  provider (store w) = (inr l, st) ->
  (is_running w = true -> toggle provider w = (stop w, None)) /\
  (is_running w = false -> toggle provider w = start provider w) /\
  is_running (fst (toggle provider w)) = negb (is_running w) /\
  is_running (fst (toggle provider (fst (toggle provider w)))) = is_running w /\
  (is_running w = true ->
   ~ (is_running (fst (toggle provider w)) = false /\
      is_running (fst (toggle provider (fst (toggle provider w)))) = false)).
Proof.
  intros Hp.
  assert (Hfirst : is_running (fst (toggle provider w)) = negb (is_running w)).
  { unfold toggle. destruct (is_running w) eqn:E; simpl.
    - apply stop_not_running.
    - eapply start_running; eauto. }
  assert (Htwice : is_running (fst (toggle provider (fst (toggle provider w))))
                   = is_running w).
  { unfold toggle at 1. rewrite Hfirst.
    destruct (is_running w) eqn:E; simpl.
    - unfold toggle. rewrite E. simpl.
      eapply start_running; [apply stop_not_running | rewrite stop_store; eauto].
    - apply stop_not_running. }
  split; [intros E; unfold toggle; rewrite E; reflexivity |].
  split; [intros E; unfold toggle; rewrite E; reflexivity |].
  split; [exact Hfirst |].
  split; [exact Htwice |].
  intros Hrun [_ H2]. rewrite Htwice in H2. congruence.
Qed.

(** [stop] leaves the scheduler idle at once; on a running scheduler it
    sets the stop event, on an idle one it does nothing at all. *)
Theorem stop_makes_idle w :
  is_running (stop w) = false /\
  (is_running w = true -> stop_event_is_set (stop w) = true) /\
  (is_running w = false -> stop w = w).
Proof.
  split; [apply stop_not_running |]. unfold stop. split; intros E; rewrite E; simpl.
  - destruct (_thread (clicker w)) as [t |]; simpl; [| reflexivity].
    destruct (bool_decide _); reflexivity.
  - reflexivity.
Qed.

End ControlFacts.

Lemma start_provider_failure_rolls_back_witness :
  let bad := Sample.burst_form "three" in
  let w := Sample.fresh_world bad (10, 20)%Q 100%Q [] in
  let w' := fst (Clicker.start (Clicker._collect_settings Sample.parse_decimal) w) in
  Clicker.is_running w' = false /\
  snd (Clicker.start (Clicker._collect_settings Sample.parse_decimal) w) = None /\
  Clicker._thread (Clicker.clicker w') = Clicker._thread (Clicker.clicker w) /\
  Clicker.alive w' = Clicker.alive w /\
  Clicker.spawned w' = Clicker.spawned w /\
  Clicker.trace w' = Clicker.trace w /\
  Clicker.store w' = Clicker.show_error "Invalid input" (Clicker.store w).
Proof.
  intros bad w w'.
  apply (start_provider_failure_rolls_back
           (Clicker._collect_settings Sample.parse_decimal) w
           (ValueError "could not convert string to float")).
  - reflexivity.
  - vm_compute. reflexivity.
Defined.

Lemma toggle_twice_restores_witness :
  let p := Clicker._collect_settings Sample.parse_decimal in
  let w := Sample.fresh_world Sample.default_form (10, 20)%Q 100%Q [] in
  Clicker.is_running (fst (Clicker.toggle p w)) = true /\
  Clicker.is_running (fst (Clicker.toggle p (fst (Clicker.toggle p w))))
  = Clicker.is_running w.
Proof.
  intros p w.
  assert (Hp : exists l st, p (Clicker.store w) = (inr l, st))
    by (do 2 eexists; vm_compute; reflexivity).
  destruct Hp as (l & st & Hp).
  destruct (toggle_twice_restores p w l st Hp) as (_ & _ & H1 & H2 & _).
  split; [exact H1 | exact H2].
Defined.

(** ** The wait between two ticks *)

Section IntervalFacts.

Import Clicker PyNumFacts.
Open Scope Q_scope.

Variable parse_float : string -> option Q.

Lemma read_form_interval f fixed s :
  read_form parse_float f fixed = Some s ->
  0.001 <= interval s /\ 0 <= random_range s.
Proof.
  unfold read_form. intros H.
  destruct (parse_float (interval_entry f)) as [i |]; [| discriminate]; simpl in H.
  destruct (float_or_zero parse_float (random_range_entry f)) as [r |];
    [| discriminate]; simpl in H.
  destruct (float_or_zero parse_float (delay_entry f)); [| discriminate]; simpl in H.
  destruct (float_or_zero parse_float (duration_entry f)); [| discriminate]; simpl in H.
  destruct (float_or_zero parse_float (burst_entry f)); [| discriminate]; simpl in H.
  destruct (float_or_zero parse_float (hold_entry f)); [| discriminate]; simpl in H.
  injection H as <-. simpl. split; apply max_ge_l.
Qed.

Lemma uniform_in_range r u :
  0 <= r -> 0 <= u <= 1 ->
  - r <= PyNum.uniform (- r) r u <= r.
Proof.
  intros Hr [Hu0 Hu1]. unfold PyNum.uniform.
  assert (H0 : 0 <= r * u) by (apply Qmult_le_0_compat; assumption).
  assert (H1 : 0 <= r * (1 - u)) by (apply Qmult_le_0_compat; lra).
  split; lra.
Qed.

(** C9, as the code has it. The settings a form yields have an interval
    of at least 1 ms. With jitter on, a tick waits
    [max(0.005, interval + offset)] for an offset drawn in
    [[-random_range, random_range]]: the floor of the jittered wait is 5
    ms, not the 1 ms of the capture. Without jitter the wait is the
    interval. Either way the wait is at least 1 ms. *)
Theorem tick_wait_floor f fixed s u :
  read_form parse_float f fixed = Some s ->
  0 <= u <= 1 ->
  0.001 <= interval s /\
  (randomize s = true -> 0 < random_range s ->
   let offset := PyNum.uniform (- random_range s) (random_range s) u in
   - random_range s <= offset <= random_range s /\
   tick_interval s u = PyNum.max 0.005 (interval s + offset) /\
   0.005 <= tick_interval s u) /\
  (randomize s = false \/ random_range s <= 0 -> tick_interval s u = interval s) /\
  0.001 <= tick_interval s u.
Proof.
  intros Hs Hu. destruct (read_form_interval _ _ _ Hs) as [Hi Hr].
  split; [exact Hi |].
  split.
  { intros Hrand Hpos offset. split; [apply uniform_in_range; assumption |].
    assert (E : tick_interval s u = PyNum.max 0.005 (interval s + offset)).
    { unfold tick_interval. rewrite Hrand.
      apply ltb_lt in Hpos. rewrite Hpos. reflexivity. }
    split; [exact E |]. rewrite E. apply max_ge_l. }
  split.
  { intros [Hoff | Hle]; unfold tick_interval.
    - rewrite Hoff. reflexivity.
    - apply ltb_ge in Hle. rewrite Hle, andb_false_r. reflexivity. }
  unfold tick_interval.
  destruct (randomize s && PyNum.ltb 0 (random_range s)); [| exact Hi].
  pose proof (max_ge_l 0.005 (interval s
     + PyNum.uniform (- random_range s) (random_range s) u)). lra.
Qed.

End IntervalFacts.

Lemma tick_wait_floor_witness :
  let s := Sample.jitter_settings in
  (0.001 <= Clicker.interval s)%Q /\
  (0.001 <= Clicker.tick_interval s 0.5)%Q.
Proof.
  intros s.
  assert (Hs : Clicker.read_form Sample.parse_decimal Sample.jitter_form (0%Z, 0%Z)
               = Some s) by (vm_compute; reflexivity).
  assert (Hu : (0 <= 0.5 <= 1)%Q) by (split; discriminate).
  destruct (tick_wait_floor Sample.parse_decimal Sample.jitter_form (0%Z, 0%Z) s 0.5
              Hs Hu) as (H1 & _ & _ & H4).
  split; [exact H1 | exact H4].
Defined.

(** C9 as the specification states it fails: with an interval of 1 ms, a
    jitter range of 2 ms and a draw in the middle of the range (offset 0),
    the wait is 5 ms, whereas re-clamping [interval + offset] to the 1 ms
    floor of the capture would give 1 ms. *)
Lemma jitter_floor_is_not_capture_floor :
  let s := Sample.jitter_settings in
  Clicker.read_form Sample.parse_decimal Sample.jitter_form (0%Z, 0%Z) = Some s /\
  (PyNum.uniform (- Clicker.random_range s) (Clicker.random_range s) 0.5 == 0)%Q /\
  (Clicker.tick_interval s 0.5 == 0.005)%Q /\
  ~ (Clicker.tick_interval s 0.5
     == PyNum.max 0.001
          (Clicker.interval s
           + PyNum.uniform (- Clicker.random_range s) (Clicker.random_range s) 0.5))%Q.
Proof.
  intros s. split; [vm_compute; reflexivity |].
  split; [vm_compute; reflexivity |].
  split; [vm_compute; reflexivity |].
  intros H. vm_compute in H. discriminate H.
Qed.

(** ** What one step of a run changes *)

Section StepFacts.

Import Clicker Observe PyNumFacts.
Open Scope Q_scope.

Lemma count_app p tr tr' : count p (tr ++ tr') = (count p tr + count p tr')%nat.
Proof. unfold count. rewrite List.filter_app, length_app. reflexivity. Qed.

Lemma same_config_refl s : same_config s s.
Proof. reflexivity. Qed.

Lemma same_config_trans s1 s2 s3 :
  same_config s1 s2 -> same_config s2 s3 -> same_config s1 s3.
Proof. unfold same_config. congruence. Qed.

Lemma same_config_assign p s : same_config s (set_fixed_position p s).
Proof. reflexivity. Qed.

Lemma same_config_fields s s' :
  same_config s s' ->
  interval s = interval s' /\ randomize s = randomize s' /\
  random_range s = random_range s' /\ button s = button s' /\
  click_type s = click_type s' /\ start_delay s = start_delay s' /\
  run_duration s = run_duration s' /\ burst_count s = burst_count s' /\
  hold_duration s = hold_duration s' /\ follow_cursor s = follow_cursor s'.
Proof.
  unfold same_config, set_fixed_position. intros H.
  injection H. intros. repeat split; assumption.
Qed.

Lemma Frame_refl w : Frame w w.
Proof. constructor; auto using same_config_refl. apply Qle_refl. Qed.

Lemma Frame_trans w1 w2 w3 : Frame w1 w2 -> Frame w2 w3 -> Frame w1 w3.
Proof.
  intros [Hn1 Hc1 Hb1 Hs1 He1 Ha1 Hp1] [Hn2 Hc2 Hb2 Hs2 He2 Ha2 Hp2].
  constructor.
  - eapply Qle_trans; eassumption.
  - intros l. eapply same_config_trans; [apply Hc1 | apply Hc2].
  - congruence.
  - congruence.
  - auto.
  - congruence.
  - congruence.
Qed.

Lemma stop_frame w : Frame w (stop w) /\ trace (stop w) = trace w /\
  now (stop w) = now w /\ pending (stop w) = pending w /\ rng (stop w) = rng w /\
  store (stop w) = store w /\ display_height (stop w) = display_height w.
Proof.
  unfold stop. destruct (is_running w) eqn:E; simpl.
  2: { split; [apply Frame_refl | repeat split; reflexivity]. }
  destruct (_thread (clicker w)) as [t |]; simpl;
    [destruct (bool_decide _) |];
    (split; [constructor; simpl; auto using same_config_refl; apply Qle_refl
            | repeat split; reflexivity]).
Qed.

Lemma deref_assign w l :
  same_config (deref w l) (deref (_capture_cursor w) l) /\
  (l <> settings (store w) -> deref (_capture_cursor w) l = deref w l).
Proof.
  unfold deref, deref_store, _capture_cursor. simpl.
  destruct (decide (settings (store w) = l)) as [<- | Hne].
  - split; [| congruence].
    rewrite list_lookup_alter_eq.
    destruct (heap (store w) !! settings (store w)); simpl;
      [apply same_config_assign | apply same_config_refl].
  - rewrite list_lookup_alter_ne by exact Hne.
    split; [apply same_config_refl | reflexivity].
Qed.

Lemma ui_step_frame a w :
  Frame w (ui_step a w) /\ trace (ui_step a w) = trace w /\
  now (ui_step a w) = now w /\ pending (ui_step a w) = pending w /\
  rng (ui_step a w) = rng w /\ display_height (ui_step a w) = display_height w.
Proof.
  destruct a; simpl.
  - pose proof (stop_frame w) as (F & ? & ? & ? & ? & ? & ?).
    split; [exact F | repeat split; assumption].
  - split; [| repeat split; reflexivity].
    constructor; simpl; auto; [apply Qle_refl |].
    intros l. apply deref_assign.
  - split; [| repeat split; reflexivity].
    constructor; simpl; auto using same_config_refl. apply Qle_refl.
  - split; [| repeat split; reflexivity].
    constructor; simpl; auto using same_config_refl. apply Qle_refl.
Qed.

Lemma ui_steps_frame (acts : list (Q * UiAction)) w :
  let w' := fold_left (fun w a => ui_step (snd a) w) acts w in
  Frame w w' /\ trace w' = trace w /\ now w' = now w /\ pending w' = pending w /\
  rng w' = rng w /\ display_height w' = display_height w.
Proof.
  revert w. induction acts as [| a acts IH]; intros w; simpl.
  - split; [apply Frame_refl | repeat split; reflexivity].
  - pose proof (ui_step_frame (snd a) w) as (F & ? & ? & ? & ? & ?).
    pose proof (IH (ui_step (snd a) w)) as (F' & ? & ? & ? & ? & ?).
    split; [eapply Frame_trans; eassumption |].
    repeat split; congruence.
Qed.

Lemma deliver_frame w :
  Frame w (deliver w) /\ trace (deliver w) = trace w /\
  now (deliver w) = now w /\ rng (deliver w) = rng w /\
  display_height (deliver w) = display_height w.
Proof.
  unfold deliver.
  match goal with |- context [fold_left ?f ?acts ?w0] =>
    pose proof (ui_steps_frame acts w0) as (F & Ht & Hn & _ & Hr & Hh) end.
  simpl in *. split; [| auto].
  eapply Frame_trans; [| exact F].
  constructor; simpl; auto using same_config_refl. apply Qle_refl.
Qed.

Lemma sleep_frame d w :
  0 <= d ->
  Frame w (sleep d w) /\ trace (sleep d w) = trace w /\
  now (sleep d w) == now w + d /\ rng (sleep d w) = rng w /\
  display_height (sleep d w) = display_height w.
Proof.
  intros Hd. unfold sleep.
  pose proof (deliver_frame (set_now (Qred (now w + d)) w)) as (F & Ht & Hn & Hr & Hh).
  simpl in *. split; [| repeat split; auto].
  - eapply Frame_trans; [| exact F].
    constructor; simpl; auto using same_config_refl.
    rewrite Qred_correct. lra.
  - rewrite Hn. apply Qred_correct.
Qed.

Lemma post_frame e w :
  is_stop_call e = false -> Frame w (post e w).
Proof.
  intros He. constructor; simpl; auto using same_config_refl; [apply Qle_refl |].
  unfold stop_calls. rewrite count_app. unfold count at 2. simpl. rewrite He.
  simpl. lia.
Qed.

End StepFacts.

(** ** The polling wait *)

Section WaitFacts.

Import Clicker Observe PyNumFacts.
Open Scope Q_scope.

Lemma wait_until_unfold fuel e w :
  wait_until fuel e w =
  if negb (stop_event_is_set w) && PyNum.ltb (now w) e then
    match fuel with
    | O => OutOfFuel
    | S fuel' => wait_until fuel' e (sleep 0.001 w)
    end
  else Return tt w.
Proof. destruct fuel; reflexivity. Qed.

(** A wait that returns left the loop for one of its two reasons, and
    changed nothing but the clock and what the UI thread did meanwhile. *)
Lemma wait_until_frame fuel e w w' :
  wait_until fuel e w = Return tt w' ->
  Frame w w' /\ trace w' = trace w /\ rng w' = rng w /\
  display_height w' = display_height w /\
  (stop_event_is_set w' = true \/ e <= now w').
Proof.
  revert w. induction fuel as [| fuel IH]; intros w; rewrite wait_until_unfold;
    destruct (negb (stop_event_is_set w) && PyNum.ltb (now w) e) eqn:C;
    try discriminate.
  - intros [= <-]. split; [apply Frame_refl |]. repeat split.
    apply andb_false_iff in C as [C | C].
    + left. apply negb_false_iff in C. exact C.
    + right. apply ltb_ge in C. exact C.
  - intros H. apply IH in H as (F & Ht & Hr & Hh & Hexit).
    pose proof (sleep_frame 0.001 w) as (F0 & Ht0 & _ & Hr0 & Hh0); [lra |].
    split; [eapply Frame_trans; eassumption |].
    repeat split; first [congruence | exact Hexit].
  - intros [= <-]. split; [apply Frame_refl |]. repeat split.
    apply andb_false_iff in C as [C | C].
    + left. apply negb_false_iff in C. exact C.
    + right. apply ltb_ge in C. exact C.
Qed.

Lemma wait_until_no_raise fuel e w ex w' :
  wait_until fuel e w <> Raise ex w'.
Proof.
  revert w. induction fuel as [| fuel IH]; intros w; rewrite wait_until_unfold;
    destruct (negb (stop_event_is_set w) && PyNum.ltb (now w) e);
    try discriminate. apply IH.
Qed.

Lemma wait_until_bounded (k : nat) e w :
  (e - now w) * 1000 <= inject_Z (Z.of_nat k) ->
  exists w', forall fuel, (k <= fuel)%nat -> wait_until fuel e w = Return tt w'.
Proof.
  revert w. induction k as [| k IH]; intros w Hk.
  - exists w. intros fuel _. rewrite wait_until_unfold.
    assert (C : PyNum.ltb (now w) e = false).
    { apply ltb_ge. change (inject_Z (Z.of_nat 0)) with 0 in Hk. lra. }
    rewrite C, andb_false_r. reflexivity.
  - destruct (negb (stop_event_is_set w) && PyNum.ltb (now w) e) eqn:C.
    + destruct (IH (sleep 0.001 w)) as [w' Hw'].
      { pose proof (sleep_frame 0.001 w) as (_ & _ & Hn & _); [lra |].
        rewrite Hn. rewrite Nat2Z.inj_succ, <- Z.add_1_r, inject_Z_plus in Hk.
        change (inject_Z 1) with 1 in Hk. lra. }
      exists w'. intros fuel Hf. destruct fuel as [| fuel]; [lia |].
      rewrite wait_until_unfold, C. apply Hw'. lia.
    + exists w. intros fuel _. rewrite wait_until_unfold, C. reflexivity.
Qed.

(** The polling wait always comes to an end: the clock moves by 1 ms per
    round, so the deadline is reached after finitely many. *)
Lemma wait_until_total e w :
  exists n w', forall fuel, (n <= fuel)%nat -> wait_until fuel e w = Return tt w'.
Proof.
  exists (Z.to_nat (Qceiling ((e - now w) * 1000))).
  apply wait_until_bounded.
  eapply Qle_trans; [apply Qle_ceiling |].
  rewrite <- Zle_Qle. lia.
Qed.

(** A set stop event ends the wait at once, whatever the deadline. *)
Lemma wait_until_stopped fuel e w :
  stop_event_is_set w = true -> wait_until fuel e w = Return tt w.
Proof. intros H. rewrite wait_until_unfold, H. reflexivity. Qed.

Lemma ui_step_quiet a w :
  a <> PressStop -> clicker (ui_step a w) = clicker w.
Proof. destruct a; simpl; congruence. Qed.

Lemma ui_steps_quiet (acts : list (Q * UiAction)) w :
  Forall (fun a => snd a <> PressStop) acts ->
  clicker (fold_left (fun w a => ui_step (snd a) w) acts w) = clicker w.
Proof.
  revert w. induction acts as [| a acts IH]; intros w Hq; simpl; [reflexivity |].
  inversion Hq; subst. rewrite IH by assumption. apply ui_step_quiet. assumption.
Qed.

Lemma Forall_filter_keep {A} (P : A -> Prop) (f : A -> bool) (xs : list A) :
  Forall P xs -> Forall P (List.filter f xs).
Proof.
  induction 1 as [| x xs Hx _ IH]; simpl; [constructor |].
  destruct (f x); [constructor |]; assumption.
Qed.

Lemma deliver_quiet w :
  quiet w -> quiet (deliver w) /\ clicker (deliver w) = clicker w.
Proof.
  unfold quiet, deliver. intros Hq.
  match goal with |- context [fold_left ?f ?acts ?w0] =>
    pose proof (ui_steps_frame acts w0) as (_ & _ & _ & Hp & _);
    pose proof (ui_steps_quiet acts w0) as Hc end.
  simpl in *. rewrite Hp. split.
  - apply Forall_filter_keep. exact Hq.
  - apply Hc. apply Forall_filter_keep. exact Hq.
Qed.

Lemma sleep_quiet d w :
  quiet w -> quiet (sleep d w) /\ clicker (sleep d w) = clicker w.
Proof.
  intros Hq. unfold sleep.
  apply (deliver_quiet (set_now (Qred (now w + d)) w)). exact Hq.
Qed.

Lemma wait_until_quiet fuel e w w' :
  quiet w -> wait_until fuel e w = Return tt w' ->
  quiet w' /\ clicker w' = clicker w.
Proof.
  revert w. induction fuel as [| fuel IH]; intros w Hq; rewrite wait_until_unfold;
    destruct (negb (stop_event_is_set w) && PyNum.ltb (now w) e);
    try discriminate; try (intros [= <-]; auto).
  intros H. destruct (sleep_quiet 0.001 w Hq) as [Hq' Hc'].
  apply IH in H as [? ?]; [| exact Hq']. split; [assumption | congruence].
Qed.

End WaitFacts.

(** ** One tick *)

Section TickFacts.

Import Clicker Observe PyNumFacts.
Open Scope list_scope.
Open Scope Q_scope.

Lemma button_map_lookup b :
  BUTTON_EVENT_MAP !! b =
  if decide (b = "left") then Some (kCGEventLeftMouseDown, kCGEventLeftMouseUp, 0%Z)
  else if decide (b = "right") then Some (kCGEventRightMouseDown, kCGEventRightMouseUp, 1%Z)
  else if decide (b = "middle") then Some (kCGEventOtherMouseDown, kCGEventOtherMouseUp, 2%Z)
  else None.
Proof.
  unfold BUTTON_EVENT_MAP. simpl.
  repeat (rewrite lookup_insert; repeat case_decide; subst; try congruence).
  apply lookup_empty.
Qed.

Lemma button_map_events b down_event up_event button_code :
  BUTTON_EVENT_MAP !! b = Some (down_event, up_event, button_code) ->
  is_down down_event = true /\ is_down up_event = false.
Proof.
  rewrite button_map_lookup. repeat case_decide; intros [= <- <- <-]; auto.
Qed.

Lemma click_multiplier_lookup ct :
  CLICK_MULTIPLIER !! ct =
  if decide (ct = "single") then Some 1%nat
  else if decide (ct = "double") then Some 2%nat
  else if decide (ct = "triple") then Some 3%nat
  else None.
Proof.
  unfold CLICK_MULTIPLIER. simpl.
  repeat (rewrite lookup_insert; repeat case_decide; subst; try congruence).
  apply lookup_empty.
Qed.

Lemma click_multiplier_positive ct :
  exists m, default 1%nat (CLICK_MULTIPLIER !! ct) = S m.
Proof.
  rewrite click_multiplier_lookup. repeat case_decide; simpl; eauto.
Qed.

Lemma click_loop_frame fuel l position down_event up_event button_code indices w w' :
  click_loop fuel l position down_event up_event button_code indices w = Return tt w' ->
  Frame w w' /\
  trace w' = trace w ++ occurrences position down_event up_event button_code indices /\
  rng w' = rng w /\ display_height w' = display_height w /\
  now w + 0.01 * inject_Z (Z.of_nat (length indices)) <= now w'.
Proof.
  revert w. induction indices as [| i rest IH]; intros w; simpl.
  - intros [= <-]. split; [apply Frame_refl |].
    rewrite app_nil_r. repeat split. change (inject_Z (Z.of_nat 0)) with 0. lra.
  - set (press := MouseEvent down_event position button_code (Z.of_nat i + 1)).
    set (release := MouseEvent up_event position button_code (Z.of_nat i + 1)).
    set (w1 := post press w).
    assert (F1 : Frame w w1) by (apply post_frame; reflexivity).
    destruct (PyNum.ltb 0 (hold_duration (deref w1 l))).
    + destruct (wait_until fuel _ w1) as [[] w2 | |] eqn:Hw; simpl; try discriminate.
      apply wait_until_frame in Hw as (F2 & Ht2 & Hr2 & Hh2 & _).
      intros H. apply IH in H as (F3 & Ht3 & Hr3 & Hh3 & Hn3).
      pose proof (sleep_frame 0.01 (post release w2)) as (F4 & Ht4 & Hn4 & Hr4 & Hh4);
        [lra |].
      assert (F5 : Frame w2 (post release w2)) by (apply post_frame; reflexivity).
      split; [exact (Frame_trans _ _ _ F1 (Frame_trans _ _ _ F2
                (Frame_trans _ _ _ F5 (Frame_trans _ _ _ F4 F3)))) |].
      split; [rewrite Ht3, Ht4; simpl; rewrite Ht2; simpl;
              rewrite <- !app_assoc; reflexivity |].
      split; [rewrite Hr3, Hr4; simpl; rewrite Hr2; reflexivity |].
      split; [rewrite Hh3, Hh4; simpl; rewrite Hh2; reflexivity |].
      rewrite Hn4 in Hn3. simpl in Hn3.
      pose proof (frame_now _ _ F2) as Hn2. simpl in Hn2.
      rewrite Nat2Z.inj_succ, <- Z.add_1_r, inject_Z_plus.
      change (inject_Z 1) with 1. lra.
    + simpl. intros H. apply IH in H as (F3 & Ht3 & Hr3 & Hh3 & Hn3).
      pose proof (sleep_frame 0.01 (post release w1)) as (F4 & Ht4 & Hn4 & Hr4 & Hh4);
        [lra |].
      assert (F5 : Frame w1 (post release w1)) by (apply post_frame; reflexivity).
      split; [exact (Frame_trans _ _ _ F1
                (Frame_trans _ _ _ F5 (Frame_trans _ _ _ F4 F3))) |].
      split; [rewrite Ht3, Ht4; simpl; rewrite <- !app_assoc; reflexivity |].
      split; [rewrite Hr3, Hr4; reflexivity |].
      split; [rewrite Hh3, Hh4; reflexivity |].
      rewrite Hn4 in Hn3. simpl in Hn3.
      rewrite Nat2Z.inj_succ, <- Z.add_1_r, inject_Z_plus.
      change (inject_Z 1) with 1. lra.
Qed.

Lemma click_loop_no_raise fuel l position down_event up_event button_code indices w ex w' :
  click_loop fuel l position down_event up_event button_code indices w <> Raise ex w'.
Proof.
  revert w. induction indices as [| i rest IH]; intros w; simpl; [discriminate |].
  destruct (PyNum.ltb 0 _).
  - destruct (wait_until fuel _ _) as [[] w2 | ex2 w2 |] eqn:Hw; simpl;
      [apply IH | | discriminate].
    exfalso. eapply wait_until_no_raise. exact Hw.
  - simpl. apply IH.
Qed.

Lemma click_loop_total l position down_event up_event button_code indices w :
  exists n w', forall fuel, (n <= fuel)%nat ->
    click_loop fuel l position down_event up_event button_code indices w = Return tt w'.
Proof.
  revert w. induction indices as [| i rest IH]; intros w.
  - exists 0%nat, w. reflexivity.
  - set (press := MouseEvent down_event position button_code (Z.of_nat i + 1)).
    set (release := MouseEvent up_event position button_code (Z.of_nat i + 1)).
    set (w1 := post press w).
    destruct (PyNum.ltb 0 (hold_duration (deref w1 l))) eqn:Hhold.
    + destruct (wait_until_total (now w1 + hold_duration (deref w1 l)) w1)
        as (n1 & w2 & H1).
      destruct (IH (sleep 0.01 (post release w2))) as (n2 & w' & H2).
      exists (Nat.max n1 n2), w'. intros fuel Hf. simpl.
      fold press. fold w1. rewrite Hhold, H1 by lia. simpl. apply H2. lia.
    + destruct (IH (sleep 0.01 (post release w1))) as (n2 & w' & H2).
      exists n2, w'. intros fuel Hf. simpl.
      fold press. fold w1. rewrite Hhold. simpl. apply H2. lia.
Qed.

Lemma click_loop_quiet fuel l position down_event up_event button_code indices w w' :
  quiet w ->
  click_loop fuel l position down_event up_event button_code indices w = Return tt w' ->
  quiet w' /\ clicker w' = clicker w.
Proof.
  revert w. induction indices as [| i rest IH]; intros w Hq; simpl.
  - intros [= <-]. auto.
  - destruct (PyNum.ltb 0 _).
    + destruct (wait_until fuel _ _) as [[] w2 | |] eqn:Hw; simpl; try discriminate.
      apply wait_until_quiet in Hw as [Hq2 Hc2]; [| exact Hq].
      intros H.
      destruct (sleep_quiet 0.01 (post (MouseEvent up_event position button_code
                                                   (Z.of_nat i + 1)) w2) Hq2)
        as [Hq3 Hc3].
      apply IH in H as [Hq4 Hc4]; [| exact Hq3].
      split; [exact Hq4 |]. rewrite Hc4, Hc3. simpl. rewrite Hc2. reflexivity.
    + simpl. intros H.
      destruct (sleep_quiet 0.01
                  (post (MouseEvent up_event position button_code (Z.of_nat i + 1))
                        (post (MouseEvent down_event position button_code
                                          (Z.of_nat i + 1)) w)) Hq)
        as [Hq3 Hc3].
      apply IH in H as [Hq4 Hc4]; [| exact Hq3].
      split; [exact Hq4 |]. rewrite Hc4, Hc3. reflexivity.
Qed.

Lemma ticks_later_occurrences position down_event up_event button_code indices :
  Forall (fun i => (1 <= i)%nat) indices ->
  ticks (occurrences position down_event up_event button_code indices) = 0%nat.
Proof.
  induction 1 as [| i rest Hi _ IH]; [reflexivity |].
  unfold ticks, occurrences in *. simpl.
  change (fun e => is_tick e) with is_tick in *.
  unfold count in *. simpl.
  assert (E : (Z.of_nat i + 1 =? 1)%Z = false) by (apply Z.eqb_neq; lia).
  rewrite E, !andb_false_r. exact IH.
Qed.

(** A tick of [S m] occurrences opens with exactly one press tagged 1. *)
Lemma ticks_one_tick position down_event up_event button_code m :
  is_down down_event = true -> is_down up_event = false ->
  ticks (occurrences position down_event up_event button_code (seq 0 (S m))) = 1%nat.
Proof.
  intros Hd Hu.
  pose proof (ticks_later_occurrences position down_event up_event button_code
                (seq 1 m)) as Hrest.
  unfold ticks, occurrences, count in *. simpl. rewrite Hd, Hu. simpl.
  rewrite Hrest; [reflexivity |].
  apply List.Forall_forall. intros i Hi. apply in_seq in Hi. lia.
Qed.

End TickFacts.

(** ** [_perform_click] *)

Section PerformClickFacts.

Import Clicker Observe PyNumFacts.
Open Scope list_scope.
Open Scope Q_scope.

Lemma perform_click_frame fuel position l w w' :
  _perform_click fuel position l w = Return tt w' ->
  Frame w w' /\
  (exists down_event up_event button_code m,
      BUTTON_EVENT_MAP !! button (deref w l) = Some (down_event, up_event, button_code) /\
      default 1%nat (CLICK_MULTIPLIER !! click_type (deref w l)) = S m /\
      trace w' = trace w ++ occurrences position down_event up_event button_code
                                        (seq 0 (S m))) /\
  ticks (trace w') = S (ticks (trace w)) /\
  rng w' = rng w /\ display_height w' = display_height w /\
  now w + 0.01 <= now w'.
Proof.
  unfold _perform_click.
  destruct (BUTTON_EVENT_MAP !! button (deref w l)) as [[[down_event up_event] code] |]
    eqn:Hb; [| discriminate].
  destruct (click_multiplier_positive (click_type (deref w l))) as [m Hm].
  rewrite Hm. intros H.
  apply click_loop_frame in H as (F & Ht & Hr & Hh & Hn).
  destruct (button_map_events _ _ _ _ Hb) as [Hd Hu].
  split; [exact F |].
  split; [exists down_event, up_event, code, m; auto |].
  split.
  { rewrite Ht. unfold ticks at 1. rewrite count_app.
    fold (ticks (trace w)).
    fold (ticks (occurrences position down_event up_event code (seq 0 (S m)))).
    rewrite ticks_one_tick by assumption. lia. }
  repeat split; try assumption.
  rewrite length_seq in Hn.
  assert (1 <= inject_Z (Z.of_nat (S m))).
  { change 1 with (inject_Z 1). rewrite <- Zle_Qle. lia. }
  lra.
Qed.

Lemma perform_click_raise fuel position l w ex w' :
  _perform_click fuel position l w = Raise ex w' ->
  BUTTON_EVENT_MAP !! button (deref w l) = None /\ w' = w /\
  ex = ValueError ("Unsupported button '" ++ button (deref w l) ++ "'")%string.
Proof.
  unfold _perform_click.
  destruct (BUTTON_EVENT_MAP !! button (deref w l)) as [[[down_event up_event] code] |].
  - intros H. exfalso. eapply click_loop_no_raise. exact H.
  - intros [= <- <-]. auto.
Qed.

Lemma perform_click_total position l w :
  is_Some (BUTTON_EVENT_MAP !! button (deref w l)) ->
  exists n w', forall fuel, (n <= fuel)%nat ->
    _perform_click fuel position l w = Return tt w'.
Proof.
  intros [[[down_event up_event] code] Hb]. unfold _perform_click. rewrite Hb.
  apply click_loop_total.
Qed.

Lemma perform_click_quiet fuel position l w w' :
  quiet w -> _perform_click fuel position l w = Return tt w' ->
  quiet w' /\ clicker w' = clicker w.
Proof.
  unfold _perform_click. intros Hq.
  destruct (BUTTON_EVENT_MAP !! button (deref w l)) as [[[down_event up_event] code] |];
    [| discriminate].
  apply click_loop_quiet. exact Hq.
Qed.

(** C10. [_perform_click] raises [ValueError], before any event is
    posted, when the button is none of left, right and middle. With a
    supported button and a click type that is none of single, double and
    triple it returns normally and performs exactly one occurrence: one
    press and one release, both tagged 1. *)
Theorem perform_click_guards position l w :
  (button (deref w l) <> "left" /\ button (deref w l) <> "right" /\
   button (deref w l) <> "middle" ->
   forall fuel, exists msg,
     _perform_click fuel position l w = Raise (ValueError msg) w) /\
  (button (deref w l) = "left" \/ button (deref w l) = "right" \/
   button (deref w l) = "middle" ->
   click_type (deref w l) <> "single" /\ click_type (deref w l) <> "double" /\
   click_type (deref w l) <> "triple" ->
   exists down_event up_event button_code n w',
     BUTTON_EVENT_MAP !! button (deref w l) = Some (down_event, up_event, button_code) /\
     (forall fuel, (n <= fuel)%nat ->
        _perform_click fuel position l w = Return tt w') /\
     trace w' = trace w ++ [ MouseEvent down_event position button_code 1;
                             MouseEvent up_event position button_code 1 ] /\
     presses (trace w') = S (presses (trace w))).
Proof.
  split.
  - intros (H1 & H2 & H3) fuel. unfold _perform_click.
    rewrite button_map_lookup. repeat case_decide; try congruence. eauto.
  - intros Hb (H1 & H2 & H3).
    assert (Hsome : is_Some (BUTTON_EVENT_MAP !! button (deref w l))).
    { rewrite button_map_lookup.
      destruct Hb as [-> | [-> | ->]]; repeat case_decide; try congruence; eauto. }
    destruct (perform_click_total position l w Hsome) as (n & w' & Hrun).
    pose proof (perform_click_frame n position l w w' (Hrun n (le_n n)))
      as (_ & (down_event & up_event & code & m & Hmap & Hm & Ht) & _).
    assert (m = 0%nat) as ->.
    { rewrite click_multiplier_lookup in Hm.
      repeat case_decide; try congruence. simpl in Hm. congruence. }
    exists down_event, up_event, code, n, w'.
    split; [exact Hmap |]. split; [exact Hrun |]. split; [exact Ht |].
    rewrite Ht. unfold presses at 1. rewrite count_app. fold (presses (trace w)).
    destruct (button_map_events _ _ _ _ Hmap) as [Hd Hu].
    unfold count. simpl. rewrite Hd, Hu. simpl. lia.
Qed.

End PerformClickFacts.

Lemma perform_click_guards_witness :
  (forall fuel, exists msg,
      Clicker._perform_click fuel (3%Z, 4%Z) 0%nat
        (Sample.running_world (Sample.with_button "side" Clicker.default_settings)
                              (0, 0)%Q 100%Q [])
      = Raise (ValueError msg)
          (Sample.running_world (Sample.with_button "side" Clicker.default_settings)
                                (0, 0)%Q 100%Q [])) /\
  (exists down_event up_event button_code n w',
      Clicker.BUTTON_EVENT_MAP !! "left" = Some (down_event, up_event, button_code) /\
      (forall fuel, (n <= fuel)%nat ->
         Clicker._perform_click fuel (3%Z, 4%Z) 0%nat
           (Sample.running_world
              (Sample.with_click_type "quadruple" Clicker.default_settings)
              (0, 0)%Q 100%Q [])
         = Return tt w') /\
      Clicker.trace w'
      = [ Clicker.MouseEvent down_event (3%Z, 4%Z) button_code 1;
          Clicker.MouseEvent up_event (3%Z, 4%Z) button_code 1 ] /\
      Observe.presses (Clicker.trace w') = 1%nat).
Proof.
  split.
  - apply (proj1 (perform_click_guards (3%Z, 4%Z) 0%nat
                    (Sample.running_world
                       (Sample.with_button "side" Clicker.default_settings)
                       (0, 0)%Q 100%Q []))).
    repeat split; discriminate.
  - apply (proj2 (perform_click_guards (3%Z, 4%Z) 0%nat
                    (Sample.running_world
                       (Sample.with_click_type "quadruple" Clicker.default_settings)
                       (0, 0)%Q 100%Q []))).
    + left. reflexivity.
    + repeat split; discriminate.
Defined.

(** ** Cancellation *)

Section CancelFacts.

Import Clicker Observe PyNumFacts.
Open Scope list_scope.
Open Scope Q_scope.

Lemma stop_sets_event w : armed w -> stop_event_is_set (stop w) = true.
Proof.
  unfold armed, stop. destruct (is_running w) eqn:E; simpl.
  - intros _. destruct (_thread (clicker w)) as [t |]; simpl; [| reflexivity].
    destruct (bool_decide _); reflexivity.
  - intros [H | H]; [exact H | discriminate].
Qed.

Lemma stop_armed w : armed w -> armed (stop w).
Proof. intros H. left. apply stop_sets_event. exact H. Qed.

Lemma ui_step_armed a w : armed w -> armed (ui_step a w).
Proof. destruct a; simpl; auto using stop_armed. Qed.

Lemma ui_steps_armed (acts : list (Q * UiAction)) w :
  armed w -> armed (fold_left (fun w a => ui_step (snd a) w) acts w).
Proof.
  revert w. induction acts as [| a acts IH]; intros w H; simpl; [exact H |].
  apply IH, ui_step_armed, H.
Qed.

Lemma ui_steps_stop (acts : list (Q * UiAction)) ts w :
  In (ts, PressStop) acts -> armed w ->
  stop_event_is_set (fold_left (fun w a => ui_step (snd a) w) acts w) = true.
Proof.
  revert w. induction acts as [| a acts IH]; intros w Hin Harm; simpl; [inversion Hin |].
  destruct Hin as [-> | Hin].
  - simpl. pose proof (ui_steps_frame acts (stop w)) as (F & _).
    apply (frame_stop_event _ _ F). apply stop_sets_event. exact Harm.
  - apply IH; [exact Hin | apply ui_step_armed, Harm].
Qed.

Lemma deliver_stop_served ts w : stop_pending ts w -> stop_served ts (deliver w).
Proof.
  intros Hp.
  pose proof (deliver_frame w) as (F & _ & Hn & _).
  destruct Hp as [Hset | [Hrun Hin]].
  { assert (stop_event_is_set (deliver w) = true)
      by (apply (frame_stop_event _ _ F); exact Hset).
    split; [left |]; auto. }
  unfold deliver in *.
  set (w0 := set_pending (List.filter (fun a => negb (due (now w) a)) (pending w)) w) in *.
  set (acts := List.filter (due (now w)) (pending w)) in *.
  assert (Harm : armed w0) by (right; exact Hrun).
  pose proof (ui_steps_armed acts w0 Harm) as Harm'.
  pose proof (ui_steps_frame acts w0) as (_ & _ & _ & Hpe & _).
  destruct (due (now w) (ts, PressStop)) eqn:Hdue.
  - assert (Hset : stop_event_is_set
                     (fold_left (fun w a => ui_step (snd a) w) acts w0) = true).
    { apply (ui_steps_stop acts ts); [| exact Harm].
      apply filter_In. split; assumption. }
    split; [left |]; auto.
  - split.
    + destruct Harm' as [Hset | Hrun']; [left; exact Hset | right].
      split; [exact Hrun' |]. rewrite Hpe. simpl.
      apply filter_In. split; [exact Hin |]. rewrite Hdue. reflexivity.
    + intros Hle. rewrite Hn in Hle. apply leb_le in Hle.
      unfold due in Hdue. simpl in Hdue. congruence.
Qed.

Lemma sleep_stop_served ts d w : stop_pending ts w -> stop_served ts (sleep d w).
Proof. intros Hp. unfold sleep. apply deliver_stop_served. exact Hp. Qed.

Lemma stop_pending_same ts w w' :
  clicker w' = clicker w -> pending w' = pending w ->
  stop_pending ts w -> stop_pending ts w'.
Proof.
  unfold stop_pending, stop_event_is_set, is_running. intros -> ->. auto.
Qed.

Lemma stop_served_same ts w w' :
  clicker w' = clicker w -> pending w' = pending w -> now w' = now w ->
  stop_served ts w -> stop_served ts w'.
Proof.
  intros Hc Hp Hn [H1 H2]. split; [eapply stop_pending_same; eauto |].
  unfold stop_event_is_set in *. rewrite Hc, Hn. exact H2.
Qed.

(** A polling wait entered with Stop pending either returns at once or
    returns in a world where a due press has been carried out. *)
Lemma wait_until_stop_served fuel e ts w w' :
  stop_pending ts w -> wait_until fuel e w = Return tt w' ->
  w' = w \/ stop_served ts w'.
Proof.
  revert w. induction fuel as [| fuel IH]; intros w Hp; rewrite wait_until_unfold;
    destruct (negb (stop_event_is_set w) && PyNum.ltb (now w) e);
    try discriminate; try (intros [= <-]; auto).
  intros H. pose proof (sleep_stop_served ts 0.001 w Hp) as Hs.
  apply IH in H as [-> | H]; [right; exact Hs | right; exact H | apply Hs].
Qed.



Lemma click_loop_stop_served fuel l position down_event up_event button_code
      indices ts w w' :
  stop_pending ts w -> (indices = [] -> stop_served ts w) ->
  click_loop fuel l position down_event up_event button_code indices w = Return tt w' ->
  stop_served ts w'.
Proof.
  revert w. induction indices as [| i rest IH]; intros w Hp Hs; simpl.
  - intros [= <-]. auto.
  - set (press := MouseEvent down_event position button_code (Z.of_nat i + 1)).
    set (release := MouseEvent up_event position button_code (Z.of_nat i + 1)).
    assert (Hp1 : stop_pending ts (post press w))
      by (eapply stop_pending_same; [| | exact Hp]; reflexivity).
    destruct (PyNum.ltb 0 _).
    + destruct (wait_until fuel _ _) as [[] w2 | |] eqn:Hw; simpl; try discriminate.
      assert (Hp2 : stop_pending ts w2).
      { apply (wait_until_stop_served _ _ ts) in Hw as [-> | [H _]]; assumption. }
      intros H. eapply IH; [| | exact H].
      * apply sleep_stop_served.
        eapply stop_pending_same; [| | exact Hp2]; reflexivity.
      * intros _. apply sleep_stop_served.
        eapply stop_pending_same; [| | exact Hp2]; reflexivity.
    + simpl. intros H. eapply IH; [| | exact H].
      * apply sleep_stop_served.
        eapply stop_pending_same; [| | exact Hp1]; reflexivity.
      * intros _. apply sleep_stop_served.
        eapply stop_pending_same; [| | exact Hp1]; reflexivity.
Qed.

Lemma perform_click_stop_served fuel position l ts w w' :
  stop_pending ts w -> _perform_click fuel position l w = Return tt w' ->
  stop_served ts w'.
Proof.
  unfold _perform_click. intros Hp.
  destruct (BUTTON_EVENT_MAP !! button (deref w l)) as [[[down_event up_event] code] |];
    [| discriminate].
  destruct (click_multiplier_positive (click_type (deref w l))) as [m ->].
  apply click_loop_stop_served; [exact Hp | discriminate].
Qed.

End CancelFacts.

(** ** The run loop *)

Section RunFacts.

Import Clicker Observe PyNumFacts.
Open Scope list_scope.
Open Scope Q_scope.

Variable random : nat -> Q.

#[local] Arguments next_interval : simpl never.
#[local] Arguments _get_target_position : simpl never.
#[local] Arguments _perform_click : simpl never.
#[local] Arguments wait_until : simpl never.

Lemma run_loop_unfold fuel l start_time clicks w :
  run_loop random fuel l start_time clicks w =
  if stop_event_is_set w then Return clicks w
  else
    match fuel with
    | O => OutOfFuel
    | S fuel' =>
        if PyNum.ltb 0 (run_duration (deref w l))
           && PyNum.leb (run_duration (deref w l)) (now w - start_time)
        then Return clicks w
        else
          let '(position, w) := _get_target_position l w in
          bind (_perform_click fuel' position l w)
               (fun _ w =>
                  let clicks := (clicks + 1)%Z in
                  if (0 <? burst_count (deref w l))%Z
                     && (burst_count (deref w l) <=? clicks)%Z
                  then Return clicks w
                  else
                    let '(interval, w) := next_interval random l w in
                    let end_time := now w + interval in
                    bind (wait_until fuel' end_time w)
                         (fun _ w => run_loop random fuel' l start_time clicks w))
    end.
Proof. destruct fuel; reflexivity. Qed.

Lemma target_position_frame l w :
  let w1 := snd (_get_target_position l w) in
  Frame w w1 /\ ticks (trace w1) = ticks (trace w) /\
  presses (trace w1) = presses (trace w) /\ now w1 = now w /\
  clicker w1 = clicker w /\ pending w1 = pending w.
Proof.
  unfold _get_target_position. destruct (follow_cursor (deref w l)); simpl.
  - split; [apply Frame_refl | repeat split].
  - split.
    + constructor; simpl; auto using same_config_refl; [apply Qle_refl |].
      unfold stop_calls. rewrite count_app. unfold count at 2. simpl. lia.
    + unfold ticks, presses. rewrite !count_app. unfold count. simpl.
      repeat split; lia.
Qed.

Lemma next_interval_frame l w :
  let w1 := snd (next_interval random l w) in
  Frame w w1 /\ trace w1 = trace w /\ now w1 = now w /\
  clicker w1 = clicker w /\ pending w1 = pending w.
Proof.
  unfold next_interval. simpl.
  destruct (randomize (deref w l) && PyNum.ltb 0 (random_range (deref w l))); simpl.
  - split; [| repeat split].
    constructor; simpl; auto using same_config_refl. apply Qle_refl.
  - split; [apply Frame_refl | repeat split].
Qed.

(** Whatever the UI thread does meanwhile, a loop that is left has
    respected the frame: in particular it has invoked no stop callback. *)
Lemma run_loop_frame fuel l start_time clicks w clicks' w' :
  run_loop random fuel l start_time clicks w = Return clicks' w' -> Frame w w'.
Proof.
  revert w clicks. induction fuel as [| fuel IH]; intros w clicks;
    rewrite run_loop_unfold; destruct (stop_event_is_set w);
    try discriminate; try (intros [= <- <-]; apply Frame_refl).
  destruct (PyNum.ltb 0 _ && PyNum.leb _ _); [intros [= <- <-]; apply Frame_refl |].
  pose proof (target_position_frame l w) as (F1 & _).
  destruct (_get_target_position l w) as [position w1]. cbn [snd] in F1.
  destruct (_perform_click fuel position l w1) as [[] w2 | |] eqn:Hclick;
    cbn [bind]; try discriminate.
  apply perform_click_frame in Hclick as (F2 & _).
  destruct ((0 <? _)%Z && (_ <=? _)%Z).
  { intros [= <- <-]. eapply Frame_trans; eassumption. }
  pose proof (next_interval_frame l w2) as (F3 & _).
  destruct (next_interval random l w2) as [iv w3]. cbn [snd] in F3.
  destruct (wait_until fuel _ w3) as [[] w4 | |] eqn:Hwait; cbn [bind];
    try discriminate.
  apply wait_until_frame in Hwait as (F4 & _).
  intros H. apply IH in H.
  exact (Frame_trans _ _ _ F1 (Frame_trans _ _ _ F2
           (Frame_trans _ _ _ F3 (Frame_trans _ _ _ F4 H)))).
Qed.

(** With no Stop waiting on the UI thread, a loop with a burst limit and
    no duration limit is left exactly when the counter reaches the limit,
    one tick per count. *)
Lemma run_loop_burst fuel l start_time s clicks w clicks' w' :
  quiet w -> stop_event_is_set w = false ->
  same_config s (deref w l) ->
  (0 < burst_count s)%Z -> run_duration s <= 0 ->
  (clicks < burst_count s)%Z ->
  run_loop random fuel l start_time clicks w = Return clicks' w' ->
  clicks' = burst_count s /\
  Z.of_nat (ticks (trace w')) = (Z.of_nat (ticks (trace w)) + (burst_count s - clicks))%Z /\
  quiet w' /\ clicker w' = clicker w.
Proof.
  intros Hq Hs Hcfg Hb Hd. revert w clicks Hq Hs Hcfg.
  induction fuel as [| fuel IH]; intros w clicks Hq Hs Hcfg Hc;
    rewrite run_loop_unfold, Hs; [discriminate |].
  destruct (same_config_fields _ _ Hcfg)
    as (_ & _ & _ & _ & _ & _ & Hdur & Hburst & _).
  assert (C : PyNum.ltb 0 (run_duration (deref w l)) = false).
  { apply ltb_ge. rewrite <- Hdur. exact Hd. }
  rewrite C. cbn [andb].
  pose proof (target_position_frame l w) as (F1 & Ht1 & _ & _ & Hc1 & Hp1).
  destruct (_get_target_position l w) as [position w1]. cbn [snd] in *.
  assert (Hq1 : quiet w1) by (unfold quiet; rewrite Hp1; exact Hq).
  destruct (_perform_click fuel position l w1) as [[] w2 | |] eqn:Hclick;
    cbn [bind]; try discriminate.
  pose proof (perform_click_quiet _ _ _ _ _ Hq1 Hclick) as [Hq2 Hc2].
  apply perform_click_frame in Hclick as (F2 & _ & Ht2 & _).
  pose proof (Frame_trans _ _ _ F1 F2) as F12.
  pose proof (same_config_trans _ _ _ Hcfg (frame_config _ _ F12 l)) as Hcfg2.
  destruct (same_config_fields _ _ Hcfg2)
    as (_ & _ & _ & _ & _ & _ & _ & Hburst2 & _).
  rewrite <- Hburst2.
  assert (Hpos : (0 <? burst_count s)%Z = true) by (apply Z.ltb_lt; exact Hb).
  rewrite Hpos. cbn [andb].
  destruct (burst_count s <=? clicks + 1)%Z eqn:Hreach.
  { intros [= <- <-]. apply Z.leb_le in Hreach.
    split; [lia |]. split; [rewrite Ht2, Ht1; lia |].
    split; [exact Hq2 | congruence]. }
  apply Z.leb_gt in Hreach.
  pose proof (next_interval_frame l w2) as (F3 & Ht3 & _ & Hc3 & Hp3).
  destruct (next_interval random l w2) as [iv w3]. cbn [snd] in *.
  assert (Hq3 : quiet w3) by (unfold quiet; rewrite Hp3; exact Hq2).
  destruct (wait_until fuel _ w3) as [[] w4 | |] eqn:Hwait; cbn [bind];
    try discriminate.
  pose proof (wait_until_quiet _ _ _ _ Hq3 Hwait) as [Hq4 Hc4].
  apply wait_until_frame in Hwait as (F4 & Ht4 & _).
  intros H. apply IH in H as (E & Ht & Hq' & Hc'); auto.
  - split; [exact E |]. split; [rewrite Ht, Ht4, Ht3, Ht2, Ht1; lia |].
    split; [exact Hq' | congruence].
  - unfold stop_event_is_set in *. congruence.
  - eapply same_config_trans; [exact Hcfg2 |].
    apply (frame_config _ _ (Frame_trans _ _ _ F3 F4)).
Qed.

(** With no Stop waiting on the UI thread and no burst limit, the loop
    is left only once the duration has run out. *)
Lemma run_loop_duration fuel l start_time s clicks w clicks' w' :
  quiet w -> stop_event_is_set w = false ->
  same_config s (deref w l) ->
  (burst_count s <= 0)%Z ->
  run_loop random fuel l start_time clicks w = Return clicks' w' ->
  0 < run_duration s /\ run_duration s <= now w' - start_time /\
  quiet w' /\ clicker w' = clicker w.
Proof.
  intros Hq Hs Hcfg Hb. revert w clicks Hq Hs Hcfg.
  induction fuel as [| fuel IH]; intros w clicks Hq Hs Hcfg;
    rewrite run_loop_unfold, Hs; [discriminate |].
  destruct (same_config_fields _ _ Hcfg)
    as (_ & _ & _ & _ & _ & _ & Hdur & Hburst & _).
  destruct (PyNum.ltb 0 (run_duration (deref w l))
            && PyNum.leb (run_duration (deref w l)) (now w - start_time)) eqn:C.
  { intros [= <- <-]. rewrite <- Hdur in C.
    apply andb_true_iff in C as [C1 C2]. apply ltb_lt in C1. apply leb_le in C2.
    auto. }
  pose proof (target_position_frame l w) as (F1 & _ & _ & _ & Hc1 & Hp1).
  destruct (_get_target_position l w) as [position w1]. cbn [snd] in *.
  assert (Hq1 : quiet w1) by (unfold quiet; rewrite Hp1; exact Hq).
  destruct (_perform_click fuel position l w1) as [[] w2 | |] eqn:Hclick;
    cbn [bind]; try discriminate.
  pose proof (perform_click_quiet _ _ _ _ _ Hq1 Hclick) as [Hq2 Hc2].
  apply perform_click_frame in Hclick as (F2 & _).
  pose proof (Frame_trans _ _ _ F1 F2) as F12.
  pose proof (same_config_trans _ _ _ Hcfg (frame_config _ _ F12 l)) as Hcfg2.
  destruct (same_config_fields _ _ Hcfg2)
    as (_ & _ & _ & _ & _ & _ & _ & Hburst2 & _).
  rewrite <- Hburst2.
  assert (Hpos : (0 <? burst_count s)%Z = false) by (apply Z.ltb_ge; exact Hb).
  rewrite Hpos. cbn [andb].
  pose proof (next_interval_frame l w2) as (F3 & _ & _ & Hc3 & Hp3).
  destruct (next_interval random l w2) as [iv w3]. cbn [snd] in *.
  assert (Hq3 : quiet w3) by (unfold quiet; rewrite Hp3; exact Hq2).
  destruct (wait_until fuel _ w3) as [[] w4 | |] eqn:Hwait; cbn [bind];
    try discriminate.
  pose proof (wait_until_quiet _ _ _ _ Hq3 Hwait) as [Hq4 Hc4].
  apply wait_until_frame in Hwait as (F4 & _).
  intros H. apply IH in H as (Hd & Hn & Hq' & Hc'); auto.
  - repeat split; try assumption. congruence.
  - unfold stop_event_is_set in *. congruence.
  - eapply same_config_trans; [exact Hcfg2 |].
    apply (frame_config _ _ (Frame_trans _ _ _ F3 F4)).
Qed.

(** One round of the loop, entered with the stop event clear: either the
    loop is left in this round, or the round comes to its end and the loop
    goes on from a later world with one more click counted. *)
Lemma run_loop_step l start_time s clicks w :
  same_config s (deref w l) ->
  is_Some (BUTTON_EVENT_MAP !! button s) ->
  stop_event_is_set w = false ->
  (exists n clicks' w', forall fuel, (n <= fuel)%nat ->
      run_loop random fuel l start_time clicks w = Return clicks' w') \/
  (exists n w4,
      (forall fuel, (n <= fuel)%nat ->
         run_loop random (S fuel) l start_time clicks w
         = run_loop random fuel l start_time (clicks + 1) w4) /\
      Frame w w4 /\
      now w + 0.01 <= now w4 /\
      ~ ((0 < burst_count s)%Z /\ (burst_count s <= clicks + 1)%Z) /\
      ~ (0 < run_duration s /\ run_duration s <= now w - start_time) /\
      (forall ts, stop_pending ts w -> stop_served ts w4)).
Proof.
  intros Hcfg Hbtn Hs.
  destruct (same_config_fields _ _ Hcfg)
    as (_ & _ & _ & Hbutton & _ & _ & Hdur & Hburst & _).
  destruct (PyNum.ltb 0 (run_duration (deref w l))
            && PyNum.leb (run_duration (deref w l)) (now w - start_time)) eqn:C.
  { left. exists 1%nat, clicks, w. intros fuel Hf. destruct fuel as [| fuel]; [lia |].
    rewrite run_loop_unfold, Hs, C. reflexivity. }
  pose proof (target_position_frame l w) as (F1 & _ & _ & Hn1 & Hc1 & Hp1).
  destruct (_get_target_position l w) as [position w1] eqn:Hpos.
  cbn [snd] in F1, Hn1, Hc1, Hp1.
  pose proof (same_config_trans _ _ _ Hcfg (frame_config _ _ F1 l)) as Hcfg1.
  destruct (perform_click_total position l w1) as (n2 & w2 & Hclick).
  { destruct (same_config_fields _ _ Hcfg1) as (_ & _ & _ & <- & _). exact Hbtn. }
  pose proof (perform_click_frame _ _ _ _ _ (Hclick n2 (le_n n2)))
    as (F2 & _ & _ & _ & _ & Hn2).
  pose proof (same_config_trans _ _ _ Hcfg1 (frame_config _ _ F2 l)) as Hcfg2.
  destruct (same_config_fields _ _ Hcfg2)
    as (_ & _ & _ & _ & _ & _ & Hdur2 & Hburst2 & _).
  destruct ((0 <? burst_count (deref w2 l))%Z
            && (burst_count (deref w2 l) <=? clicks + 1)%Z) eqn:B.
  { left. exists (S n2), (clicks + 1)%Z, w2. intros fuel Hf.
    destruct fuel as [| fuel]; [lia |].
    rewrite run_loop_unfold, Hs, C, Hpos, Hclick by lia. cbn [bind]. rewrite B.
    reflexivity. }
  pose proof (next_interval_frame l w2) as (F3 & _ & Hn3 & Hc3 & Hp3).
  destruct (next_interval random l w2) as [iv w3] eqn:Hiv.
  cbn [snd] in F3, Hn3, Hc3, Hp3.
  destruct (wait_until_total (now w3 + iv) w3) as (n4 & w4 & Hwait).
  pose proof (wait_until_frame _ _ _ _ (Hwait n4 (le_n n4))) as (F4 & _).
  pose proof (frame_now _ _ F4) as Hn4.
  right. exists (Nat.max n2 n4), w4.
  split.
  { intros fuel Hf.
    rewrite run_loop_unfold, Hs, C, Hpos, Hclick by lia. cbn [bind]. rewrite B, Hiv.
    rewrite Hwait by lia. reflexivity. }
  split.
  { exact (Frame_trans _ _ _ F1 (Frame_trans _ _ _ F2 (Frame_trans _ _ _ F3 F4))). }
  split; [rewrite Hn1 in Hn2; rewrite Hn3 in Hn4; lra |].
  split.
  { rewrite <- Hburst2 in B. intros [H1 H2].
    apply andb_false_iff in B as [B | B];
      [apply Z.ltb_ge in B | apply Z.leb_gt in B]; lia. }
  split.
  { rewrite <- Hdur in C. intros [H1 H2].
    apply andb_false_iff in C as [C | C];
      [apply ltb_ge in C | apply leb_gt in C]; lra. }
  intros ts Hp.
  assert (Hs2 : stop_served ts w2).
  { apply (perform_click_stop_served n2 position l ts w1); [| apply Hclick; lia].
    eapply stop_pending_same; [exact Hc1 | exact Hp1 | exact Hp]. }
  assert (Hs3 : stop_served ts w3)
    by (eapply stop_served_same; [exact Hc3 | exact Hp3 | exact Hn3 | exact Hs2]).
  destruct (wait_until_stop_served _ _ ts _ _ (proj1 Hs3) (Hwait n4 (le_n n4)))
    as [-> | H]; assumption.
Qed.

(** The loop is left, also when the UI thread interferes, as soon as one
    of its three stopping conditions is bound to hold: a burst limit, a
    duration limit, or a press of Stop. [k] bounds the rounds to come. *)
Lemma run_loop_bounded (k : nat) l start_time s clicks w :
  same_config s (deref w l) ->
  is_Some (BUTTON_EVENT_MAP !! button s) ->
  ((0 < burst_count s)%Z /\ (burst_count s - clicks - 1 <= Z.of_nat k)%Z) \/
  (0 < run_duration s /\
   (run_duration s - (now w - start_time)) * 100 <= inject_Z (Z.of_nat k)) \/
  (exists ts, stop_pending ts w /\ (ts - now w) * 100 <= inject_Z (Z.of_nat k)) ->
  exists n clicks' w', forall fuel, (n <= fuel)%nat ->
    run_loop random fuel l start_time clicks w = Return clicks' w'.
Proof.
  intros Hcfg Hbtn. revert w clicks Hcfg.
  induction k as [| k IH]; intros w clicks Hcfg Hlim.
  all: destruct (stop_event_is_set w) eqn:Hs;
    [exists 0%nat, clicks, w; intros fuel _; rewrite run_loop_unfold, Hs; reflexivity |].
  all: destruct (run_loop_step l start_time s clicks w Hcfg Hbtn Hs)
    as [Hdone | (n & w4 & Hstep & F & Hn & Hnb & Hnd & Hserve)]; [exact Hdone |].
  - (* no round is left: the press of Stop has been served by now *)
    change (inject_Z (Z.of_nat 0)) with 0 in Hlim.
    destruct Hlim as [[Hb Hk] | [[Hd Hk] | (ts & Hp & Hk)]].
    + exfalso. apply Hnb. split; lia.
    + exfalso. apply Hnd. split; lra.
    + destruct (Hserve ts Hp) as [_ Hset].
      assert (Hs4 : stop_event_is_set w4 = true) by (apply Hset; lra).
      exists (S n), (clicks + 1)%Z, w4. intros fuel Hf.
      destruct fuel as [| fuel]; [lia |].
      rewrite Hstep by lia. rewrite run_loop_unfold, Hs4. reflexivity.
  - destruct (IH w4 (clicks + 1)%Z) as (n5 & clicks' & w' & Hrec).
    { eapply same_config_trans; [exact Hcfg | apply (frame_config _ _ F)]. }
    { rewrite Nat2Z.inj_succ, <- Z.add_1_r, inject_Z_plus in Hlim.
      change (inject_Z 1) with 1 in Hlim.
      destruct Hlim as [[Hb Hk] | [[Hd Hk] | (ts & Hp & Hk)]].
      - left. lia.
      - right; left. split; [exact Hd | lra].
      - right; right. exists ts. split; [apply (Hserve ts Hp) | lra]. }
    exists (S (Nat.max n n5)), clicks', w'. intros fuel Hf.
    destruct fuel as [| fuel]; [lia |].
    rewrite Hstep by lia. apply Hrec. lia.
Qed.

End RunFacts.

(** ** A whole run *)

Section WholeRun.

Import Clicker Observe PyNumFacts.
Open Scope list_scope.
Open Scope Q_scope.

Variable random : nat -> Q.

#[local] Arguments run_loop : simpl never.
#[local] Arguments sleep : simpl never.

Lemma count_snoc p tr e :
  count p (tr ++ [e]) = (count p tr + (if p e then 1 else 0))%nat.
Proof. rewrite count_app. unfold count at 2. simpl. destruct (p e); reflexivity. Qed.

Lemma start_spawns provider w l st :
  is_running w = false ->
  provider (store w) = (inr l, st) ->
  exists w1,
    start provider w = (w1, Some {| tid := S (spawned w); args := l |}) /\
    is_running w1 = true /\ stop_event_is_set w1 = false /\
    store w1 = st /\ pending w1 = pending w /\ now w1 = now w /\
    _stop_callback (clicker w1) = _stop_callback (clicker w) /\
    ticks (trace w1) = ticks (trace w) /\
    presses (trace w1) = presses (trace w) /\
    stop_calls (trace w1) = stop_calls (trace w) /\
    start_calls (trace w1)
    = (start_calls (trace w)
       + match _start_callback (clicker w) with Some _ => 1 | None => 0 end)%nat.
Proof.
  intros Hidle Hp. unfold start. rewrite Hidle. simpl. rewrite Hp. simpl.
  destruct (_start_callback (clicker w)) as [cb |]; eexists; (split; [reflexivity |]);
    simpl; unfold ticks, presses, stop_calls, start_calls; rewrite ?count_snoc; simpl;
    repeat split; lia.
Qed.

Lemma start_delay_inert l w :
  let w0 := if PyNum.ltb 0 (start_delay (deref w l))
            then sleep (start_delay (deref w l)) w else w in
  Frame w w0 /\ trace w0 = trace w /\
  (quiet w -> quiet w0 /\ clicker w0 = clicker w).
Proof.
  destruct (PyNum.ltb 0 (start_delay (deref w l))) eqn:D; simpl.
  - apply ltb_lt in D.
    pose proof (sleep_frame (start_delay (deref w l)) w) as (F & Ht & Hn & _); [lra |].
    split; [exact F |]. split; [exact Ht |]. apply sleep_quiet.
  - split; [apply Frame_refl |]. split; [reflexivity |]. auto.
Qed.

Lemma finish_spec w :
  stop_event_is_set (finish w) = true /\ is_running (finish w) = false /\
  _thread (clicker (finish w)) = None /\
  trace (finish w)
  = trace w ++ match _stop_callback (clicker w) with
               | Some cb => [StopCallback cb]
               | None => []
               end /\
  alive (finish w) = alive w.
Proof.
  unfold finish. simpl. destruct (_stop_callback (clicker w)); simpl;
    rewrite ?app_nil_r; repeat split.
Qed.

Lemma ceiling_bound x : x <= inject_Z (Z.of_nat (Z.to_nat (Qceiling x))).
Proof.
  eapply Qle_trans; [apply Qle_ceiling |]. rewrite <- Zle_Qle. lia.
Qed.

(** A run comes to its end as soon as one of the three stopping
    conditions is bound to hold. *)
Lemma run_total t w :
  is_Some (BUTTON_EVENT_MAP !! button (deref w (args t))) ->
  (0 < burst_count (deref w (args t)))%Z \/
  0 < run_duration (deref w (args t)) \/
  (exists ts, stop_pending ts w) ->
  exists n w', forall fuel, (n <= fuel)%nat -> _run random fuel t w = Return tt w'.
Proof.
  intros Hbtn Hlim. unfold _run.
  pose proof (start_delay_inert (args t) w) as (F0 & _).
  assert (Hp0 : forall ts, stop_pending ts w ->
                stop_pending ts (if PyNum.ltb 0 (start_delay (deref w (args t)))
                                 then sleep (start_delay (deref w (args t))) w else w)).
  { intros ts Hp. destruct (PyNum.ltb 0 _); [apply sleep_stop_served |]; exact Hp. }
  set (w0 := if PyNum.ltb 0 (start_delay (deref w (args t)))
             then sleep (start_delay (deref w (args t))) w else w) in *.
  set (s := deref w (args t)) in *.
  assert (Hk : exists k : nat,
             ((0 < burst_count s)%Z /\ (burst_count s - 0 - 1 <= Z.of_nat k)%Z) \/
             (0 < run_duration s /\
              (run_duration s - (now w0 - now w0)) * 100 <= inject_Z (Z.of_nat k)) \/
             (exists ts, stop_pending ts w0 /\
                         (ts - now w0) * 100 <= inject_Z (Z.of_nat k))).
  { destruct Hlim as [Hb | [Hd | [ts Hp]]].
    - exists (Z.to_nat (burst_count s)). left. split; lia.
    - exists (Z.to_nat (Qceiling (run_duration s * 100))). right; left.
      split; [exact Hd |].
      pose proof (ceiling_bound (run_duration s * 100)). lra.
    - exists (Z.to_nat (Qceiling ((ts - now w0) * 100))). right; right.
      exists ts. split; [apply Hp0, Hp | apply ceiling_bound]. }
  destruct Hk as [k Hk].
  destruct (run_loop_bounded random k (args t) (now w0) s 0 w0
              (frame_config _ _ F0 (args t)) Hbtn Hk) as (n & c' & w2 & Hloop).
  exists n, (thread_exit t (finish w2)). intros fuel Hf.
  rewrite Hloop by exact Hf. reflexivity.
Qed.

(** C7. A run leaves its loop when the burst count is reached, when the
    duration has run out or when Stop is pressed, whichever comes first;
    and every run that leaves its loop ends with the stop event set and the
    scheduler idle, and has invoked the registered stop callback exactly
    once, as its last effect. The thread is gone afterwards. *)
Theorem run_exit_quiesces t w :
  (button (deref w (args t)) = "left"%string \/
   button (deref w (args t)) = "right"%string \/
   button (deref w (args t)) = "middle"%string ->
   (0 < burst_count (deref w (args t)))%Z \/
   0 < run_duration (deref w (args t)) \/
   (exists ts, stop_pending ts w) ->
   exists n w', forall fuel, (n <= fuel)%nat ->
     _run random fuel t w = Return tt w') /\
  (forall fuel w',
     _run random fuel t w = Return tt w' ->
     stop_event_is_set w' = true /\
     is_running w' = false /\
     (forall cb, _stop_callback (clicker w) = Some cb ->
        stop_calls (trace w') = S (stop_calls (trace w)) /\
        exists tr, trace w' = tr ++ [StopCallback cb]) /\
     (_stop_callback (clicker w) = None ->
        stop_calls (trace w') = stop_calls (trace w)) /\
     _thread (clicker w') = None /\
     tid t ∉ alive w').
Proof.
  split.
  { intros Hbtn Hlim. apply run_total; [| exact Hlim].
    rewrite button_map_lookup.
    destruct Hbtn as [-> | [-> | ->]]; repeat case_decide; try congruence; eauto. }
  intros fuel w'. unfold _run.
  pose proof (start_delay_inert (args t) w) as (F0 & _).
  set (w0 := if PyNum.ltb 0 (start_delay (deref w (args t)))
             then sleep (start_delay (deref w (args t))) w else w) in *.
  destruct (run_loop random fuel (args t) (now w0) 0 w0) as [c w2 | |] eqn:Hloop;
    try discriminate.
  intros [= <-].
  apply run_loop_frame in Hloop.
  pose proof (Frame_trans _ _ _ F0 Hloop) as F.
  pose proof (finish_spec w2) as (Hse & Hir & Hth & Htr & Hal).
  rewrite (frame_stop_callback _ _ F) in Htr.
  split; [exact Hse |]. split; [exact Hir |].
  split.
  { intros cb Hcb. rewrite Hcb in Htr. simpl. split.
    - pose proof (frame_stop_calls _ _ F) as Hsc.
      rewrite Htr. unfold stop_calls in *. rewrite count_snoc. simpl. lia.
    - eauto. }
  split.
  { intros Hcb. rewrite Hcb, app_nil_r in Htr. simpl. rewrite Htr.
    apply (frame_stop_calls _ _ F). }
  split; [exact Hth |].
  simpl. apply not_elem_of_difference. right. apply elem_of_singleton. reflexivity.
Qed.

(** Press Start on an idle scheduler, with no thread of an earlier run
    alive, whose provider yields settings with a burst count [N > 0], no
    duration limit and a supported button. If Stop is never pressed, the
    run thread comes to an end by itself after exactly [N] ticks, and
    leaves the scheduler idle with the stop event set and the stop
    callback invoked once. *)
Theorem burst_run_stops_itself provider w l st (N : Z) :
  is_running w = false ->
  alive w = ∅ ->
  quiet w ->
  provider (store w) = (inr l, st) ->
  burst_count (deref_store st l) = N ->
  (0 < N)%Z ->
  run_duration (deref_store st l) == 0 ->
  button (deref_store st l) = "left"%string \/
  button (deref_store st l) = "right"%string \/
  button (deref_store st l) = "middle"%string ->
  exists t w1 n w',
    start provider w = (w1, Some t) /\
    is_running w1 = true /\
    (forall fuel, (n <= fuel)%nat -> _run random fuel t w1 = Return tt w') /\
    Z.of_nat (ticks (trace w')) = (Z.of_nat (ticks (trace w)) + N)%Z /\
    is_running w' = false /\
    stop_event_is_set w' = true /\
    stop_calls (trace w')
    = (stop_calls (trace w)
       + match _stop_callback (clicker w) with Some _ => 1 | None => 0 end)%nat.
Proof.
  intros Hidle _ Hq Hp HN Hpos Hdur Hbtn.
  destruct (start_spawns provider w l st Hidle Hp)
    as (w1 & Hstart & Hrun1 & Hse1 & Hst1 & Hpe1 & _ & Hcb1 & Ht1 & _ & Hsc1 & _).
  set (t := {| tid := S (spawned w); args := l |}) in *.
  assert (Hq1 : quiet w1) by (unfold quiet; rewrite Hpe1; exact Hq).
  assert (Hd1 : deref w1 l = deref_store st l) by (unfold deref; rewrite Hst1; reflexivity).
  pose proof (start_delay_inert l w1) as (F0 & Htr0 & Hq0).
  destruct (Hq0 Hq1) as [Hq0' Hc0]. clear Hq0.
  set (w0 := if PyNum.ltb 0 (start_delay (deref w1 l))
             then sleep (start_delay (deref w1 l)) w1 else w1) in *.
  assert (Hcfg : same_config (deref_store st l) (deref w0 l)).
  { rewrite <- Hd1. apply (frame_config _ _ F0). }
  assert (Hsome : is_Some (BUTTON_EVENT_MAP !! button (deref_store st l))).
  { rewrite button_map_lookup.
    destruct Hbtn as [-> | [-> | ->]]; repeat case_decide; try congruence; eauto. }
  destruct (run_loop_bounded random (Z.to_nat N) l (now w0) (deref_store st l) 0 w0
              Hcfg Hsome) as (n & c' & w2 & Hloop).
  { left. split; lia. }
  pose proof (run_loop_burst random n l (now w0) (deref_store st l) 0 w0 c' w2)
    as Hcount.
  destruct Hcount as (_ & Hticks & Hq2 & Hc2); auto; try lia.
  { unfold stop_event_is_set in *. rewrite Hc0. exact Hse1. }
  { rewrite Hdur. lra. }
  pose proof (run_loop_frame random _ _ _ _ _ _ _ (Hloop n (le_n n))) as F2.
  pose proof (finish_spec w2) as (Hse & Hir & _ & Htr & _).
  exists t, w1, n, (thread_exit t (finish w2)).
  split; [exact Hstart |]. split; [exact Hrun1 |].
  split.
  { intros fuel Hf. unfold _run. fold w0. simpl args. rewrite Hloop by exact Hf.
    reflexivity. }
  split.
  { simpl. rewrite Htr. unfold ticks at 1. rewrite count_app.
    fold (ticks (trace w2)).
    assert (E : count is_tick match _stop_callback (clicker w2) with
                              | Some cb => [StopCallback cb]
                              | None => []
                              end = 0%nat)
      by (destruct (_stop_callback (clicker w2)); reflexivity).
    rewrite E, Nat.add_0_r, Hticks, Htr0, Ht1. lia. }
  split; [exact Hir |]. split; [exact Hse |].
  simpl. rewrite Htr. unfold stop_calls at 1. rewrite count_app.
  fold (stop_calls (trace w2)).
  rewrite (frame_stop_calls _ _ F2), (frame_stop_calls _ _ F0), Hsc1.
  rewrite (frame_stop_callback _ _ F2), (frame_stop_callback _ _ F0), Hcb1.
  destruct (_stop_callback (clicker w)); reflexivity.
Qed.

(** Start on a running scheduler is a no-op, so of two Start presses in a
    row only the first starts a thread and invokes the start callback. *)
Theorem start_twice_starts_once provider w l st :
  is_running w = false ->
  provider (store w) = (inr l, st) ->
  exists w1 t,
    start provider w = (w1, Some t) /\
    start_calls (trace w1)
    = (start_calls (trace w)
       + match _start_callback (clicker w) with Some _ => 1 | None => 0 end)%nat /\
    start provider w1 = (w1, None).
Proof.
  intros Hidle Hp.
  destruct (start_spawns provider w l st Hidle Hp)
    as (w1 & Hstart & Hrun & _ & _ & _ & _ & _ & _ & _ & _ & Hcalls).
  exists w1, {| tid := S (spawned w); args := l |}.
  split; [exact Hstart |]. split; [exact Hcalls |].
  unfold start. rewrite Hrun. reflexivity.
Qed.

(** A run with a duration limit [D > 0] and no burst limit, started
    with no thread of an earlier run alive and never stopped from
    outside, comes to its end by itself, no earlier than the start delay
    plus [D] after Start was pressed, and leaves the scheduler idle. *)
Theorem duration_run_stops_itself provider w l st :
  is_running w = false ->
  alive w = ∅ ->
  quiet w ->
  provider (store w) = (inr l, st) ->
  burst_count (deref_store st l) = 0%Z ->
  0 < run_duration (deref_store st l) ->
  button (deref_store st l) = "left"%string \/
  button (deref_store st l) = "right"%string \/
  button (deref_store st l) = "middle"%string ->
  exists t w1 n w',
    start provider w = (w1, Some t) /\
    (forall fuel, (n <= fuel)%nat -> _run random fuel t w1 = Return tt w') /\
    now w + start_delay (deref_store st l) + run_duration (deref_store st l) <= now w' /\
    is_running w' = false.
Proof.
  intros Hidle _ Hq Hp Hb Hdur Hbtn.
  destruct (start_spawns provider w l st Hidle Hp)
    as (w1 & Hstart & Hrun1 & Hse1 & Hst1 & Hpe1 & Hn1 & _).
  set (t := {| tid := S (spawned w); args := l |}) in *.
  assert (Hq1 : quiet w1) by (unfold quiet; rewrite Hpe1; exact Hq).
  assert (Hd1 : deref w1 l = deref_store st l) by (unfold deref; rewrite Hst1; reflexivity).
  assert (Hsome : is_Some (BUTTON_EVENT_MAP !! button (deref w1 (args t)))).
  { simpl. rewrite Hd1, button_map_lookup.
    destruct Hbtn as [-> | [-> | ->]]; repeat case_decide; try congruence; eauto. }
  destruct (run_total t w1 Hsome) as (n & w' & Hrun).
  { right; left. simpl. rewrite Hd1. exact Hdur. }
  exists t, w1, n, w'. split; [exact Hstart |]. split; [exact Hrun |].
  specialize (Hrun n (le_n n)). unfold _run in Hrun. simpl args in Hrun.
  pose proof (start_delay_inert l w1) as (F0 & _ & Hq0).
  destruct (Hq0 Hq1) as [Hq0' Hc0]. clear Hq0.
  assert (Hn0 : now w1 + start_delay (deref w1 l)
                <= now (if PyNum.ltb 0 (start_delay (deref w1 l))
                        then sleep (start_delay (deref w1 l)) w1 else w1)).
  { destruct (PyNum.ltb 0 (start_delay (deref w1 l))) eqn:D.
    - apply ltb_lt in D.
      pose proof (sleep_frame (start_delay (deref w1 l)) w1) as (_ & _ & Hn & _);
        [lra |]. rewrite Hn. lra.
    - apply ltb_ge in D. lra. }
  set (w0 := if PyNum.ltb 0 (start_delay (deref w1 l))
             then sleep (start_delay (deref w1 l)) w1 else w1) in *.
  destruct (run_loop random n l (now w0) 0 w0) as [c w2 | |] eqn:Hloop;
    try discriminate.
  injection Hrun as <-.
  apply (run_loop_duration random n l (now w0) (deref_store st l)) in Hloop
    as (_ & Hlate & _); auto.
  - pose proof (finish_spec w2) as (_ & Hir & _).
    split; [| exact Hir].
    assert (Hfin : now (thread_exit t (finish w2)) = now w2)
      by (unfold finish; destruct (_stop_callback _); reflexivity).
    rewrite Hfin. rewrite Hd1, Hn1 in Hn0. lra.
  - unfold stop_event_is_set in *. rewrite Hc0. exact Hse1.
  - rewrite <- Hd1. apply (frame_config _ _ F0).
  - lia.
Qed.

(** Whatever the user does while a run is active, the settings object
    the run works on keeps every attribute it was started with, the fixed
    position excepted. *)
Theorem run_keeps_config fuel t w w' :
  _run random fuel t w = Return tt w' ->
  same_config (deref w (args t)) (deref w' (args t)).
Proof.
  unfold _run.
  pose proof (start_delay_inert (args t) w) as (F0 & _).
  set (w0 := if PyNum.ltb 0 (start_delay (deref w (args t)))
             then sleep (start_delay (deref w (args t))) w else w) in *.
  destruct (run_loop random fuel (args t) (now w0) 0 w0) as [c w2 | |] eqn:Hloop;
    try discriminate.
  intros [= <-]. apply run_loop_frame in Hloop.
  eapply same_config_trans; [apply (frame_config _ _ (Frame_trans _ _ _ F0 Hloop)) |].
  unfold finish, deref. destruct (_stop_callback _); apply same_config_refl.
Qed.

End WholeRun.

Lemma burst_run_stops_itself_witness :
  let p := Clicker._collect_settings Sample.parse_decimal in
  let w := Sample.fresh_world (Sample.burst_form "3") (10, 20)%Q 100%Q [] in
  exists t w1 n w',
    Clicker.start p w = (w1, Some t) /\
    Clicker.is_running w1 = true /\
    (forall fuel, (n <= fuel)%nat ->
       Clicker._run Sample.no_random fuel t w1 = Return tt w') /\
    Z.of_nat (Observe.ticks (Clicker.trace w')) = 3%Z /\
    Clicker.is_running w' = false /\
    Clicker.stop_event_is_set w' = true /\
    Observe.stop_calls (Clicker.trace w') = 1%nat.
Proof.
  intros p w.
  apply (burst_run_stops_itself Sample.no_random p w 1%nat
           (snd (p (Clicker.store w))) 3%Z).
  - reflexivity.
  - reflexivity.
  - constructor.
  - vm_compute. reflexivity.
  - vm_compute. reflexivity.
  - reflexivity.
  - vm_compute. reflexivity.
  - left. vm_compute. reflexivity.
Defined.

Lemma run_exit_quiesces_witness :
  let w := Sample.running_world Clicker.default_settings (10, 20)%Q 100%Q
             [(0.25%Q, Clicker.PressStop)] in
  let t := {| Clicker.tid := 1; Clicker.args := 0 |} in
  (exists n w', forall fuel, (n <= fuel)%nat ->
     Clicker._run Sample.no_random fuel t w = Return tt w') /\
  (exists w',
     Clicker._run Sample.no_random 1000 t w = Return tt w' /\
     Clicker.stop_event_is_set w' = true /\
     Clicker.is_running w' = false /\
     Observe.stop_calls (Clicker.trace w') = 1%nat /\
     Observe.ticks (Clicker.trace w') = 3%nat).
Proof.
  intros w t.
  destruct (run_exit_quiesces Sample.no_random t w) as [Htotal Hexit].
  split.
  - apply Htotal.
    + left. reflexivity.
    + right; right. exists 0.25%Q. right. split; [reflexivity |]. left. reflexivity.
  - set (w' := default w (final_state (Clicker._run Sample.no_random 1000 t w))).
    assert (H : Clicker._run Sample.no_random 1000 t w = Return tt w')
      by (vm_compute; reflexivity).
    destruct (Hexit 1000%nat w' H) as (H1 & H2 & H3 & _).
    destruct (H3 2%nat eq_refl) as [H4 _].
    exists w'. split; [exact H |]. split; [exact H1 |]. split; [exact H2 |].
    split; [exact H4 |]. vm_compute. reflexivity.
Defined.

(** ** Where the code departs from the specification *)

Section Departures.

Import Clicker Observe PyNumFacts.
Open Scope list_scope.
Open Scope Q_scope.

Variable random : nat -> Q.

#[local] Arguments run_loop : simpl never.
#[local] Arguments sleep : simpl never.

(** The start delay is one [time.sleep] call: a run that has a start
    delay never ends before the delay has passed in full, whatever the
    UI thread asks for in the meantime. *)
Lemma start_delay_sleeps_in_full fuel t w w' :
  0 < start_delay (deref w (args t)) ->
  _run random fuel t w = Return tt w' ->
  now w + start_delay (deref w (args t)) <= now w'.
Proof.
  intros Hd. unfold _run. apply ltb_lt in Hd. rewrite Hd. apply ltb_lt in Hd.
  destruct (run_loop random fuel (args t) _ 0 _) as [c w2 | |] eqn:Hloop;
    try discriminate.
  intros [= <-]. apply run_loop_frame in Hloop. apply frame_now in Hloop.
  pose proof (sleep_frame (start_delay (deref w (args t))) w) as (_ & _ & Hn & _);
    [lra |].
  unfold finish. destruct (_stop_callback _); simpl; lra.
Qed.

End Departures.

(** ** Run threads side by side *)

Section ThreadFacts.

Import Clicker.
Open Scope list_scope.
Open Scope Q_scope.

Variable random : nat -> Q.

(** The thread code of [Threads], run with no other thread beside it,
    is the code of [Clicker]. *)
Lemma wait_until_alone fuel end_time w k :
  Threads.alone (Threads.wait_until fuel end_time w k)
  = bind (wait_until fuel end_time w) (fun _ w => Threads.alone (k w)).
Proof.
  revert w. induction fuel as [| fuel IH]; intros w; simpl;
    destruct (negb (stop_event_is_set w) && PyNum.ltb (now w) end_time);
    try reflexivity.
  apply IH.
Qed.

Lemma click_loop_alone fuel l position down_event up_event button_code indices w k :
  Threads.alone
    (Threads.click_loop fuel l position down_event up_event button_code indices w k)
  = bind (click_loop fuel l position down_event up_event button_code indices w)
         (fun _ w => Threads.alone (k w)).
Proof.
  revert w. induction indices as [| click_index rest IH]; intros w; [reflexivity |].
  cbn [Threads.click_loop click_loop].
  destruct (PyNum.ltb 0 _).
  - rewrite wait_until_alone.
    destruct (wait_until fuel _ _) as [[] w1 | |]; cbn [bind Threads.alone];
      [apply IH | reflexivity | reflexivity].
  - cbn [bind Threads.alone]. apply IH.
Qed.

Lemma perform_click_alone fuel position l w k :
  Threads.alone (Threads._perform_click fuel position l w k)
  = bind (_perform_click fuel position l w) (fun _ w => Threads.alone (k w)).
Proof.
  unfold Threads._perform_click, _perform_click.
  destruct (BUTTON_EVENT_MAP !! _) as [[[down_event up_event] button_code] |];
    [apply click_loop_alone | reflexivity].
Qed.

Lemma run_loop_alone fuel l start_time clicks_performed w k :
  Threads.alone (Threads.run_loop random fuel l start_time clicks_performed w k)
  = bind (run_loop random fuel l start_time clicks_performed w)
         (fun _ w => Threads.alone (k w)).
Proof.
  revert clicks_performed w.
  induction fuel as [| fuel IH]; intros clicks_performed w;
    cbn [Threads.run_loop run_loop];
    destruct (stop_event_is_set w); try reflexivity.
  destruct (_ && _); [reflexivity |].
  destruct (_get_target_position l w) as [position w1].
  rewrite perform_click_alone.
  destruct (_perform_click fuel position l w1) as [[] w2 | |];
    cbn [bind]; try reflexivity.
  destruct (_ && _); [reflexivity |].
  destruct (next_interval random l w2) as [interval w3].
  rewrite wait_until_alone.
  destruct (wait_until fuel _ w3) as [[] w4 | |]; cbn [bind];
    try reflexivity.
  apply IH.
Qed.

(** A run thread by itself is [Clicker._run]: with nobody beside it the
    closing [join] has nothing to wait for, and the thread is over when
    its function returns or an exception leaves it. *)
Lemma run_alone fuel t w :
  match Threads.alone (Threads._run random fuel t w) with
  | Return _ w' => Return tt (thread_exit t w')
  | Raise e w' => Raise e (thread_exit t w')
  | OutOfFuel => OutOfFuel
  end = _run random fuel t w.
Proof.
  unfold Threads._run, _run.
  destruct (PyNum.ltb 0 _); cbn [Threads.alone]; rewrite run_loop_alone;
    destruct (run_loop random fuel _ _ _ _) as [c w1 | |];
    cbn [bind]; try reflexivity;
    unfold Threads.finished; destruct (_thread (clicker _)) as [other |];
    try destruct (bool_decide _); reflexivity.
Qed.

(** [stop] with its [join] leaves what [Clicker.stop] leaves when no
    thread does anything during the [join]. *)
Lemma stop_alone me w : Threads.alone (Threads.stop me w) = Return tt (stop w).
Proof.
  unfold Threads.stop, stop.
  destruct (negb (is_running w)); [reflexivity |].
  cbn zeta.
  set (w1 := with_clicker (set_stop_event true) _). clearbody w1.
  destruct (_thread _) as [t |] eqn:Ht; [| reflexivity].
  destruct (bool_decide (tid t ∈ _)) eqn:E; cbn [andb].
  - destruct (negb _); cbn [Threads.alone]; rewrite ?Ht, ?E; reflexivity.
  - rewrite ?Ht, ?E. reflexivity.
Qed.

End ThreadFacts.

(** C5 at a failing input: the settings ask for a start delay of 5 s and
    Stop is pressed after 1 s. The run thread sleeps the 5 s in full: it is
    still alive, with the clock at 5 s, when it first looks at the stop
    event, 4 s after the press, and only then ends (without a click). A
    wait that polled would have ended by 1.001 s. *)
Lemma start_delay_ignores_stop :
  let s := Sample.with_start_delay 5 Clicker.default_settings in
  let w := Sample.running_world s (10, 20)%Q 100%Q [(1%Q, Clicker.PressStop)] in
  let t := {| Clicker.tid := 1; Clicker.args := 0 |} in
  exists w',
    Clicker._run Sample.no_random 10 t w = Return tt w' /\
    (Clicker.now w' == 5)%Q /\
    ~ (Clicker.now w' <= 1 + 0.001)%Q /\
    Clicker.trace w' = [Clicker.StopCallback 2%nat].
Proof.
  intros s w t. eexists. split; [vm_compute; reflexivity |].
  split; [vm_compute; reflexivity |].
  split; [| vm_compute; reflexivity].
  intros H. vm_compute in H. apply H. reflexivity.
Qed.

(** C1 at a failing input; the defect is that of C5, a start delay that
    is slept through. Start is pressed for a run of one left click after
    a start delay of 5 s, and Stop 1 s later: the run thread sleeps on
    and outlives the [join] of [stop]. At 3.0005 s Start is pressed again,
    for the form changed to no start delay, an interval of 2 s, no
    duration limit, the right button and a burst of [N = 3]; nothing is
    pressed after that. This Start clears the stop event, which the two
    threads share. At 5 s the first thread wakes up, finds the event
    clear, clicks once and, on its way out, sets the event and the idle
    state. The second run, which nobody stopped, finds the event set while
    it waits for its second tick and ends there: it has done one tick,
    not three, and the stop callback is invoked twice. *)
Lemma stale_thread_cuts_burst_short :
  let provider := Clicker._collect_settings Sample.parse_decimal in
  exists w',
    Threads.run Sample.no_random provider 3000 3000 Sample.restart
    = Threads.Halted w' /\
    Clicker.burst_count (Clicker.deref w' 2) = 3%Z /\
    (Clicker.run_duration (Clicker.deref w' 2) == 0)%Q /\
    Clicker.button (Clicker.deref w' 2) = "right" /\
    Clicker.trace w'
    = [ Clicker.StartCallback 1%nat;
        Clicker.StartCallback 1%nat;
        Clicker.MouseEvent Clicker.kCGEventRightMouseDown (10%Z, 80%Z) 1 1;
        Clicker.MouseEvent Clicker.kCGEventRightMouseUp (10%Z, 80%Z) 1 1;
        Clicker.MouseEvent Clicker.kCGEventLeftMouseDown (10%Z, 80%Z) 0 1;
        Clicker.MouseEvent Clicker.kCGEventLeftMouseUp (10%Z, 80%Z) 0 1;
        Clicker.StopCallback 2%nat;
        Clicker.StopCallback 2%nat ] /\
    Clicker.is_running w' = false /\
    (Clicker.now w' == 5.0105)%Q.
Proof.
  intros provider. eexists. split; [vm_compute; reflexivity |].
  repeat split; vm_compute; reflexivity.
Qed.

(** C4 at a failing input: the run is started at the fixed position
    [(0, 0)] with a burst of two ticks; between the ticks the user moves
    the pointer and presses "Capture current cursor". The second tick
    clicks at the captured position [(50, 40)], not at the position the
    run was started with. *)
Lemma capture_cursor_redirects_active_run :
  let p := Clicker._collect_settings Sample.parse_decimal in
  let w := Sample.fresh_world Sample.fixed_form (10, 20)%Q 100%Q
             [ (0.05%Q, Clicker.MoveMouse 50 60);
               (0.05%Q, Clicker.CaptureCursor) ] in
  exists w',
    Sample.start_and_run Sample.no_random p 1000 w = Return tt w' /\
    Clicker.trace w'
    = [ Clicker.StartCallback 1%nat;
        Clicker.WarpCursor (0%Z, 0%Z);
        Clicker.MouseEvent Clicker.kCGEventLeftMouseDown (0%Z, 0%Z) 0 1;
        Clicker.MouseEvent Clicker.kCGEventLeftMouseUp (0%Z, 0%Z) 0 1;
        Clicker.WarpCursor (50%Z, 40%Z);
        Clicker.MouseEvent Clicker.kCGEventLeftMouseDown (50%Z, 40%Z) 0 1;
        Clicker.MouseEvent Clicker.kCGEventLeftMouseUp (50%Z, 40%Z) 0 1;
        Clicker.StopCallback 2%nat ].
Proof.
  intros p w. eexists. split; vm_compute; reflexivity.
Qed.

(** ** Instances of the further properties *)

Lemma update_installs_witness :
  exists hm',
    Hotkeys.update Sample.hook_accepts "ctrl+shift+a" "Ctrl-Shift-B" "f5" Hotkeys.init
    = Return tt hm' /\
    Hotkeys.current_bindings hm' !! "<ctrl>+<shift>+a" = Some Hotkeys.start_action /\
    Hotkeys.current_bindings hm' !! "<cmd>+<alt>+s" = None /\
    size (Hotkeys.current_bindings hm') = 3%nat.
Proof.
  destruct (update_installs Sample.hook_accepts "ctrl+shift+a" "Ctrl-Shift-B" "f5"
              Hotkeys.init "<ctrl>+<shift>+a" "<ctrl>+<shift>+b" "<f5>")
    as (hm' & H1 & _ & H3 & _ & _ & H6 & H7);
    [vm_compute; reflexivity .. | discriminate | discriminate | discriminate |].
  exists hm'. split; [exact H1 |]. split; [exact H3 |].
  split; [apply H6; discriminate | exact H7].
Defined.

Lemma start_twice_starts_once_witness :
  let p := Clicker._collect_settings Sample.parse_decimal in
  let w := Sample.fresh_world Sample.default_form (10, 20)%Q 100%Q [] in
  exists w1 t,
    Clicker.start p w = (w1, Some t) /\
    Observe.start_calls (Clicker.trace w1) = 1%nat /\
    Clicker.start p w1 = (w1, None).
Proof.
  intros p w.
  apply (start_twice_starts_once p w 1%nat (snd (p (Clicker.store w)))).
  - reflexivity.
  - vm_compute. reflexivity.
Defined.


Lemma duration_run_stops_itself_witness :
  let f := {| Clicker.interval_entry := "0.1"; Clicker.random_range_entry := "";
              Clicker.delay_entry := "0.5"; Clicker.duration_entry := "0.25";
              Clicker.burst_entry := ""; Clicker.hold_entry := "";
              Clicker.randomize_var := false; Clicker.button_var := "right";
              Clicker.click_type_var := "double"; Clicker.follow_var := true |} in
  let p := Clicker._collect_settings Sample.parse_decimal in
  let w := Sample.fresh_world f (10, 20)%Q 100%Q [] in
  exists t w1 n w',
    Clicker.start p w = (w1, Some t) /\
    (forall fuel, (n <= fuel)%nat ->
       Clicker._run Sample.no_random fuel t w1 = Return tt w') /\
    (0.75 <= Clicker.now w')%Q /\
    Clicker.is_running w' = false.
Proof.
  intros f p w.
  destruct (duration_run_stops_itself Sample.no_random p w 1%nat
              (snd (p (Clicker.store w))))
    as (t & w1 & n & w' & H1 & H2 & H3 & H4).
  - reflexivity.
  - reflexivity.
  - constructor.
  - vm_compute. reflexivity.
  - vm_compute. reflexivity.
  - vm_compute. reflexivity.
  - right; left. vm_compute. reflexivity.
  - exists t, w1, n, w'. split; [exact H1 |]. split; [exact H2 |].
    split; [| exact H4].
    eapply Qle_trans; [| exact H3]. vm_compute. discriminate.
Defined.

Lemma run_keeps_config_witness :
  let p := Clicker._collect_settings Sample.parse_decimal in
  let w := Sample.running_world
             (Clicker.set_fixed_position (7%Z, 9%Z)
                (Sample.with_start_delay 0.02 Clicker.default_settings))
             (10, 20)%Q 100%Q
             [ (0.01%Q, Clicker.CaptureCursor); (0.05%Q, Clicker.PressStop) ] in
  let t := {| Clicker.tid := 1; Clicker.args := 0 |} in
  exists w',
    Clicker._run Sample.no_random 200 t w = Return tt w' /\
    Observe.same_config (Clicker.deref w 0) (Clicker.deref w' 0) /\
    Clicker.fixed_position (Clicker.deref w' 0) = (10%Z, 80%Z).
Proof.
  intros p w t.
  set (w' := default w (final_state (Clicker._run Sample.no_random 200 t w))).
  assert (H : Clicker._run Sample.no_random 200 t w = Return tt w')
    by (vm_compute; reflexivity).
  exists w'. split; [exact H |].
  split; [exact (run_keeps_config Sample.no_random 200 t w w' H) |].
  vm_compute. reflexivity.
Defined.

(** * Further properties *)

(** ** What a run leaves in the trace *)

Section TallyFacts.

Import Clicker Observe Tally PyNumFacts.
Open Scope list_scope.
Open Scope Q_scope.

Variable random : nat -> Q.

#[local] Arguments next_interval : simpl never.
#[local] Arguments _get_target_position : simpl never.
#[local] Arguments _perform_click : simpl never.
#[local] Arguments wait_until : simpl never.
#[local] Arguments run_loop : simpl never.
#[local] Arguments sleep : simpl never.

Lemma occurrences_tally position down_event up_event button_code indices :
  is_down down_event = true -> is_down up_event = false ->
  presses (occurrences position down_event up_event button_code indices)
  = length indices /\
  releases (occurrences position down_event up_event button_code indices)
  = length indices /\
  warps (occurrences position down_event up_event button_code indices) = 0%nat.
Proof.
  intros Hd Hu. unfold presses, releases, warps, count, occurrences.
  induction indices as [| i rest (IH1 & IH2 & IH3)]; [repeat split |].
  simpl. rewrite Hd, Hu. simpl. rewrite IH1, IH2, IH3. repeat split.
Qed.

(** One tick, as the trace shows it: [total_clicks] presses and as many
    releases, and a warp before them exactly in fixed-position mode. *)
Lemma tick_tally fuel l w position w1 w2 :
  _get_target_position l w = (position, w1) ->
  _perform_click fuel position l w1 = Return tt w2 ->
  ticks (trace w2) = S (ticks (trace w)) /\
  presses (trace w2) = (presses (trace w) + total_clicks (deref w l))%nat /\
  releases (trace w2) = (releases (trace w) + total_clicks (deref w l))%nat /\
  warps (trace w2)
  = (warps (trace w) + if follow_cursor (deref w l) then 0 else 1)%nat.
Proof.
  intros Hpos Hclick.
  pose proof (target_position_frame l w) as (F1 & Ht1 & Hp1 & _).
  assert (Hw1 : trace w1 = trace w ++ if follow_cursor (deref w l) then []
                                      else [WarpCursor (fixed_position (deref w l))]).
  { unfold _get_target_position in Hpos.
    destruct (follow_cursor (deref w l)); injection Hpos as <- <-; simpl;
      [rewrite app_nil_r |]; reflexivity. }
  rewrite Hpos in F1, Ht1, Hp1. cbn [snd] in F1, Ht1, Hp1.
  pose proof (perform_click_frame _ _ _ _ _ Hclick)
    as (_ & (down_event & up_event & code & m & Hmap & Hm & Htr) & Ht2 & _).
  destruct (button_map_events _ _ _ _ Hmap) as [Hd Hu].
  pose proof (occurrences_tally position down_event up_event code (seq 0 (S m)) Hd Hu)
    as (Ho1 & Ho2 & Ho3).
  rewrite length_seq in Ho1, Ho2.
  destruct (same_config_fields _ _ (frame_config _ _ F1 l))
    as (_ & _ & _ & _ & Hct & _).
  assert (Htc : total_clicks (deref w l) = S m)
    by (unfold total_clicks; rewrite Hct; exact Hm).
  split; [rewrite Ht2, Ht1; reflexivity |].
  unfold presses, releases, warps in *. rewrite Htr, !count_app, Ho1, Ho2, Ho3, Htc.
  rewrite Hw1, !count_app.
  destruct (follow_cursor (deref w l)); unfold count; simpl; repeat split; lia.
Qed.

(** The tally of a loop that is left, whatever the UI thread did
    meanwhile: the counter went up by the number [k] of ticks in the trace,
    every tick is complete, and the burst limit was not exceeded. *)
Lemma run_loop_tally fuel l start_time s clicks w clicks' w' :
  same_config s (deref w l) ->
  run_loop random fuel l start_time clicks w = Return clicks' w' ->
  exists k : nat,
    clicks' = (clicks + Z.of_nat k)%Z /\
    ticks (trace w') = (ticks (trace w) + k)%nat /\
    presses (trace w') = (presses (trace w) + k * total_clicks s)%nat /\
    releases (trace w') = (releases (trace w) + k * total_clicks s)%nat /\
    warps (trace w') = (warps (trace w) + if follow_cursor s then 0 else k)%nat /\
    ((0 < burst_count s)%Z -> (clicks < burst_count s)%Z ->
     (clicks' <= burst_count s)%Z).
Proof.
  revert w clicks. induction fuel as [| fuel IH]; intros w clicks Hcfg;
    rewrite run_loop_unfold; destruct (stop_event_is_set w);
    try discriminate;
    try (intros [= <- <-]; exists 0%nat; rewrite Z.add_0_r, !Nat.add_0_r;
         repeat split; try lia; destruct (follow_cursor s); lia).
  destruct (PyNum.ltb 0 _ && PyNum.leb _ _);
    [intros [= <- <-]; exists 0%nat; rewrite Z.add_0_r, !Nat.add_0_r;
     repeat split; try lia; destruct (follow_cursor s); lia |].
  pose proof (target_position_frame l w) as (F1 & _).
  destruct (_get_target_position l w) as [position w1] eqn:Hpos. cbn [snd] in F1.
  destruct (_perform_click fuel position l w1) as [[] w2 | |] eqn:Hclick;
    cbn [bind]; try discriminate.
  pose proof (tick_tally _ _ _ _ _ _ Hpos Hclick) as (Tt & Tp & Tr & Tw).
  apply perform_click_frame in Hclick as (F2 & _).
  pose proof (same_config_trans _ _ _ Hcfg
                (frame_config _ _ (Frame_trans _ _ _ F1 F2) l)) as Hcfg2.
  destruct (same_config_fields _ _ Hcfg)
    as (_ & _ & _ & _ & Hct & _ & _ & _ & _ & Hfc).
  destruct (same_config_fields _ _ Hcfg2)
    as (_ & _ & _ & _ & _ & _ & _ & Hburst2 & _).
  assert (Htc : total_clicks (deref w l) = total_clicks s)
    by (unfold total_clicks; rewrite Hct; reflexivity).
  rewrite Htc in Tp, Tr. rewrite <- Hfc in Tw. rewrite <- Hburst2.
  destruct ((0 <? burst_count s)%Z && (burst_count s <=? clicks + 1)%Z) eqn:B.
  { intros [= <- <-]. exists 1%nat.
    rewrite Tt, Tp, Tr, Tw.
    repeat split; try lia; try (destruct (follow_cursor s); lia). }
  pose proof (next_interval_frame random l w2) as (F3 & Ht3 & _).
  destruct (next_interval random l w2) as [iv w3]. cbn [snd] in F3, Ht3.
  destruct (wait_until fuel _ w3) as [[] w4 | |] eqn:Hwait; cbn [bind];
    try discriminate.
  apply wait_until_frame in Hwait as (F4 & Ht4 & _).
  intros H. apply IH in H as (k & Hc & Kt & Kp & Kr & Kw & Kb).
  2: { eapply same_config_trans; [exact Hcfg2 |].
       apply (frame_config _ _ (Frame_trans _ _ _ F3 F4)). }
  rewrite Ht4, Ht3 in Kt, Kp, Kr, Kw.
  exists (S k). rewrite Kt, Kp, Kr, Kw, Tt, Tp, Tr, Tw.
  repeat split; try lia.
  destruct (follow_cursor s); lia.
Qed.

Lemma finish_tally w :
  ticks (trace (finish w)) = ticks (trace w) /\
  presses (trace (finish w)) = presses (trace w) /\
  releases (trace (finish w)) = releases (trace w) /\
  warps (trace (finish w)) = warps (trace w).
Proof.
  pose proof (finish_spec w) as (_ & _ & _ & Htr & _).
  unfold ticks, presses, releases, warps. rewrite Htr, !count_app.
  destruct (_stop_callback (clicker w)); unfold count; simpl; repeat split; lia.
Qed.

(** The tally of a whole run that comes to its end. *)
Lemma run_tally fuel t w w' :
  _run random fuel t w = Return tt w' ->
  let s := deref w (args t) in
  exists k : nat,
    ticks (trace w') = (ticks (trace w) + k)%nat /\
    presses (trace w') = (presses (trace w) + k * total_clicks s)%nat /\
    releases (trace w') = (releases (trace w) + k * total_clicks s)%nat /\
    warps (trace w') = (warps (trace w) + if follow_cursor s then 0 else k)%nat /\
    ((0 < burst_count s)%Z -> (Z.of_nat k <= burst_count s)%Z).
Proof.
  unfold _run.
  pose proof (start_delay_inert (args t) w) as (F0 & Ht0 & _).
  set (w0 := if PyNum.ltb 0 (start_delay (deref w (args t)))
             then sleep (start_delay (deref w (args t))) w else w) in *.
  destruct (run_loop random fuel (args t) (now w0) 0 w0) as [c w2 | |] eqn:Hloop;
    try discriminate.
  intros [= <-].
  apply (run_loop_tally fuel (args t) (now w0) (deref w (args t))) in Hloop
    as (k & Hc & Kt & Kp & Kr & Kw & Kb); [| apply (frame_config _ _ F0)].
  pose proof (finish_tally w2) as (Ft & Fp & Fr & Fw).
  exists k. simpl trace. rewrite Ft, Fp, Fr, Fw, Kt, Kp, Kr, Kw, Ht0.
  repeat split. intros Hb. specialize (Kb Hb). lia.
Qed.

(** However the user interferes, a run with a burst limit never does
    more ticks than the limit. *)
Theorem run_never_exceeds_burst fuel t w w' :
  (0 < burst_count (deref w (args t)))%Z ->
  _run random fuel t w = Return tt w' ->
  (Z.of_nat (ticks (trace w')) <= Z.of_nat (ticks (trace w))
                                  + burst_count (deref w (args t)))%Z.
Proof.
  intros Hb Hrun. destruct (run_tally _ _ _ _ Hrun) as (k & Kt & _ & _ & _ & Kb).
  specialize (Kb Hb). lia.
Qed.

(** Every tick of a run is complete: [total_clicks] presses, each with
    its release. Stop takes effect between two ticks, never inside one, so
    no run that ends leaves a button held down. *)
Theorem run_ticks_are_complete fuel t w w' :
  _run random fuel t w = Return tt w' ->
  exists k : nat,
    ticks (trace w') = (ticks (trace w) + k)%nat /\
    presses (trace w')
    = (presses (trace w) + k * total_clicks (deref w (args t)))%nat /\
    releases (trace w')
    = (releases (trace w) + k * total_clicks (deref w (args t)))%nat.
Proof.
  intros Hrun. destruct (run_tally _ _ _ _ Hrun) as (k & Kt & Kp & Kr & _).
  eauto.
Qed.


(** With a button that is none of left, right and middle and no
    duration limit, a run thread that has no other run thread beside it
    and is not stopped before its first tick dies on [ValueError] at that
    tick: no mouse event is posted, the code after the loop is skipped,
    so the stop callback is not invoked and the running flag and the
    thread reference stay as they were. *)
Theorem run_dies_on_unsupported_button fuel t w :
  quiet w ->
  alive w ⊆ {[tid t]} ->
  stop_event_is_set w = false ->
  run_duration (deref w (args t)) <= 0 ->
  button (deref w (args t)) <> "left"%string /\
  button (deref w (args t)) <> "right"%string /\
  button (deref w (args t)) <> "middle"%string ->
  exists msg w',
    _run random (S fuel) t w = Raise (ValueError msg) w' /\
    clicker w' = clicker w /\
    presses (trace w') = presses (trace w) /\
    stop_calls (trace w') = stop_calls (trace w) /\
    tid t ∉ alive w'.
Proof.
  intros Hq _ Hs Hd (H1 & H2 & H3). unfold _run.
  pose proof (start_delay_inert (args t) w) as (F0 & Ht0 & Hq0).
  destruct (Hq0 Hq) as [Hq0' Hc0]. clear Hq0.
  set (w0 := if PyNum.ltb 0 (start_delay (deref w (args t)))
             then sleep (start_delay (deref w (args t))) w else w) in *.
  rewrite run_loop_unfold.
  assert (Hs0 : stop_event_is_set w0 = false)
    by (unfold stop_event_is_set in *; rewrite Hc0; exact Hs).
  rewrite Hs0.
  assert (C : PyNum.ltb 0 (run_duration (deref w0 (args t))) = false).
  { destruct (same_config_fields _ _ (frame_config _ _ F0 (args t)))
      as (_ & _ & _ & _ & _ & _ & <- & _).
    apply ltb_ge. exact Hd. }
  rewrite C. cbn [andb].
  pose proof (target_position_frame (args t) w0) as (F1 & _ & Hp1 & _ & Hc1 & _).
  destruct (_get_target_position (args t) w0) as [position w1].
  cbn [snd] in F1, Hp1, Hc1.
  pose proof (Frame_trans _ _ _ F0 F1) as F.
  assert (Hnone : BUTTON_EVENT_MAP !! button (deref w1 (args t)) = None).
  { destruct (same_config_fields _ _ (frame_config _ _ F (args t)))
      as (_ & _ & _ & <- & _).
    rewrite button_map_lookup. repeat case_decide; congruence. }
  unfold _perform_click. rewrite Hnone. cbn [bind].
  eexists _, _. split; [reflexivity |]. simpl.
  split; [congruence |]. split; [rewrite Hp1, Ht0; reflexivity |].
  split; [rewrite (frame_stop_calls _ _ F); reflexivity |].
  apply not_elem_of_difference. right. apply elem_of_singleton. reflexivity.
Qed.

End TallyFacts.

(** ** Collecting settings from the form *)

Section FormFacts.

Import Clicker Observe App PyNumFacts.
Open Scope list_scope.
Open Scope Q_scope.

Variable parse_float : string -> option Q.

Lemma read_form_inv f fixed s :
  read_form parse_float f fixed = Some s ->
  exists i r d u b h,
    parse_float (interval_entry f) = Some i /\
    float_or_zero parse_float (random_range_entry f) = Some r /\
    float_or_zero parse_float (delay_entry f) = Some d /\
    float_or_zero parse_float (duration_entry f) = Some u /\
    float_or_zero parse_float (burst_entry f) = Some b /\
    float_or_zero parse_float (hold_entry f) = Some h /\
    s = {| interval := PyNum.max 0.001 i; randomize := randomize_var f;
           random_range := PyNum.max 0 r; button := button_var f;
           click_type := click_type_var f; start_delay := PyNum.max 0 d;
           run_duration := PyNum.max 0 u; burst_count := Z.max 0 (PyNum.int b);
           hold_duration := PyNum.max 0 h; follow_cursor := follow_var f;
           fixed_position := fixed |}.
Proof.
  unfold read_form. intros H.
  destruct (parse_float (interval_entry f)) as [i |]; [| discriminate]; simpl in H.
  destruct (float_or_zero parse_float (random_range_entry f)) as [r |];
    [| discriminate]; simpl in H.
  destruct (float_or_zero parse_float (delay_entry f)) as [d |];
    [| discriminate]; simpl in H.
  destruct (float_or_zero parse_float (duration_entry f)) as [u |];
    [| discriminate]; simpl in H.
  destruct (float_or_zero parse_float (burst_entry f)) as [b |];
    [| discriminate]; simpl in H.
  destruct (float_or_zero parse_float (hold_entry f)) as [h |];
    [| discriminate]; simpl in H.
  injection H as <-. exists i, r, d, u, b, h. repeat split.
Qed.

Lemma collect_settings_inv st l st' :
  _collect_settings parse_float st = (inr l, st') ->
  exists s,
    read_form parse_float (form st) (fixed_position (deref_store st (settings st)))
    = Some s /\
    l = length (heap st) /\
    st' = {| heap := heap st ++ [s]; settings := length (heap st);
             form := form st; dialogs := dialogs st |} /\
    deref_store st' l = s.
Proof.
  unfold _collect_settings.
  destruct (read_form parse_float (form st) _) as [s0 |] eqn:Hread; [| discriminate].
  intros [= <- <-]. exists s0. split; [reflexivity |]. split; [reflexivity |].
  split; [reflexivity |]. unfold deref_store. simpl.
  rewrite lookup_app_r, Nat.sub_diag by lia. reflexivity.
Qed.

(** Whatever is typed into the form, the settings [_collect_settings]
    hands out are sanitised: an interval of at least 1 ms, and no
    negative range, delay, duration, burst count or hold time; button,
    click type and modes are those selected in the form. *)
Theorem collect_settings_sanitises st l st' :
  _collect_settings parse_float st = (inr l, st') ->
  let s := deref_store st' l in
  0.001 <= interval s /\ 0 <= random_range s /\ 0 <= start_delay s /\
  0 <= run_duration s /\ (0 <= burst_count s)%Z /\ 0 <= hold_duration s /\
  button s = button_var (form st) /\ click_type s = click_type_var (form st) /\
  randomize s = randomize_var (form st) /\ follow_cursor s = follow_var (form st).
Proof.
  unfold _collect_settings.
  destruct (read_form parse_float (form st) _) as [s0 |] eqn:Hread; [| discriminate].
  intros [= <- <-]. unfold deref_store. simpl.
  rewrite lookup_app_r, Nat.sub_diag by lia. simpl.
  apply read_form_inv in Hread as (i & r & d & u & b & h & _ & _ & _ & _ & _ & _ & ->).
  simpl. repeat split; try apply max_ge_l. lia.
Qed.

(** [_collect_settings] always makes a new settings object: it becomes
    [self.settings], takes over the fixed position of the previous one,
    and every object made before, so the settings of every earlier run,
    is left as it was. *)
Theorem collect_settings_allocates st l st' :
  _collect_settings parse_float st = (inr l, st') ->
  l = length (heap st) /\ settings st' = l /\
  length (heap st') = S (length (heap st)) /\
  fixed_position (deref_store st' l) = fixed_position (deref_store st (settings st)) /\
  (forall l', (l' < length (heap st))%nat -> deref_store st' l' = deref_store st l') /\
  form st' = form st /\ dialogs st' = dialogs st.
Proof.
  unfold _collect_settings.
  destruct (read_form parse_float (form st) _) as [s0 |] eqn:Hread; [| discriminate].
  intros [= <- <-]. unfold deref_store at 1 3. simpl.
  rewrite lookup_app_r, Nat.sub_diag, length_app by lia. simpl.
  apply read_form_inv in Hread as (i & r & d & u & b & h & _ & _ & _ & _ & _ & _ & ->).
  simpl. repeat split; try lia.
  intros l' Hl'. unfold deref_store. simpl. rewrite lookup_app_l by lia. reflexivity.
Qed.

(** When [float] rejects one of the six numeric fields, those read
    before it being numbers, [_collect_settings] raises [ValueError]
    after exactly one error dialog, and neither the heap nor
    [self.settings] nor the form has changed. *)
Theorem collect_settings_rejects st :
  parse_float (interval_entry (form st)) = None \/
  float_or_zero parse_float (random_range_entry (form st)) = None \/
  float_or_zero parse_float (delay_entry (form st)) = None \/
  float_or_zero parse_float (duration_entry (form st)) = None \/
  float_or_zero parse_float (burst_entry (form st)) = None \/
  float_or_zero parse_float (hold_entry (form st)) = None ->
  exists msg st',
    _collect_settings parse_float st = (inl (ValueError msg), st') /\
    heap st' = heap st /\ settings st' = settings st /\ form st' = form st /\
    dialogs st' = dialogs st ++ ["Invalid input"%string].
Proof.
  unfold _collect_settings, read_form. intros H.
  destruct (parse_float (interval_entry (form st))) as [i |]; simpl.
  2: { do 2 eexists. split; [reflexivity | repeat split]. }
  destruct (float_or_zero parse_float (random_range_entry (form st))) as [r |]; simpl.
  2: { do 2 eexists. split; [reflexivity | repeat split]. }
  destruct (float_or_zero parse_float (delay_entry (form st))) as [d |]; simpl.
  2: { do 2 eexists. split; [reflexivity | repeat split]. }
  destruct (float_or_zero parse_float (duration_entry (form st))) as [u |]; simpl.
  2: { do 2 eexists. split; [reflexivity | repeat split]. }
  destruct (float_or_zero parse_float (burst_entry (form st))) as [b |]; simpl.
  2: { do 2 eexists. split; [reflexivity | repeat split]. }
  destruct (float_or_zero parse_float (hold_entry (form st))) as [h |]; simpl.
  2: { do 2 eexists. split; [reflexivity | repeat split]. }
  exfalso. destruct H as [H | [H | [H | [H | [H | H]]]]]; discriminate H.
Qed.

(** An empty entry means 0 for the range, the delay, the duration, the
    burst count and the hold time, but not for the interval: with the
    five optional fields empty the settings are the interval (floored at
    1 ms) and zeros, while an empty interval field is an error as soon as
    [float] rejects the empty string. *)
Theorem empty_fields_default_to_zero f fixed :
  random_range_entry f = ""%string -> delay_entry f = ""%string ->
  duration_entry f = ""%string -> burst_entry f = ""%string ->
  hold_entry f = ""%string ->
  (forall i, parse_float (interval_entry f) = Some i ->
     read_form parse_float f fixed
     = Some {| interval := PyNum.max 0.001 i; randomize := randomize_var f;
               random_range := 0; button := button_var f;
               click_type := click_type_var f; start_delay := 0;
               run_duration := 0; burst_count := 0%Z; hold_duration := 0;
               follow_cursor := follow_var f; fixed_position := fixed |}) /\
  (parse_float ""%string = None -> interval_entry f = ""%string ->
     read_form parse_float f fixed = None).
Proof.
  intros Hr Hd Hu Hb Hh. unfold read_form, float_or_zero. rewrite Hr, Hd, Hu, Hb, Hh.
  split.
  - intros i Hi. rewrite Hi. reflexivity.
  - intros Hnone Hi. rewrite Hi, Hnone. reflexivity.
Qed.

End FormFacts.

(** ** Capturing the cursor *)

Section CaptureFacts.

Import Clicker Observe App PyNumFacts.
Open Scope list_scope.
Open Scope Q_scope.

Variable parse_float : string -> option Q.

Lemma capture_assigns w :
  (settings (store w) < length (heap (store w)))%nat ->
  fixed_position (deref (_capture_cursor w) (settings (store w))) = cursor_position w.
Proof.
  intros Hlt. unfold deref, deref_store, _capture_cursor. simpl.
  rewrite list_lookup_alter_eq.
  destruct (lookup_lt_is_Some_2 _ _ Hlt) as [s Hs]. rewrite Hs. reflexivity.
Qed.

(** A position captured before Start is the one the next run gets:
    collecting the settings after [_capture_cursor] yields an object
    whose fixed position is the cursor position at the time of the
    capture. *)
Theorem capture_then_collect w l st' :
  (settings (store w) < length (heap (store w)))%nat ->
  _collect_settings parse_float (store (_capture_cursor w)) = (inr l, st') ->
  fixed_position (deref_store st' l) = cursor_position w.
Proof.
  intros Hlt Hc.
  apply collect_settings_inv in Hc as (s & Hread & _ & _ & ->).
  apply read_form_inv in Hread as (i & r & d & u & b & h & _ & _ & _ & _ & _ & _ & ->).
  exact (capture_assigns w Hlt).
Qed.

(** [_capture_cursor] writes to the object [self.settings] refers to and
    to no other: once a later Start has collected new settings, a capture
    leaves the settings object of every earlier run untouched. *)
Theorem capture_spares_older_settings w l st' l' :
  _collect_settings parse_float (store w) = (inr l, st') ->
  (l' < length (heap (store w)))%nat ->
  deref (_capture_cursor (with_store (fun _ => st') w)) l' = deref w l'.
Proof.
  intros Hc Hl'.
  apply collect_settings_inv in Hc as (s & _ & _ & -> & _).
  unfold deref, deref_store, _capture_cursor, assign_fixed_position. simpl.
  rewrite list_lookup_alter_ne by lia. rewrite lookup_app_l by lia. reflexivity.
Qed.

(** Choosing "Fixed position" captures the pointer, so the run started
    next clicks where the pointer was when the mode was chosen; while
    "Follow cursor" is selected the command does nothing. *)
Theorem toggle_fixed_then_collect w :
  (follow_var (form (store w)) = true -> _toggle_fixed_position w = w) /\
  (follow_var (form (store w)) = false ->
   (settings (store w) < length (heap (store w)))%nat ->
   forall l st',
     _collect_settings parse_float (store (_toggle_fixed_position w)) = (inr l, st') ->
     follow_cursor (deref_store st' l) = false /\
     fixed_position (deref_store st' l) = cursor_position w).
Proof.
  unfold _toggle_fixed_position. split; intros Hf; rewrite Hf; simpl; [reflexivity |].
  intros Hlt l st' Hc.
  apply collect_settings_inv in Hc as (s & Hread & _ & _ & ->).
  apply read_form_inv in Hread as (i & r & d & u & b & h & _ & _ & _ & _ & _ & _ & ->).
  split; [exact Hf | exact (capture_assigns w Hlt)].
Qed.

End CaptureFacts.

(** ** Chord normalisation *)

Section ChordFacts.

Import Hotkeys HotkeyHistory App.
Open Scope list_scope.

Variable hook : string -> bool.

Lemma lower_char_idem c : PyStr.lower_char (PyStr.lower_char c) = PyStr.lower_char c.
Proof. destruct c as [[] [] [] [] [] [] [] []]; vm_compute; reflexivity. Qed.

Lemma lower_char_space c : PyStr.is_space (PyStr.lower_char c) = PyStr.is_space c.
Proof. destruct c as [[] [] [] [] [] [] [] []]; vm_compute; reflexivity. Qed.

Lemma lower_char_plus c : Ascii.eqb (PyStr.lower_char c) "+" = Ascii.eqb c "+".
Proof. destruct c as [[] [] [] [] [] [] [] []]; vm_compute; reflexivity. Qed.

Lemma lower_char_replace c :
  (if Ascii.eqb (PyStr.lower_char c) "-" then "+"%char else PyStr.lower_char c)
  = PyStr.lower_char (if Ascii.eqb c "-" then "+"%char else c).
Proof. destruct c as [[] [] [] [] [] [] [] []]; vm_compute; reflexivity. Qed.

Lemma lower_idem s : PyStr.lower (PyStr.lower s) = PyStr.lower s.
Proof. induction s as [| c s IH]; simpl; [| rewrite lower_char_idem, IH]; reflexivity. Qed.

Lemma lower_empty s : PyStr.lower s = EmptyString <-> s = EmptyString.
Proof. destruct s; simpl; split; congruence. Qed.

Lemma replace_lower s :
  PyStr.replace "-" "+" (PyStr.lower s) = PyStr.lower (PyStr.replace "-" "+" s).
Proof.
  induction s as [| c s IH]; simpl; [| rewrite lower_char_replace, IH]; reflexivity.
Qed.

Lemma split_lower s :
  PyStr.split "+" (PyStr.lower s) = map PyStr.lower (PyStr.split "+" s).
Proof.
  induction s as [| c s IH]; simpl; [reflexivity |].
  rewrite lower_char_plus, IH.
  destruct (Ascii.eqb c "+"); simpl; [reflexivity |].
  destruct (PyStr.split "+" s); reflexivity.
Qed.

Lemma lstrip_lower s : PyStr.lstrip (PyStr.lower s) = PyStr.lower (PyStr.lstrip s).
Proof.
  induction s as [| c s IH]; simpl; [reflexivity |].
  rewrite lower_char_space. destruct (PyStr.is_space c); [exact IH | reflexivity].
Qed.

Lemma rstrip_lower s : PyStr.rstrip (PyStr.lower s) = PyStr.lower (PyStr.rstrip s).
Proof.
  induction s as [| c s IH]; simpl; [reflexivity |].
  rewrite IH, lower_char_space.
  destruct (PyStr.rstrip s); simpl; [destruct (PyStr.is_space c) |]; reflexivity.
Qed.

Lemma strip_lower s : PyStr.strip (PyStr.lower s) = PyStr.lower (PyStr.strip s).
Proof. unfold PyStr.strip. rewrite lstrip_lower, rstrip_lower. reflexivity. Qed.

Lemma nonempty_lower s : PyStr.nonempty (PyStr.lower s) = PyStr.nonempty s.
Proof. destruct s; reflexivity. Qed.

Lemma parts_of_lower (pieces : list string) :
  map (fun part => PyStr.lower (PyStr.strip part))
      (filter (fun part => PyStr.nonempty (PyStr.strip part) = true)
              (map PyStr.lower pieces))
  = map (fun part => PyStr.lower (PyStr.strip part))
        (filter (fun part => PyStr.nonempty (PyStr.strip part) = true) pieces).
Proof.
  induction pieces as [| x xs IH]; [reflexivity |]. simpl map at 2.
  rewrite !filter_cons, strip_lower, nonempty_lower.
  destruct (decide (PyStr.nonempty (PyStr.strip x) = true)); [| exact IH].
  simpl. rewrite strip_lower, lower_idem, IH. reflexivity.
Qed.

Lemma combo_parts_lower combo : combo_parts (PyStr.lower combo) = combo_parts combo.
Proof.
  unfold combo_parts. rewrite replace_lower, split_lower. apply parts_of_lower.
Qed.

Lemma replace_replace s :
  PyStr.replace "-" "+" (PyStr.replace "-" "+" s) = PyStr.replace "-" "+" s.
Proof.
  induction s as [| c s IH]; simpl; [reflexivity |]. rewrite IH.
  destruct (Ascii.eqb c "-") eqn:E; simpl; [reflexivity |]. rewrite E. reflexivity.
Qed.

Lemma replace_back s :
  PyStr.replace "-" "+" (PyStr.replace "+" "-" s) = PyStr.replace "-" "+" s.
Proof.
  induction s as [| c s IH]; simpl; [reflexivity |]. rewrite IH. f_equal.
  destruct (Ascii.eqb c "+") eqn:E; simpl.
  - apply Ascii.eqb_eq in E. subst c. reflexivity.
  - reflexivity.
Qed.

Lemma format_combo_same_parts combo combo' formatted :
  combo_parts combo' = combo_parts combo ->
  _format_combo hook combo' = inr formatted <->
  _format_combo hook combo = inr formatted.
Proof.
  unfold _format_combo. intros ->.
  destruct (combo_parts combo); [split; discriminate |].
  destruct (hook _); [reflexivity | split; discriminate].
Qed.

(** Chords are read without regard to letter case, and [-] and [+]
    separate keys alike: a chord, the chord in lower case and the chord
    with either separator replaced by the other are accepted together,
    and then normalise to the same key. *)
Theorem format_combo_ignores_case_and_separator combo formatted :
  (_format_combo hook (PyStr.lower combo) = inr formatted <->
   _format_combo hook combo = inr formatted) /\
  (_format_combo hook (PyStr.replace "-" "+" combo) = inr formatted <->
   _format_combo hook combo = inr formatted) /\
  (_format_combo hook (PyStr.replace "+" "-" combo) = inr formatted <->
   _format_combo hook combo = inr formatted).
Proof.
  split; [| split]; apply format_combo_same_parts.
  - apply combo_parts_lower.
  - unfold combo_parts. rewrite replace_replace. reflexivity.
  - unfold combo_parts. rewrite replace_back. reflexivity.
Qed.

Lemma lstrip_blank s :
  PyStr.lstrip s = EmptyString <->
  forallb PyStr.is_space (list_ascii_of_string s) = true.
Proof.
  induction s as [| c s IH]; simpl; [tauto |].
  destruct (PyStr.is_space c); simpl; [exact IH | split; discriminate].
Qed.

Lemma lstrip_head s c r :
  PyStr.lstrip s = String c r -> PyStr.is_space c = false.
Proof.
  induction s as [| c' s IH]; simpl; [discriminate |].
  destruct (PyStr.is_space c') eqn:E; [exact IH | intros [= <- _]; exact E].
Qed.

Lemma rstrip_head c r :
  PyStr.is_space c = false -> PyStr.rstrip (String c r) <> EmptyString.
Proof.
  intros E. simpl. rewrite E. destruct (PyStr.rstrip r); discriminate.
Qed.

Lemma strip_blank s :
  PyStr.strip s = EmptyString <->
  forallb PyStr.is_space (list_ascii_of_string s) = true.
Proof.
  rewrite <- lstrip_blank. unfold PyStr.strip.
  destruct (PyStr.lstrip s) as [| c r] eqn:E; [simpl; tauto |].
  split; [| discriminate].
  intros H. exfalso. eapply rstrip_head; [eapply lstrip_head; exact E | exact H].
Qed.

Lemma nonempty_strip s :
  PyStr.nonempty (PyStr.strip s) = true <->
  forallb PyStr.is_space (list_ascii_of_string s) = false.
Proof.
  rewrite <- not_true_iff_false, <- strip_blank.
  destruct (PyStr.strip s); simpl; split; congruence.
Qed.

Lemma split_cons sep s : exists p ps, PyStr.split sep s = p :: ps.
Proof.
  induction s as [| c s (p & ps & IH)]; simpl; [eauto |].
  destruct (Ascii.eqb c sep); [eauto |]. rewrite IH. eauto.
Qed.

Lemma no_parts_blank s :
  filter (fun part => PyStr.nonempty (PyStr.strip part) = true) (PyStr.split "+" s) = []
  <-> forallb (fun c => PyStr.is_space c || Ascii.eqb c "+") (list_ascii_of_string s)
      = true.
Proof.
  induction s as [| c s IH]; simpl.
  - rewrite filter_cons. destruct (decide _) as [H | H]; [discriminate H | tauto].
  - destruct (Ascii.eqb c "+") eqn:E.
    + rewrite orb_true_r. simpl. rewrite filter_cons.
      destruct (decide _) as [H | H]; [discriminate H | exact IH].
    + rewrite orb_false_r. destruct (split_cons "+" s) as (p & ps & Hs).
      rewrite Hs in *. rewrite filter_cons in *.
      destruct (decide (PyStr.nonempty (PyStr.strip (String c p)) = true)) as [H | H].
      * apply nonempty_strip in H. simpl in H.
        split; [discriminate |]. intros Hall. exfalso.
        apply andb_true_iff in Hall as [Hc Hall]. rewrite Hc in H. simpl in H.
        destruct (decide (PyStr.nonempty (PyStr.strip p) = true)) as [Hp | Hp].
        -- apply IH in Hall. discriminate Hall.
        -- rewrite <- not_true_iff_false in H. apply Hp, nonempty_strip.
           apply not_true_iff_false. exact H.
      * rewrite nonempty_strip, not_false_iff_true in H. simpl in H.
        apply andb_true_iff in H as [Hc Hp]. rewrite Hc. simpl.
        destruct (decide (PyStr.nonempty (PyStr.strip p) = true)) as [Hp' | Hp'];
          [| exact IH].
        apply nonempty_strip in Hp'. congruence.
Qed.

Lemma blank_replace s :
  forallb (fun c => PyStr.is_space c || Ascii.eqb c "+")
          (list_ascii_of_string (PyStr.replace "-" "+" s))
  = forallb blank (list_ascii_of_string s).
Proof.
  induction s as [| c s IH]; simpl; [reflexivity |]. rewrite IH. f_equal.
  unfold blank. destruct (Ascii.eqb c "-") eqn:E.
  - rewrite !orb_true_r. reflexivity.
  - rewrite orb_false_r. reflexivity.
Qed.

Lemma combo_parts_nil combo :
  combo_parts combo = [] <-> forallb blank (list_ascii_of_string combo) = true.
Proof.
  unfold combo_parts. rewrite <- blank_replace, <- no_parts_blank.
  destruct (filter _ _); simpl; split; congruence.
Qed.

(** A chord names no key exactly when it consists of nothing but
    whitespace and separators; [_format_combo] then raises "Hotkey cannot
    be empty" without consulting the platform hook, and it raises that
    error for no other chord. *)
Theorem format_combo_empty combo :
  forallb blank (list_ascii_of_string combo) = true <->
  _format_combo hook combo = inl (HotkeyError "Hotkey cannot be empty").
Proof.
  rewrite <- combo_parts_nil. unfold _format_combo.
  destruct (combo_parts combo) as [| part parts]; [tauto |].
  split; [discriminate |].
  destruct (hook _); discriminate.
Qed.

Lemma update_raise_inv a b c hm e hm' :
  update hook a b c hm = Raise e hm' ->
  hm' = hm /\ exists msg, e = HotkeyError msg.
Proof.
  unfold update.
  destruct (build_bindings hook _ ∅) as [e0 | bindings] eqn:E; [| discriminate].
  intros [= <- <-]. split; [reflexivity |].
  simpl in E.
  destruct (_format_combo hook a) as [ea | fa] eqn:Ea;
    [injection E as <-; eapply format_combo_error; eauto |].
  destruct (_format_combo hook b) as [eb | fb] eqn:Eb;
    [injection E as <-; eapply format_combo_error; eauto |].
  destruct (_format_combo hook c) as [ec | fc] eqn:Ec;
    [injection E as <-; eapply format_combo_error; eauto | discriminate].
Qed.

Lemma update_return_inv a b c hm hm' :
  update hook a b c hm = Return tt hm' ->
  exists fa fb fc,
    hm' = {| current_bindings :=
               <[fc := toggle_action]> (<[fb := stop_action]>
                                          (<[fa := start_action]> ∅));
             listener := Some (<[fc := toggle_action]>
                                 (<[fb := stop_action]>
                                    (<[fa := start_action]> ∅))) |}.
Proof.
  unfold update. simpl.
  destruct (_format_combo hook a) as [ea | fa]; [discriminate |].
  destruct (_format_combo hook b) as [eb | fb]; [discriminate |].
  destruct (_format_combo hook c) as [ec | fc]; [discriminate |].
  intros [= <-]. eauto.
Qed.

Lemma size_three_inserts (k1 k2 k3 : string) (x1 x2 x3 : Action) :
  (1 <= size (<[k3 := x3]> (<[k2 := x2]> (<[k1 := x1]> (∅ : gmap string Action))))
   <= 3)%nat.
Proof.
  pose proof (map_size_insert k3 x3 (<[k2 := x2]> (<[k1 := x1]> (∅ : gmap string Action))))
    as H3.
  pose proof (map_size_insert k2 x2 (<[k1 := x1]> (∅ : gmap string Action))) as H2.
  pose proof (map_size_insert k1 x1 (∅ : gmap string Action)) as H1.
  rewrite lookup_empty, map_size_empty in H1.
  destruct (_ !! k3), (_ !! k2); unfold id in *; lia.
Qed.

(** Whatever sequence of [update] and [shutdown] calls a manager has
    seen, a listener that is running runs on the current bindings, never
    on stale ones, and between one and three chords are bound. *)
Theorem reachable_listener_consistent hm :
  reachable hook hm ->
  (listener hm = None \/ listener hm = Some (current_bindings hm)) /\
  (1 <= size (current_bindings hm) <= 3)%nat.
Proof.
  induction 1 as [| a b c hm hm' _ IH Hstep | hm _ IH].
  - split; [right; reflexivity |]. apply size_three_inserts.
  - destruct (update hook a b c hm) as [[] hm1 | e hm1 |] eqn:E; simpl in Hstep;
      [| | discriminate]; injection Hstep as ->.
    + apply update_return_inv in E as (fa & fb & fc & ->). simpl.
      split; [right; reflexivity | apply size_three_inserts].
    + apply update_raise_inv in E as [-> _]. exact IH.
  - split; [left; reflexivity |]. exact (proj2 IH).
Qed.

(** [_apply_hotkeys] never lets an exception out and answers every press
    of "Apply Hotkeys" with exactly one message box: an error box, with
    the manager left as it was, or an info box, with the listener running
    on the new bindings. *)
Theorem apply_hotkeys_reports p :
  exists p' box,
    _apply_hotkeys hook p = Return tt p' /\
    boxes p' = boxes p ++ [box] /\
    ((exists msg, box = showerror "Hotkey error" msg /\ hotkeys p' = hotkeys p) \/
     (box = showinfo "Hotkeys" "Hotkeys updated successfully." /\
      listener (hotkeys p') = Some (current_bindings (hotkeys p')))).
Proof.
  unfold _apply_hotkeys.
  destruct (update hook (_hotkey_start p) (_hotkey_stop p) (_hotkey_toggle p)
                   (hotkeys p)) as [[] hm | e hm |] eqn:E.
  - apply update_return_inv in E as (fa & fb & fc & ->).
    do 2 eexists. split; [reflexivity |]. split; [reflexivity |]. right.
    split; reflexivity.
  - apply update_raise_inv in E as [-> [msg ->]].
    do 2 eexists. split; [reflexivity |]. split; [reflexivity |]. left.
    exists msg. split; reflexivity.
  - unfold update in E. destruct (build_bindings hook _ ∅); discriminate E.
Qed.

End ChordFacts.

(** ** The word generator *)

Section WordFacts.

Import WordApp.
Open Scope list_scope.

Variable sowpods_words : gset string.

Lemma selections_spec {A} (pool : list A) x rest :
  In (x, rest) (selections pool) <->
  exists l1 l2, pool = l1 ++ x :: l2 /\ rest = l1 ++ l2.
Proof.
  revert x rest. induction pool as [| y pool IH]; intros x rest; simpl.
  - split; [tauto |]. intros (l1 & l2 & H & _). destruct l1; discriminate.
  - split.
    + intros [[= <- <-] | H].
      * exists [], pool. auto.
      * apply in_map_iff in H as ([z r] & [= <- <-] & Hin).
        apply IH in Hin as (l1 & l2 & -> & ->).
        exists (y :: l1), l2. auto.
    + intros (l1 & l2 & H & ->).
      destruct l1 as [| z l1]; simpl in H; injection H as <- ->.
      * left. reflexivity.
      * right. apply in_map_iff. exists (x, l1 ++ l2).
        split; [reflexivity |]. apply IH. eauto.
Qed.

(** The arrangements of length [r] are the lists of length [r] that use
    each position of the pool at most once. *)
Lemma permutations_spec {A} r (pool p : list A) :
  In p (itertools_permutations r pool) <-> length p = r /\ p ⊆+ pool.
Proof.
  revert pool p. induction r as [| r IH]; intros pool p; simpl.
  - split.
    + intros [<- | []]. split; [reflexivity | apply submseteq_nil_l].
    + intros [H _]. left. destruct p; [reflexivity | discriminate].
  - rewrite in_flat_map. split.
    + intros ([x rest] & Hsel & Hin).
      apply in_map_iff in Hin as (p' & <- & Hp').
      apply IH in Hp' as [Hlen Hsub].
      apply selections_spec in Hsel as (l1 & l2 & -> & ->).
      split; [simpl; congruence |].
      rewrite <- Permutation_middle. apply submseteq_skip. exact Hsub.
    + intros [Hlen Hsub]. destruct p as [| x p']; [discriminate |].
      apply submseteq_cons_l in Hsub as (k & Hperm & Hsub).
      assert (Hx : x ∈ pool) by (rewrite Hperm; left).
      apply list_elem_of_split in Hx as (l1 & l2 & ->).
      exists (x, l1 ++ l2). split; [apply selections_spec; eauto |].
      apply in_map_iff. exists p'. split; [reflexivity |].
      apply IH. split; [simpl in Hlen; lia |].
      rewrite <- Permutation_middle in Hperm.
      apply Permutation_cons_inv in Hperm. rewrite Hperm. exact Hsub.
Qed.

Lemma length_chars w : length (list_ascii_of_string w) = String.length w.
Proof. induction w as [| c w IH]; simpl; congruence. Qed.

Lemma contains_spec w c :
  contains w c = true <-> In c (list_ascii_of_string w).
Proof.
  unfold contains. rewrite existsb_exists. split.
  - intros (c' & Hin & E). apply Ascii.eqb_eq in E. subst. exact Hin.
  - intros Hin. exists c. split; [exact Hin | apply Ascii.eqb_refl].
Qed.

Lemma accepted_spec inc exc w :
  accepted sowpods_words inc exc w = true <->
  w ∈ sowpods_words /\
  (forall c, In c (list_ascii_of_string inc) -> In c (list_ascii_of_string w)) /\
  (forall c, In c (list_ascii_of_string exc) -> ~ In c (list_ascii_of_string w)).
Proof.
  unfold accepted. rewrite !andb_true_iff, bool_decide_eq_true, forallb_forall.
  rewrite negb_true_iff, <- not_true_iff_false, existsb_exists.
  split.
  - intros [[Hd Hi] He]. split; [exact Hd |]. split.
    + intros c Hc. apply contains_spec, Hi, Hc.
    + intros c Hc Hw. apply He. exists c. split; [exact Hc | apply contains_spec, Hw].
  - intros (Hd & Hi & He). split; [split; [exact Hd |] |].
    + intros c Hc. apply contains_spec, Hi, Hc.
    + intros (c & Hc & Hw). apply (He c Hc). apply contains_spec, Hw.
Qed.

Lemma words_of_length_spec letters inc exc i w :
  In w (words_of_length sowpods_words letters inc exc i) <->
  accepted sowpods_words inc exc w = true /\
  String.length w = i /\
  list_ascii_of_string w ⊆+ list_ascii_of_string (PyStr.lower letters).
Proof.
  unfold words_of_length. rewrite filter_In, in_map_iff. split.
  - intros [(p & <- & Hp) Hacc]. apply permutations_spec in Hp as [Hlen Hsub].
    rewrite <- length_chars, list_ascii_of_string_of_list_ascii. auto.
  - intros (Hacc & Hlen & Hsub). split; [| exact Hacc].
    exists (list_ascii_of_string w).
    split; [apply string_of_list_ascii_of_string |].
    apply permutations_spec. rewrite length_chars. auto.
Qed.

Lemma generate_ok letters inc exc lengths generated :
  Forall (fun i => (0 <= i)%Z) lengths ->
  generate sowpods_words letters inc exc lengths generated
  = inr (generated
           ++ flat_map (fun i => words_of_length sowpods_words letters inc exc
                                                 (Z.to_nat i)) lengths).
Proof.
  intros Hall. revert generated.
  induction Hall as [| i lengths Hi _ IH]; intros generated; simpl.
  - rewrite app_nil_r. reflexivity.
  - apply Z.ltb_ge in Hi. rewrite Hi, IH, <- app_assoc. reflexivity.
Qed.

Lemma generate_raises letters inc exc lengths generated :
  Exists (fun i => (i < 0)%Z) lengths ->
  generate sowpods_words letters inc exc lengths generated
  = inl (ValueError "r must be non-negative").
Proof.
  intros Hex. revert generated.
  induction lengths as [| i lengths IH]; intros generated; [inversion Hex |].
  simpl. destruct (i <? 0)%Z eqn:E; [reflexivity |].
  apply IH. inversion Hex as [? ? Hi | ? ? Hrest]; subst; [| exact Hrest].
  apply Z.ltb_ge in E. lia.
Qed.

Lemma range_incl_spec lo hi i :
  In i (range_incl lo hi) <-> (lo <= i <= hi)%Z.
Proof.
  unfold range_incl. rewrite in_map_iff. split.
  - intros (k & <- & Hk). apply in_seq in Hk. lia.
  - intros H. exists (Z.to_nat (i - lo)). split; [lia |]. apply in_seq. lia.
Qed.

Lemma insert_by_len_perm w ws : insert_by_len w ws ≡ₚ w :: ws.
Proof.
  induction ws as [| y ys IH]; simpl; [reflexivity |].
  destruct (String.length w <? String.length y)%nat; [| reflexivity].
  rewrite IH. apply perm_swap.
Qed.

Lemma sorted_longest_first_perm ws : sorted_longest_first ws ≡ₚ ws.
Proof.
  induction ws as [| w ws IH]; simpl; [reflexivity |].
  rewrite insert_by_len_perm, IH. reflexivity.
Qed.

Lemma insert_by_len_sorted w ws :
  StronglySorted not_shorter ws -> StronglySorted not_shorter (insert_by_len w ws).
Proof.
  induction 1 as [| y ys Hs IH Hall]; simpl.
  - repeat constructor.
  - destruct (String.length w <? String.length y)%nat eqn:E.
    + apply Nat.ltb_lt in E. constructor; [exact IH |].
      rewrite insert_by_len_perm. constructor; [unfold not_shorter; lia | exact Hall].
    + apply Nat.ltb_ge in E. constructor; [constructor; assumption |].
      constructor; [exact E |].
      eapply Forall_impl; [exact Hall |]. unfold not_shorter. simpl. intros; lia.
Qed.

Lemma sorted_longest_first_sorted ws :
  StronglySorted not_shorter (sorted_longest_first ws).
Proof.
  induction ws as [| w ws IH]; simpl; [constructor |].
  apply insert_by_len_sorted, IH.
Qed.

Lemma all_words_inv letters inc exc min_length max_length ws :
  all_words sowpods_words letters inc exc min_length max_length = inr ws ->
  ws ≡ₚ flat_map (fun i => words_of_length sowpods_words letters inc exc (Z.to_nat i))
                 (range_incl min_length (effective_max letters max_length)) /\
  ((0 <= min_length)%Z \/ (effective_max letters max_length < min_length)%Z).
Proof.
  unfold all_words.
  set (hi := effective_max letters max_length).
  destruct (Z.lt_ge_cases min_length 0) as [Hneg | Hpos].
  - destruct (Z.le_gt_cases min_length hi) as [Hle | Hgt].
    + rewrite generate_raises; [discriminate |].
      apply List.Exists_exists. exists min_length.
      split; [apply range_incl_spec; lia | exact Hneg].
    + assert (E : range_incl min_length hi = []).
      { unfold range_incl. replace (Z.to_nat (hi + 1 - min_length)) with 0%nat by lia.
        reflexivity. }
      rewrite E. simpl. intros [= <-]. split; [reflexivity | right; lia].
  - rewrite generate_ok.
    + intros [= <-]. split; [apply sorted_longest_first_perm | left; exact Hpos].
    + apply List.Forall_forall. intros i Hi. apply range_incl_spec in Hi. lia.
Qed.

(** What [all_words] returns: exactly the dictionary words that can be
    laid out with the given letters in lower case, each letter used at
    most as often as it was given, whose length lies between the minimum
    and the maximum (the number of letters when no maximum, or 0, is
    given), that contain every letter to include and none to exclude. *)
Theorem all_words_spec letters inc exc min_length max_length ws w :
  all_words sowpods_words letters inc exc min_length max_length = inr ws ->
  In w ws <->
  w ∈ sowpods_words /\
  list_ascii_of_string w ⊆+ list_ascii_of_string (PyStr.lower letters) /\
  (min_length <= Z.of_nat (String.length w) <= effective_max letters max_length)%Z /\
  (forall c, In c (list_ascii_of_string inc) -> In c (list_ascii_of_string w)) /\
  (forall c, In c (list_ascii_of_string exc) -> ~ In c (list_ascii_of_string w)).
Proof.
  intros Hrun. apply all_words_inv in Hrun as [Hperm Hmin].
  rewrite <- list_elem_of_In, Hperm, list_elem_of_In, in_flat_map.
  split.
  - intros (i & Hi & Hw). apply range_incl_spec in Hi.
    apply words_of_length_spec in Hw as (Hacc & Hlen & Hsub).
    apply accepted_spec in Hacc as (Hd & Hinc & Hexc).
    repeat split; try assumption; lia.
  - intros (Hd & Hsub & Hlen & Hinc & Hexc).
    exists (Z.of_nat (String.length w)). split; [apply range_incl_spec; lia |].
    apply words_of_length_spec. rewrite Nat2Z.id.
    split; [apply accepted_spec; auto | auto].
Qed.

(** The result comes longest words first: no word is followed, anywhere
    later in the list, by a longer one. *)
Theorem all_words_longest_first letters inc exc min_length max_length ws :
  all_words sowpods_words letters inc exc min_length max_length = inr ws ->
  StronglySorted not_shorter ws.
Proof.
  unfold all_words. destruct (generate _ _ _ _ _ _) as [e | generated]; [discriminate |].
  intros [= <-]. apply sorted_longest_first_sorted.
Qed.

(** [all_words] raises, with the [ValueError] of [permutations], exactly
    when the minimum length is negative and not above the maximum; a
    minimum above the maximum gives the empty list. *)
Theorem all_words_raises_iff letters inc exc min_length max_length :
  ((min_length < 0)%Z /\ (min_length <= effective_max letters max_length)%Z <->
   all_words sowpods_words letters inc exc min_length max_length
   = inl (ValueError "r must be non-negative")) /\
  ((effective_max letters max_length < min_length)%Z ->
   all_words sowpods_words letters inc exc min_length max_length = inr []).
Proof.
  split; [split |].
  - intros [Hneg Hle]. unfold all_words. rewrite generate_raises; [reflexivity |].
    apply List.Exists_exists. exists min_length.
    split; [apply range_incl_spec; lia | exact Hneg].
  - intros Hraise.
    destruct (Z.lt_ge_cases min_length 0) as [Hneg | Hpos].
    + split; [exact Hneg |].
      destruct (Z.le_gt_cases min_length (effective_max letters max_length))
        as [Hle | Hgt]; [exact Hle |].
      exfalso. unfold all_words, range_incl in Hraise.
      replace (Z.to_nat (effective_max letters max_length + 1 - min_length))
        with 0%nat in Hraise by lia.
      discriminate Hraise.
    + exfalso. unfold all_words in Hraise. rewrite generate_ok in Hraise.
      * discriminate Hraise.
      * apply List.Forall_forall. intros i Hi. apply range_incl_spec in Hi. lia.
  - intros Hgt. unfold all_words, range_incl.
    replace (Z.to_nat (effective_max letters max_length + 1 - min_length))
      with 0%nat by lia.
    reflexivity.
Qed.

Lemma lower_chars_fixed s c :
  In c (list_ascii_of_string (PyStr.lower s)) -> PyStr.lower_char c = c.
Proof.
  induction s as [| c' s IH]; simpl; [tauto |].
  intros [<- | H]; [| exact (IH H)].
  destruct c' as [[] [] [] [] [] [] [] []]; vm_compute; reflexivity.
Qed.

Lemma words_of_length_upper letters inc exc i c :
  In c (list_ascii_of_string inc) ->
  PyStr.lower_char c <> c ->
  words_of_length sowpods_words letters inc exc i = [].
Proof.
  intros Hc Hupper.
  destruct (words_of_length sowpods_words letters inc exc i) as [| w ws] eqn:E;
    [reflexivity |]. exfalso.
  assert (Hw : In w (words_of_length sowpods_words letters inc exc i))
    by (rewrite E; left; reflexivity).
  apply words_of_length_spec in Hw as (Hacc & _ & Hsub).
  apply accepted_spec in Hacc as (_ & Hinc & _).
  apply Hupper. apply (lower_chars_fixed letters).
  apply list_elem_of_In. eapply elem_of_submseteq; [| exact Hsub].
  apply list_elem_of_In. exact (Hinc c Hc).
Qed.

(** Only the letters to build from are put in lower case, not the
    letters to include: an upper-case letter among the letters to include
    can be in no word, so with a minimum length that is not negative the
    result is the empty list. *)
Theorem all_words_uppercase_include letters inc exc min_length max_length c :
  In c (list_ascii_of_string inc) ->
  PyStr.lower_char c <> c ->
  (0 <= min_length)%Z ->
  all_words sowpods_words letters inc exc min_length max_length = inr [].
Proof.
  intros Hc Hupper Hmin. unfold all_words. rewrite generate_ok.
  - assert (E : flat_map
                  (fun i => words_of_length sowpods_words letters inc exc (Z.to_nat i))
                  (range_incl min_length (effective_max letters max_length)) = []).
    { induction (range_incl min_length (effective_max letters max_length))
        as [| i lengths IH]; [reflexivity |].
      simpl. rewrite IH, (words_of_length_upper _ _ _ _ c Hc Hupper). reflexivity. }
    rewrite E. reflexivity.
  - apply List.Forall_forall. intros i Hi. apply range_incl_spec in Hi. lia.
Qed.

Lemma flat_map_bind {A B} (f : A -> list B) (l : list A) : flat_map f l = l ≫= f.
Proof. induction l as [| x l IH]; simpl; [| rewrite IH]; reflexivity. Qed.

Lemma map_fmap {A B} (f : A -> B) (l : list A) : map f l = f <$> l.
Proof. induction l as [| x l IH]; simpl; [| rewrite IH]; reflexivity. Qed.

Lemma fst_selections {A} (pool : list A) : map fst (selections pool) = pool.
Proof.
  induction pool as [| x pool IH]; simpl; [reflexivity |].
  rewrite map_map. f_equal. rewrite <- IH at 2.
  apply map_ext. intros [y rest]. reflexivity.
Qed.

Lemma fst_unique {A B} (l : list (A * B)) x a b :
  NoDup (map fst l) -> In (x, a) l -> In (x, b) l -> a = b.
Proof.
  induction l as [| [y c] l IH]; simpl; [tauto |].
  rewrite NoDup_cons. intros [Hy Hnd] [[= -> ->] | Ha] [[= <-] | Hb]; auto.
  - exfalso. apply Hy, list_elem_of_In, in_map_iff. exists (x, b). auto.
  - exfalso. subst. apply Hy, list_elem_of_In, in_map_iff. exists (y, a). auto.
Qed.

(** Distinct elements give distinct arrangements. *)
Lemma permutations_NoDup {A} r (pool : list A) :
  NoDup pool -> NoDup (itertools_permutations r pool).
Proof.
  revert pool. induction r as [| r IH]; intros pool Hnd; simpl.
  - apply NoDup_singleton.
  - rewrite flat_map_bind. apply NoDup_bind.
    + intros [x1 r1] [x2 r2] p H1 H2 Hp1 Hp2.
      apply list_elem_of_In in H1, H2, Hp1, Hp2.
      apply in_map_iff in Hp1 as (p1 & <- & _).
      apply in_map_iff in Hp2 as (p2 & [= <- _] & _).
      f_equal. eapply fst_unique; [| exact H1 | exact H2].
      rewrite fst_selections. exact Hnd.
    + intros [x rest] Hsel. apply list_elem_of_In, selections_spec in Hsel
        as (l1 & l2 & -> & ->).
      rewrite map_fmap. apply NoDup_fmap_2_strong; [intros ? ? _ _; congruence |].
      apply IH. apply NoDup_app in Hnd as (H1 & H2 & H3).
      apply NoDup_cons in H3 as [_ H3]. apply NoDup_app. split; [exact H1 |].
      split; [| exact H3].
      intros y Hy Hy2. apply (H2 y Hy). right. exact Hy2.
    + eapply (NoDup_fmap_1 fst). rewrite <- map_fmap, fst_selections. exact Hnd.
Qed.

Lemma filter_NoDup {A} (f : A -> bool) (l : list A) :
  NoDup l -> NoDup (List.filter f l).
Proof.
  induction 1 as [| x l Hx _ IH]; simpl; [constructor |].
  destruct (f x); [| exact IH]. constructor; [| exact IH].
  intros Hin. apply Hx. apply list_elem_of_In in Hin. apply filter_In in Hin as [Hin _].
  apply list_elem_of_In. exact Hin.
Qed.

Lemma words_of_length_NoDup letters inc exc i :
  NoDup (list_ascii_of_string (PyStr.lower letters)) ->
  NoDup (words_of_length sowpods_words letters inc exc i).
Proof.
  intros Hnd. unfold words_of_length. apply filter_NoDup.
  rewrite map_fmap. apply NoDup_fmap_2_strong; [| apply permutations_NoDup, Hnd].
  intros p q _ _ E. apply (f_equal list_ascii_of_string) in E.
  rewrite !list_ascii_of_string_of_list_ascii in E. exact E.
Qed.

(** When the letters given are all different, no word is listed twice. *)
Theorem all_words_no_duplicates letters inc exc min_length max_length ws :
  NoDup (list_ascii_of_string (PyStr.lower letters)) ->
  all_words sowpods_words letters inc exc min_length max_length = inr ws ->
  NoDup ws.
Proof.
  intros Hnd Hrun. apply all_words_inv in Hrun as [Hperm Hmin].
  rewrite Hperm, flat_map_bind. apply NoDup_bind.
  - intros i j w Hi Hj Hwi Hwj.
    apply list_elem_of_In, range_incl_spec in Hi, Hj.
    apply list_elem_of_In, words_of_length_spec in Hwi as (_ & Hli & _).
    apply list_elem_of_In, words_of_length_spec in Hwj as (_ & Hlj & _).
    lia.
  - intros i _. apply words_of_length_NoDup, Hnd.
  - unfold range_incl. rewrite map_fmap. apply NoDup_fmap_2_strong.
    + intros; lia.
    + apply NoDup_seq.
Qed.

End WordFacts.

(** ** Instances of the further properties, continued *)

Lemma run_never_exceeds_burst_witness :
  let w := Sample.running_world Sample.held_settings (10, 20)%Q 100%Q
             [ (0.03%Q, Clicker.MoveMouse 1 2); (0.04%Q, Clicker.CaptureCursor) ] in
  let t := {| Clicker.tid := 1; Clicker.args := 0 |} in
  exists w',
    Clicker._run Sample.no_random 1000 t w = Return tt w' /\
    (Z.of_nat (Observe.ticks (Clicker.trace w')) <= 0 + 2)%Z.
Proof.
  intros w t.
  set (w' := default w (final_state (Clicker._run Sample.no_random 1000 t w))).
  assert (H : Clicker._run Sample.no_random 1000 t w = Return tt w')
    by (vm_compute; reflexivity).
  exists w'. split; [exact H |].
  apply (run_never_exceeds_burst Sample.no_random 1000 t w w'); [reflexivity | exact H].
Defined.

Lemma run_ticks_are_complete_witness :
  let w := Sample.running_world Sample.held_settings (10, 20)%Q 100%Q
             [ (0.02%Q, Clicker.PressStop) ] in
  let t := {| Clicker.tid := 1; Clicker.args := 0 |} in
  exists w' k,
    Clicker._run Sample.no_random 1000 t w = Return tt w' /\
    Observe.ticks (Clicker.trace w') = (0 + k)%nat /\
    Observe.presses (Clicker.trace w') = (0 + k * 2)%nat /\
    Tally.releases (Clicker.trace w') = (0 + k * 2)%nat /\
    Observe.presses (Clicker.trace w') = 2%nat.
Proof.
  intros w t.
  set (w' := default w (final_state (Clicker._run Sample.no_random 1000 t w))).
  assert (H : Clicker._run Sample.no_random 1000 t w = Return tt w')
    by (vm_compute; reflexivity).
  destruct (run_ticks_are_complete Sample.no_random 1000 t w w' H)
    as (k & H1 & H2 & H3).
  exists w', k. split; [exact H |]. split; [exact H1 |]. split; [exact H2 |].
  split; [exact H3 |]. vm_compute. reflexivity.
Defined.


Lemma run_dies_on_unsupported_button_witness :
  let w := Sample.running_world (Sample.with_button "side" Clicker.default_settings)
             (10, 20)%Q 100%Q [] in
  let t := {| Clicker.tid := 1; Clicker.args := 0 |} in
  exists msg w',
    Clicker._run Sample.no_random 1 t w = Raise (ValueError msg) w' /\
    Clicker.clicker w' = Clicker.clicker w /\
    Observe.presses (Clicker.trace w') = Observe.presses (Clicker.trace w) /\
    Observe.stop_calls (Clicker.trace w') = Observe.stop_calls (Clicker.trace w) /\
    1%nat ∉ Clicker.alive w'.
Proof.
  intros w t.
  apply (run_dies_on_unsupported_button Sample.no_random 0 t w).
  - constructor.
  - reflexivity.
  - reflexivity.
  - vm_compute. discriminate.
  - repeat split; discriminate.
Defined.

Lemma collect_settings_sanitises_witness :
  let st := Clicker.store (Sample.fresh_world Sample.careless_form (10, 20)%Q 100%Q []) in
  let r := Clicker._collect_settings Sample.parse_decimal st in
  let s := Clicker.deref_store (snd r) 1 in
  (0.001 <= Clicker.interval s)%Q /\ (0 <= Clicker.random_range s)%Q /\
  (0 <= Clicker.start_delay s)%Q /\ (0 <= Clicker.run_duration s)%Q /\
  (0 <= Clicker.burst_count s)%Z /\ (0 <= Clicker.hold_duration s)%Q /\
  Clicker.button s = "middle" /\ Clicker.click_type s = "triple" /\
  Clicker.randomize s = true /\ Clicker.follow_cursor s = true.
Proof.
  intros st r s.
  apply (collect_settings_sanitises Sample.parse_decimal st 1%nat (snd r)).
  vm_compute. reflexivity.
Defined.

Lemma collect_settings_allocates_witness :
  let st := Clicker.store (Sample.fresh_world Sample.default_form (10, 20)%Q 100%Q []) in
  let r := Clicker._collect_settings Sample.parse_decimal st in
  Clicker.settings (snd r) = 1%nat /\
  Clicker.deref_store (snd r) 0 = Clicker.default_settings.
Proof.
  intros st r.
  destruct (collect_settings_allocates Sample.parse_decimal st 1%nat (snd r))
    as (_ & H2 & _ & _ & H5 & _); [vm_compute; reflexivity |].
  split; [exact H2 |]. rewrite H5 by (simpl; lia). reflexivity.
Defined.

Lemma collect_settings_rejects_witness :
  let st := Clicker.store (Sample.fresh_world Sample.misspelt_form (10, 20)%Q 100%Q []) in
  exists msg st',
    Clicker._collect_settings Sample.parse_decimal st = (inl (ValueError msg), st') /\
    Clicker.heap st' = Clicker.heap st /\
    Clicker.settings st' = Clicker.settings st /\
    Clicker.form st' = Clicker.form st /\
    Clicker.dialogs st' = (Clicker.dialogs st ++ ["Invalid input"%string])%list.
Proof.
  intros st. apply (collect_settings_rejects Sample.parse_decimal st).
  do 4 right. left. vm_compute. reflexivity.
Defined.

Lemma empty_fields_default_to_zero_witness :
  Clicker.read_form Sample.parse_decimal Sample.sparse_form (7%Z, 9%Z)
  = Some {| Clicker.interval := PyNum.max 0.001 0.25; Clicker.randomize := false;
            Clicker.random_range := 0; Clicker.button := "left";
            Clicker.click_type := "single"; Clicker.start_delay := 0;
            Clicker.run_duration := 0; Clicker.burst_count := 0%Z;
            Clicker.hold_duration := 0; Clicker.follow_cursor := true;
            Clicker.fixed_position := (7%Z, 9%Z) |}.
Proof.
  apply (proj1 (empty_fields_default_to_zero Sample.parse_decimal Sample.sparse_form
                  (7%Z, 9%Z) eq_refl eq_refl eq_refl eq_refl eq_refl)).
  reflexivity.
Defined.

Lemma capture_then_collect_witness :
  let w := Sample.fresh_world Sample.default_form (10, 20)%Q 100%Q [] in
  let r := Clicker._collect_settings Sample.parse_decimal
             (Clicker.store (Clicker._capture_cursor w)) in
  Clicker.fixed_position (Clicker.deref_store (snd r) 1) = (10%Z, 80%Z).
Proof.
  intros w r.
  apply (capture_then_collect Sample.parse_decimal w 1%nat (snd r)).
  - simpl. lia.
  - vm_compute. reflexivity.
Defined.

Lemma capture_spares_older_settings_witness :
  let w := Sample.fresh_world Sample.default_form (10, 20)%Q 100%Q [] in
  let r := Clicker._collect_settings Sample.parse_decimal (Clicker.store w) in
  Clicker.deref (Clicker._capture_cursor (Clicker.with_store (fun _ => snd r) w)) 0
  = Clicker.default_settings.
Proof.
  intros w r.
  apply (capture_spares_older_settings Sample.parse_decimal w 1%nat (snd r) 0%nat).
  - vm_compute. reflexivity.
  - simpl. lia.
Defined.

Lemma toggle_fixed_then_collect_witness :
  let w := Sample.fresh_world Sample.fixed_form (10, 20)%Q 100%Q [] in
  let r := Clicker._collect_settings Sample.parse_decimal
             (Clicker.store (App._toggle_fixed_position w)) in
  Clicker.follow_cursor (Clicker.deref_store (snd r) 1) = false /\
  Clicker.fixed_position (Clicker.deref_store (snd r) 1) = (10%Z, 80%Z).
Proof.
  intros w r.
  apply (proj2 (toggle_fixed_then_collect Sample.parse_decimal w)).
  - reflexivity.
  - simpl. lia.
  - vm_compute. reflexivity.
Defined.

Lemma reachable_listener_consistent_witness :
  let hm := default Hotkeys.init
              (final_state (Hotkeys.update Sample.hook_accepts "f1" "f2" "f1"
                              (Hotkeys.shutdown Hotkeys.init))) in
  (Hotkeys.listener hm = None \/
   Hotkeys.listener hm = Some (Hotkeys.current_bindings hm)) /\
  (1 <= size (Hotkeys.current_bindings hm) <= 3)%nat.
Proof.
  intros hm.
  apply (reachable_listener_consistent Sample.hook_accepts hm).
  apply (HotkeyHistory.reach_update Sample.hook_accepts "f1" "f2" "f1"
           (Hotkeys.shutdown Hotkeys.init)).
  - apply HotkeyHistory.reach_shutdown, HotkeyHistory.reach_init.
  - vm_compute. reflexivity.
Defined.

Lemma all_words_spec_witness :
  exists ws,
    WordApp.all_words Sample.small_dictionary "ABc" "b" "x" 1 None = inr ws /\
    In "cab" ws.
Proof.
  set (r := WordApp.all_words Sample.small_dictionary "ABc" "b" "x" 1 None).
  assert (H : exists ws, r = inr ws) by (eexists; vm_compute; reflexivity).
  destruct H as [ws H]. exists ws. split; [exact H |].
  apply (all_words_spec Sample.small_dictionary "ABc" "b" "x" 1 None ws "cab" H).
  split; [vm_compute; reflexivity |].
  split; [apply (bool_decide_unpack _); vm_compute; reflexivity |].
  split; [vm_compute; split; discriminate |].
  split.
  - intros c [<- | []]. vm_compute. auto.
  - intros c [<- | []]. vm_compute. intros [H1 | [H1 | [H1 | []]]]; discriminate H1.
Defined.

Lemma all_words_longest_first_witness :
  exists ws,
    WordApp.all_words Sample.small_dictionary "abba" "" "" 1 None = inr ws /\
    StronglySorted WordApp.not_shorter ws.
Proof.
  set (r := WordApp.all_words Sample.small_dictionary "abba" "" "" 1 None).
  assert (H : exists ws, r = inr ws) by (eexists; vm_compute; reflexivity).
  destruct H as [ws H]. exists ws. split; [exact H |].
  exact (all_words_longest_first Sample.small_dictionary "abba" "" "" 1 None ws H).
Defined.

Lemma all_words_uppercase_include_witness :
  WordApp.all_words Sample.small_dictionary "abc" "A" "" 1 None = inr [].
Proof.
  apply (all_words_uppercase_include Sample.small_dictionary "abc" "A" "" 1 None
           "A"%char); [left; reflexivity | discriminate | lia].
Defined.

Lemma all_words_no_duplicates_witness :
  exists ws,
    WordApp.all_words Sample.small_dictionary "abc" "" "" 1 None = inr ws /\
    NoDup ws.
Proof.
  set (r := WordApp.all_words Sample.small_dictionary "abc" "" "" 1 None).
  assert (H : exists ws, r = inr ws) by (eexists; vm_compute; reflexivity).
  destruct H as [ws H]. exists ws. split; [exact H |].
  apply (all_words_no_duplicates Sample.small_dictionary "abc" "" "" 1 None ws);
    [| exact H].
  apply (bool_decide_unpack _). vm_compute. reflexivity.
Defined.
